(** * Formify file copy/watch tool: a shallow embedding and its properties

    The program under study is the single Python script 文件复制移动.py:
    a size formatter, a copy routine that reports sizes, a static table
    of file pairs, interactive selectors, a debounced change handler and
    the command-line entry point.

    Layout of this development:
    - Part I   Python strings as lists of code points, with the few
               [str] methods the script calls;
    - Part II  [format_size];
    - Part III exceptions, the state-and-exception monad, the
               environment interface (file system and clock);
    - Part IV  [copy_files_with_replace];
    - Part V   the registry, the selectors, the change handler, [main];
    - Part VI  an in-memory environment used to run the model;
    - Part VII the notions the properties are stated with, and the
               concrete runs they are evaluated on;
    - Part VIII lemmas and the theorems about the program;
    - Part IX  further properties: what the copy routine leaves alone,
               the selectors, the handler, the monitor, the entry
               point;
    - Part X   the reports as printed: batches with a missing source or
               with two sources of one name, and the grand total. *)

From Stdlib Require Import ZArith NArith QArith List String Ascii Lia.
From stdpp Require Import base option list gmap.

Open Scope N_scope.

(* ===================================================================== *)
(** * Part I. Python strings                                              *)
(* ===================================================================== *)

(** A Python [str] is a sequence of Unicode code points. *)
Abbreviation char := N (only parsing).
Abbreviation str := (list N) (only parsing).

(** String literals of the script are written as UTF-8 Rocq strings and
    decoded into code points. *)
Fixpoint bytes_of_string (s : string) : list N :=
  match s with
  | EmptyString => []
  | String a r => N_of_ascii a :: bytes_of_string r
  end.

Fixpoint utf8_decode (bs : list N) : str :=
  match bs with
  | [] => []
  | b0 :: r0 =>
    if b0 <? 128 then b0 :: utf8_decode r0
    else
      match r0 with
      | [] => [b0]
      | b1 :: r1 =>
        if b0 <? 224 then ((b0 - 192) * 64 + (b1 - 128)) :: utf8_decode r1
        else
          match r1 with
          | [] => [b0; b1]
          | b2 :: r2 =>
            if b0 <? 240
            then ((b0 - 224) * 4096 + (b1 - 128) * 64 + (b2 - 128))
                   :: utf8_decode r2
            else
              match r2 with
              | [] => [b0; b1; b2]
              | b3 :: r3 =>
                ((b0 - 240) * 262144 + (b1 - 128) * 4096
                 + (b2 - 128) * 64 + (b3 - 128)) :: utf8_decode r3
              end
          end
      end
  end.

Definition u (s : string) : str := utf8_decode (bytes_of_string s).

(** [lit "..."] is the literal, already decoded. *)
Notation "'lit' s" :=
  (ltac:(let v := eval vm_compute in (u s%string) in exact v))
  (at level 10, s at level 0, only parsing).

Definition str_eqb (a b : str) : bool := bool_decide (a = b).

(** ** Decimal rendering of integers: [str(n)] and [f"{n}"] *)

Definition digit_char (d : N) : char := 48 + d.

Fixpoint digits_fuel (fuel : nat) (n : N) (acc : str) : str :=
  match fuel with
  | O => digit_char (n mod 10) :: acc
  | S f =>
    if n <? 10 then digit_char n :: acc
    else digits_fuel f (n / 10) (digit_char (n mod 10) :: acc)
  end.

Definition str_of_N (n : N) : str :=
  digits_fuel (N.to_nat (N.log2 n)) n [].

Definition str_of_Z (z : Z) : str :=
  if (z <? 0)%Z then 45 :: str_of_N (Z.abs_N z) else str_of_N (Z.to_N z).

(** ** [x in s], [s.replace(old, "")] for a one-character [old] *)

Fixpoint is_prefix (p s : str) : bool :=
  match p, s with
  | [], _ => true
  | _ :: _, [] => false
  | a :: p', b :: s' => (a =? b) && is_prefix p' s'
  end.

Fixpoint contains (needle s : str) : bool :=
  is_prefix needle s ||
  match s with
  | [] => false
  | _ :: s' => contains needle s'
  end.

Definition remove_char (c : char) (s : str) : str :=
  filter (fun x => x ≠ c) s.

(** ** [s.split(sep)] for a one-character separator *)

Fixpoint split_on (sep : char) (s : str) : list str :=
  match s with
  | [] => [[]]
  | c :: r =>
    if c =? sep then [] :: split_on sep r
    else
      match split_on sep r with
      | [] => [[c]]
      | w :: ws => (c :: w) :: ws
      end
  end.

(** ** [s.split()]: runs of white space separate, no empty fields *)

Definition is_space (c : char) : bool :=
  ((9 <=? c) && (c <=? 13)) || ((28 <=? c) && (c <=? 32))
  || (c =? 133) || (c =? 160) || (c =? 5760)
  || ((8192 <=? c) && (c <=? 8202))
  || (c =? 8232) || (c =? 8233) || (c =? 8239) || (c =? 8287)
  || (c =? 12288).

Fixpoint split_ws_aux (cur : str) (s : str) : list str :=
  match s with
  | [] => match cur with [] => [] | _ => [rev cur] end
  | c :: r =>
    if is_space c
    then match cur with
         | [] => split_ws_aux [] r
         | _ => rev cur :: split_ws_aux [] r
         end
    else split_ws_aux (c :: cur) r
  end.

Definition split_ws (s : str) : list str := split_ws_aux [] s.

(** ** [s.strip()] *)

Fixpoint lstrip (s : str) : str :=
  match s with
  | [] => []
  | c :: r => if is_space c then lstrip r else s
  end.

Definition strip (s : str) : str := rev (lstrip (rev (lstrip s))).

(** ** [s.splitlines()]

    Line boundaries: LF, VT, FF, CR, FS, GS, RS, NEL, LS, PS, with CR LF
    counted as one.  The boundary is dropped and no empty last line is
    produced. *)

Definition is_linebreak (c : char) : bool :=
  ((10 <=? c) && (c <=? 13)) || ((28 <=? c) && (c <=? 30))
  || (c =? 133) || (c =? 8232) || (c =? 8233).

(** What follows a line boundary [c]: the LF of a CR LF is skipped. *)
Definition after_break (c : char) (r : str) : str :=
  if c =? 13
  then match r with
       | x :: r' => if x =? 10 then r' else r
       | [] => r
       end
  else r.

Fixpoint splitlines_aux (cur : str) (s : str) : list str :=
  match s with
  | [] => match cur with [] => [] | _ => [rev cur] end
  | c :: r =>
    if is_linebreak c
    then rev cur :: splitlines_aux [] (after_break c r)
    else splitlines_aux (c :: cur) r
  end.

Definition splitlines (s : str) : list str := splitlines_aux [] s.

(** ** [s.lower()] on the ASCII letters (all the script compares with) *)

Definition lower_char (c : char) : char :=
  if (65 <=? c) && (c <=? 90) then c + 32 else c.

(** ** [", ".join(l)] *)

Fixpoint join (sep : str) (l : list str) : str :=
  match l with
  | [] => []
  | [x] => x
  | x :: r => x ++ sep ++ join sep r
  end.

(** ** [l.index(x)] on a list of strings: [None] stands for ValueError *)

Fixpoint index_of (x : str) (l : list str) : option nat :=
  match l with
  | [] => None
  | y :: r => if str_eqb y x then Some O else S <$> index_of x r
  end.

(* ===================================================================== *)
(** * Part II. [format_size]                                              *)
(* ===================================================================== *)

(** [div_rne a d] is the integer nearest to a/d, ties going to the even
    one: the rounding of binary64 arithmetic and of the [.2f] format. *)
Definition div_rne (a d : N) : N :=
  let q := a / d in
  let r := a mod d in
  if 2 * r <? d then q
  else if d <? 2 * r then q + 1
  else if N.even q then q else q + 1.

(** The binary64 value nearest to the integer [n] (53 significant bits).
    [size_bytes / 1024] and [size_bytes / (1024*1024)] are this value
    scaled by a power of two, which is exact.  From 2^1024 on the
    division can overflow (OverflowError); file sizes are far below
    that, the overflow is not modelled and the properties of
    [format_size] are stated below that bound. *)
Definition float_of_int (n : N) : N :=
  if N.log2 n <? 53 then n
  else let k := N.log2 n - 52 in div_rne n (2 ^ k) * 2 ^ k.

(** [f"{num/den:.2f}"] for the exact value num/den: the nearest multiple
    of 0.01, printed with two digits after the point. *)
Definition fmt_2f (num den : N) : str :=
  let h := div_rne (100 * num) den in
  str_of_N (h / 100) ++ [46; digit_char (h / 10 mod 10); digit_char (h mod 10)].

Definition format_size (size_bytes : Z) : str :=
  if (size_bytes <? 1024)%Z then
    str_of_Z size_bytes ++ lit "B"
  else if (size_bytes <? 1024 * 1024)%Z then
    fmt_2f (float_of_int (Z.to_N size_bytes)) 1024 ++ lit "KB"
  else
    fmt_2f (float_of_int (Z.to_N size_bytes)) (1024 * 1024) ++ lit "MB".

(* ===================================================================== *)
(** * Part III. Exceptions, effects and the environment                   *)
(* ===================================================================== *)

(** The exception classes the script can meet.  [Exc] is everything
    below [Exception]; [KeyboardInterrupt] and [SystemExit] derive from
    [BaseException] only, so [except Exception] lets them through. *)
Inductive exc_class :=
| ValueError | KeyError | IndexError | EOFError | OSError | OtherError.

Inductive exn :=
| Exc (c : exc_class) (msg : str)
| KeyboardInterrupt
| SystemExit (code : Z).

Inductive result (A : Type) :=
| Ok (a : A)
| Raise (e : exn).
Arguments Ok {A} a.
Arguments Raise {A} e.

(** Effects: a state that survives exceptions, as in Python where a
    raised exception does not undo earlier mutations. *)
Definition M (S A : Type) : Type := S → result A * S.

Definition ret {S A} (a : A) : M S A := fun s => (Ok a, s).
Definition raise {S A} (e : exn) : M S A := fun s => (Raise e, s).
Definition bind {S A B} (m : M S A) (k : A → M S B) : M S B :=
  fun s => match m s with
           | (Ok a, s') => k a s'
           | (Raise e, s') => (Raise e, s')
           end.
Definition get {S} : M S S := fun s => (Ok s, s).
Definition modify {S} (f : S → S) : M S unit := fun s => (Ok tt, f s).

(** [try: body except Exception as e: handler(e)] *)
Definition try_except {S A} (body : M S A) (handler : str → M S A) : M S A :=
  fun s => match body s with
           | (Raise (Exc _ msg), s') => handler msg s'
           | r => r
           end.

(** [try: body except ValueError: handler] *)
Definition try_except_ValueError {S A} (body : M S A) (handler : M S A)
  : M S A :=
  fun s => match body s with
           | (Raise (Exc ValueError _), s') => handler s'
           | r => r
           end.

Declare Scope py_scope.
Delimit Scope py_scope with py.
Notation "x <- m ;; k" := (bind m (fun x => k))
  (at level 100, m at next level, right associativity) : py_scope.
Open Scope py_scope.

(** ** Paths

    [pathlib] pure paths, POSIX flavour: a path is its list of
    components and whether it starts at the root.  Empty components and
    [.] are dropped on parsing, [..] is kept.  (The special root [//]
    and the Windows flavour, which also splits on the backslash, are not
    modelled.) *)
Record Path := mkPath { anchored : bool; parts : list str }.

Global Instance Path_eq_dec : EqDecision Path.
Proof. solve_decision. Defined.

Definition Path_of (s : str) : Path :=
  {| anchored := match s with 47 :: _ => true | _ => false end;
     parts := filter (fun c => c ≠ [] ∧ c ≠ [46]) (split_on 47 s) |}.

(** [p.name] *)
Definition name (p : Path) : str := List.last (parts p) [].

(** [p / s] *)
Definition joinpath (p : Path) (s : str) : Path :=
  let q := Path_of s in
  if anchored q then q
  else {| anchored := anchored p; parts := parts p ++ parts q |}.

(** [p.parent] *)
Definition parent (p : Path) : Path :=
  {| anchored := anchored p; parts := removelast (parts p) |}.

(** [str(p)] *)
Definition str_of_Path (p : Path) : str :=
  match anchored p, parts p with
  | false, [] => [46]
  | false, ps => join [47] ps
  | true, ps => 47 :: join [47] ps
  end.

(** [p == q] *)
Definition Path_eqb (p q : Path) : bool := bool_decide (p = q).

(** ** The environment: file system, clock and the directory observer

    Every operation may raise and may change the environment even when
    it raises.  Clock readings are rationals standing for the seconds
    returned by [time.time()]. *)
Class Environment (E : Type) := {
  (** [Path.exists()] *)
  path_exists : Path → M E bool;
  (** [Path.stat().st_size] *)
  stat_size : Path → M E Z;
  (** [Path.mkdir(parents=True, exist_ok=True)] *)
  mkdir_parents : Path → M E unit;
  (** [shutil.copy2(src, dst)] *)
  copy2 : str → Path → M E unit;
  (** [time.time()] *)
  time_time : M E Q;
  (** [Observer.schedule] on each directory, then [Observer.start()] *)
  observer_start : list str → M E unit;
}.

(** The process state: the environment, the terminal, [sys.stdout]
    redirected to a [StringIO] or not, and the lines still to be read
    from standard input. *)
Record world (E : Type) := mkWorld {
  env : E;
  terminal : str;
  capture : option str;
  stdin : list str;
}.
Arguments mkWorld {E} _ _ _ _.
Arguments env {E} _.
Arguments terminal {E} _.
Arguments capture {E} _.
Arguments stdin {E} _.

Section Effects.
Context {E : Type} `{Environment E}.

Definition in_env {A} (m : M E A) : M (world E) A :=
  fun w =>
    match m (env w) with
    | (r, e') => (r, mkWorld e' (terminal w) (capture w) (stdin w))
    end.

Definition write (s : str) (w : world E) : world E :=
  match capture w with
  | Some buf => mkWorld (env w) (terminal w) (Some (buf ++ s)) (stdin w)
  | None => mkWorld (env w) (terminal w ++ s) None (stdin w)
  end.

(** [print(s)] *)
Definition print (s : str) : M (world E) unit :=
  modify (write (s ++ [10])).

(** [input(prompt)]: EOFError at the end of standard input *)
Definition input (prompt : str) : M (world E) str :=
  fun w =>
    let w1 := write prompt w in
    match stdin w1 with
    | [] => (Raise (Exc EOFError (lit "EOF when reading a line")), w1)
    | l :: rest =>
      (Ok l, mkWorld (env w1) (terminal w1) (capture w1) rest)
    end.

(** Running a computation that has local variables [L] *)
Definition in_world {L A} (m : M (world E) A) : M (L * world E) A :=
  fun s =>
    match m (snd s) with
    | (r, w') => (r, (fst s, w'))
    end.

Definition update_locals {L} (f : L → L) : M (L * world E) unit :=
  modify (fun s => (f (fst s), snd s)).

Definition with_locals {L A} (init : L) (m : M (L * world E) A)
  : M (world E) (A * L) :=
  fun w =>
    match m (init, w) with
    | (Ok a, (l, w')) => (Ok (a, l), w')
    | (Raise e, (_, w')) => (Raise e, w')
    end.
End Effects.

(* ===================================================================== *)
(** * Part IV. [copy_files_with_replace]                                  *)
(* ===================================================================== *)

(** The four accumulators of the routine. *)
Record counters := mkCounters {
  success_count : Z;
  error_count : Z;
  total_source_size : Z;
  total_dest_size : Z;
}.

Definition counters0 : counters := mkCounters 0 0 0 0.

Definition incr_success (c : counters) : counters :=
  mkCounters (success_count c + 1) (error_count c)
             (total_source_size c) (total_dest_size c).
Definition incr_error (c : counters) : counters :=
  mkCounters (success_count c) (error_count c + 1)
             (total_source_size c) (total_dest_size c).
Definition add_source_size (n : Z) (c : counters) : counters :=
  mkCounters (success_count c) (error_count c)
             (total_source_size c + n) (total_dest_size c).
Definition add_dest_size (n : Z) (c : counters) : counters :=
  mkCounters (success_count c) (error_count c)
             (total_source_size c) (total_dest_size c + n).

(** ["+" if x > 0 else ("-" if x < 0 else "")] *)
Definition change_symbol (x : Z) : str :=
  if (0 <? x)%Z then lit "+" else if (x <? 0)%Z then lit "-" else [].

(** The text built at lines 63-67 of the script. *)
Definition size_change_str (orig_dest_size dest_size : Z) : str :=
  let size_change := (dest_size - orig_dest_size)%Z in
  let base := lit "(" ++ format_size orig_dest_size ++ lit " → "
              ++ format_size dest_size ++ lit ")" in
  if (0 <? orig_dest_size)%Z
  then base ++ lit " [" ++ change_symbol size_change
            ++ format_size (Z.abs size_change) ++ lit "]"
  else base.

Definition success_line (file_name : str) (orig_dest_size dest_size : Z)
           (destination_folder : str) : str :=
  lit "✅ 成功复制: " ++ file_name ++ lit " "
    ++ size_change_str orig_dest_size dest_size
    ++ lit " -> " ++ destination_folder.

Definition missing_line (source_file : str) : str :=
  lit "❌ 源文件不存在: " ++ source_file.

Definition failure_line (source_file msg : str) : str :=
  lit "❌ 复制失败 " ++ source_file ++ lit ": " ++ msg.

(** The text built at lines 77-84; [print] puts it after an empty line. *)
Definition total_size_str (c : counters) : str :=
  let total_change := (total_dest_size c - total_source_size c)%Z in
  let base := lit "总大小: " ++ format_size (total_source_size c) ++ lit " → "
              ++ format_size (total_dest_size c) in
  if (total_change =? 0)%Z then base
  else base ++ lit " [" ++ change_symbol total_change
            ++ format_size (Z.abs total_change) ++ lit "]".

Definition summary_line (c : counters) : str :=
  lit "📊 复制完成! 成功: " ++ str_of_Z (success_count c)
    ++ lit ", 失败: " ++ str_of_Z (error_count c)
    ++ lit " | " ++ total_size_str c.

Section CopyEngine.
Context {E : Type} `{Environment E}.

(** The statements of the [try] block (lines 37-70).  The [continue]
    of the missing-source branch ends the block. *)
Definition copy_attempt (destination_path : Path)
           (destination_folder source_file : str)
  : M (counters * world E) unit :=
  let source_path := Path_of source_file in
  found <- in_world (in_env (path_exists source_path)) ;;
  if negb found then
    _ <- in_world (print (missing_line source_file)) ;;
    update_locals incr_error
  else
    source_size <- in_world (in_env (stat_size source_path)) ;;
    _ <- update_locals (add_source_size source_size) ;;
    let destination_file := joinpath destination_path (name source_path) in
    dest_found <- in_world (in_env (path_exists destination_file)) ;;
    orig_dest_size <-
      (if dest_found : bool
       then in_world (in_env (stat_size destination_file))
       else ret 0%Z) ;;
    _ <- in_world (in_env (copy2 source_file destination_file)) ;;
    dest_size <- in_world (in_env (stat_size destination_file)) ;;
    _ <- update_locals (add_dest_size dest_size) ;;
    _ <- in_world (print (success_line (name source_path) orig_dest_size
                                       dest_size destination_folder)) ;;
    update_locals incr_success.

(** One iteration of the [for] loop: the [try] block and its
    [except Exception] handler (lines 72-74). *)
Definition copy_one (destination_path : Path)
           (destination_folder source_file : str)
  : M (counters * world E) unit :=
  try_except
    (copy_attempt destination_path destination_folder source_file)
    (fun msg =>
       _ <- in_world (print (failure_line source_file msg)) ;;
       update_locals incr_error).

Fixpoint copy_loop (destination_path : Path) (destination_folder : str)
         (source_files : list str) : M (counters * world E) unit :=
  match source_files with
  | [] => ret tt
  | source_file :: rest =>
    _ <- copy_one destination_path destination_folder source_file ;;
    copy_loop destination_path destination_folder rest
  end.

(** The routine up to the summary; it returns the accumulators, which
    the script only prints. *)
Definition copy_files_counted (source_files : list str)
           (destination_folder : str) : M (world E) counters :=
  let destination_path := Path_of destination_folder in
  _ <- in_env (mkdir_parents destination_path) ;;
  r <- with_locals counters0
         (copy_loop destination_path destination_folder source_files) ;;
  _ <- print (10 :: summary_line (snd r)) ;;
  ret (snd r).

Definition copy_files_with_replace (source_files : list str)
           (destination_folder : str) : M (world E) unit :=
  _ <- copy_files_counted source_files destination_folder ;;
  ret tt.
End CopyEngine.

(* ===================================================================== *)
(** * Part V. Registry, selectors, change handler, entry point           *)
(* ===================================================================== *)

(** ** [file_pairs] *)

Record pair := mkPair {
  pair_name : str;
  source_files : list str;
  target_folder : str;
}.

(** A [dict] from pair id to pair, in insertion order. *)
Definition registry := list (str * pair).

Definition file_pairs : registry :=
  [ (lit "pair1",
     mkPair (lit "form-flow插件文件-Obsidian沙箱仓库")
            [ lit "C:\Desktop\code\form-flow\plugin\manifest.json";
              lit "C:\Desktop\code\form-flow\plugin\main.js";
              lit "C:\Desktop\code\form-flow\plugin\styles.css" ]
            (lit "C:\Code\Obsidian沙箱仓库\.obsidian\plugins\form-flow"));
    (lit "pair2",
     mkPair (lit "Lmmersive主题")
            [ lit "C:\Desktop\code\Lmmersive\manifest.json";
              lit "C:\Desktop\code\Lmmersive\theme.css" ]
            (lit "C:\Code\Obsidian沙箱仓库\.obsidian\themes\Lmmersive"));
    (lit "pair3",
     mkPair (lit "git-auto插件文件")
            [ lit "C:\Desktop\code\git-auto\manifest.json";
              lit "C:\Desktop\code\git-auto\main.js";
              lit "C:\Desktop\code\git-auto\styles.css" ]
            (lit "C:\Code\Obsidian沙箱仓库\.obsidian\plugins\git-auto"));
    (lit "pair4",
     mkPair (lit "form-flow插件文件-笔记互传")
            [ lit "C:\Desktop\code\obsidian-form-flow-master\plugin\manifest.json";
              lit "C:\Desktop\code\obsidian-form-flow-master\plugin\main.js";
              lit "C:\Desktop\code\obsidian-form-flow-master\plugin\styles.css" ]
            (lit "C:\Desktop\TakeAction\B-Dailylife\笔记互传\.obsidian\plugins\form-flow"));
    (lit "pair5",
     mkPair (lit "form-flow插件文件-Obsidian沙箱仓库")
            [ lit "C:\Desktop\code\obsidian-form-flow-master\plugin\manifest.json";
              lit "C:\Desktop\code\obsidian-form-flow-master\plugin\main.js";
              lit "C:\Desktop\code\obsidian-form-flow-master\plugin\styles.css" ]
            (lit "C:\Code\Obsidian沙箱仓库\.obsidian\plugins\form-flow")) ].

(** [list(d.keys())], [k in d], [d[k]] *)
Definition keys (d : registry) : list str := map fst d.

Fixpoint lookup_pair (d : registry) (k : str) : option pair :=
  match d with
  | [] => None
  | (k', p) :: r => if str_eqb k' k then Some p else lookup_pair r k
  end.

Definition has_key (d : registry) (k : str) : bool :=
  match lookup_pair d k with Some _ => true | None => false end.

(** ** [int(s)]

    Optional white space around, an optional sign, decimal digits with
    single underscores between them.  (Decimal digits of other scripts,
    which [int] also accepts, are not modelled; nor is the refusal of
    texts of more than 4300 digits.) *)
Fixpoint parse_digits (acc : N) (after_digit : bool) (s : str) : option N :=
  match s with
  | [] => if after_digit then Some acc else None
  | c :: r =>
    if (48 <=? c) && (c <=? 57) then parse_digits (10 * acc + (c - 48)) true r
    else if (c =? 95) && after_digit then parse_digits acc false r
    else None
  end.

Definition int_of_str (s : str) : option Z :=
  match strip s with
  | [] => None
  | c :: r =>
    if c =? 45 then (fun n => (- Z.of_N n)%Z) <$> parse_digits 0 false r
    else if c =? 43 then Z.of_N <$> parse_digits 0 false r
    else Z.of_N <$> parse_digits 0 false (c :: r)
  end.

Definition int_ {S} (s : str) : M S Z :=
  match int_of_str s with
  | Some z => ret z
  | None => raise (Exc ValueError (lit "invalid literal for int()"))
  end.

(** The menu printed by [select_file_pair] and [select_watch_pairs]:
    [enumerate(file_pairs.items(), 1)] *)
Definition menu_line (i : nat) (pair_id : str) (p : pair) : str :=
  str_of_N (N.of_nat i) ++ lit ". " ++ pair_name p
    ++ lit " (ID: " ++ pair_id ++ lit ")".

(** The watched handler: its two constructor arguments, the timestamp
    dictionary, and a ghost field: the ids of the pairs whose copy was
    invoked, oldest first.  The ghost field is read by no code. *)
Record FileChangeHandler := mkHandler {
  h_file_pairs : registry;
  h_watch_pairs : list str;
  last_triggered : gmap str Q;
  invoked : list str;
}.

Record event := mkEvent { is_directory : bool; src_path : str }.

(** How a loop body ends: falls through to the next iteration, or
    leaves the function. *)
Inductive flow := Next | Return.

Definition Qltb (x y : Q) : bool := negb (Qle_bool y x).

(** What the entry point ends in: it ran to completion, or it sits in
    the monitoring loop with the observer started. *)
Inductive outcome :=
| Completed
| Watching (handler : FileChangeHandler) (watched_dirs : list str).

Record args := mkArgs { auto : bool; pairs : option str }.

Section Program.
Context {E : Type} `{Environment E}.

(** [while True: line = input(prompt); body(line)]: [body] returns a
    value, or nothing to go round again.  This is [input] above, written
    out on [lines], the input not yet read, on which the loop recurses;
    it ends with EOFError when the input runs out. *)
Fixpoint input_loop {A} (prompt : str)
         (body : str → M (world E) (option A)) (lines : list str)
  : M (world E) A :=
  fun w =>
    let w1 := write prompt w in
    match lines with
    | [] => (Raise (Exc EOFError (lit "EOF when reading a line")), w1)
    | l :: rest =>
      match body l (mkWorld (env w1) (terminal w1) (capture w1) rest) with
      | (Ok (Some a), w2) => (Ok a, w2)
      | (Ok None, w2) => input_loop prompt body rest w2
      | (Raise e, w2) => (Raise e, w2)
      end
    end.

Definition while_input {A} (prompt : str)
           (body : str → M (world E) (option A)) : M (world E) A :=
  fun w => input_loop prompt body (stdin w) w.

(** ** [select_copy_mode] *)
Definition select_copy_mode : M (world E) Z :=
  _ <- print (10 :: lit "📋 请选择复制模式:") ;;
  _ <- print (lit "1. 复制特定一对文件") ;;
  _ <- print (lit "2. 复制所有文件对") ;;
  while_input (lit "请输入选项 (1/2): ")
    (fun line =>
       let choice := strip line in
       if str_eqb choice (lit "1") || str_eqb choice (lit "2")
       then z <- int_ choice ;; ret (Some z)
       else _ <- print (lit "❌ 无效选项，请输入1或2。") ;; ret None).

Fixpoint print_menu (i : nat) (d : registry) : M (world E) unit :=
  match d with
  | [] => ret tt
  | (pair_id, pair_info) :: r =>
    _ <- print (menu_line i pair_id pair_info) ;;
    print_menu (S i) r
  end.

Definition in_range (choice : Z) : bool :=
  ((1 <=? choice)%Z && (choice <=? Z.of_nat (length file_pairs))%Z).

(** ** [select_file_pair] *)
Definition select_file_pair : M (world E) str :=
  _ <- print (10 :: lit "📋 可用文件对:") ;;
  _ <- print_menu 1 file_pairs ;;
  while_input (lit "请输入要复制的文件对编号: ")
    (fun line =>
       try_except_ValueError
         (choice <- int_ (strip line) ;;
          if in_range choice then
            let pair_ids := keys file_pairs in
            ret (Some (nth (Z.to_nat (choice - 1)) pair_ids []))
          else
            _ <- print (lit "❌ 无效编号，请输入1到"
                          ++ str_of_N (N.of_nat (length file_pairs))
                          ++ lit "之间的数字。") ;;
            ret None)
         (_ <- print (lit "❌ 无效输入，请输入数字。") ;; ret None)).

(** [[int(idx.strip()) for idx in l]] *)
Fixpoint ints_of (l : list str) : M (world E) (list Z) :=
  match l with
  | [] => ret []
  | idx :: r =>
    z <- int_ (strip idx) ;;
    zs <- ints_of r ;;
    ret (z :: zs)
  end.

(** The [for idx in indices: ... else: return selected_pairs] loop of
    [select_watch_pairs]; [None] after the [break]. *)
Fixpoint collect_pairs (indices : list Z) (selected_pairs : list str)
  : M (world E) (option (list str)) :=
  match indices with
  | [] => ret (Some selected_pairs)
  | idx :: r =>
    if in_range idx then
      collect_pairs r
        (selected_pairs ++ [nth (Z.to_nat (idx - 1)) (keys file_pairs) []])
    else
      _ <- print (lit "❌ 无效编号: " ++ str_of_Z idx ++ lit "，请重新输入") ;;
      ret None
  end.

(** ** [select_watch_pairs] *)
Definition select_watch_pairs : M (world E) (list str) :=
  _ <- print (10 :: lit "📋 可用文件对:") ;;
  _ <- print_menu 1 file_pairs ;;
  _ <- print (10 :: lit "请输入要监控的文件对编号（多个用逗号分隔，或输入'all'监控所有）:") ;;
  while_input (lit "选项: ")
    (fun line =>
       let choice := strip line in
       if str_eqb (map lower_char choice) (lit "all")
       then ret (Some (keys file_pairs))
       else
         try_except_ValueError
           (indices <- ints_of (split_on 44 choice) ;;
            collect_pairs indices [])
           (_ <- print (lit "❌ 无效输入，请输入数字编号或'all'") ;;
            ret None)).

(** ** [FileChangeHandler.__init__] *)
Definition new_handler (file_pairs : registry)
           (watch_pairs : option (list str)) : FileChangeHandler :=
  let watch :=
      match watch_pairs with
      | None | Some [] => keys file_pairs
      | Some l => l
      end in
  mkHandler file_pairs watch
            (fold_left (fun m pair_id => <[pair_id := 0%Q]> m) watch ∅)
            [].

Definition set_last_triggered (pair_id : str) (t : Q)
           (h : FileChangeHandler) : FileChangeHandler :=
  mkHandler (h_file_pairs h) (h_watch_pairs h)
            (<[pair_id := t]> (last_triggered h)) (invoked h).

Definition log_invoked (pair_id : str) (h : FileChangeHandler)
  : FileChangeHandler :=
  mkHandler (h_file_pairs h) (h_watch_pairs h)
            (last_triggered h) (invoked h ++ [pair_id]).

(** [self.last_triggered[pair_id]] *)
Definition get_last_triggered (pair_id : str)
  : M (FileChangeHandler * world E) Q :=
  fun s =>
    match last_triggered (fst s) !! pair_id with
    | Some t => (Ok t, s)
    | None => (Raise (Exc KeyError pair_id), s)
    end.

(** ** [FileChangeHandler.on_modified]

    What is done for a pair one of whose source files is the modified
    file (lines 199-207): the debounce test, whose [return] leaves the
    handler, then the copy, after which [break] leaves the loop over
    the source files. *)
Definition trigger (pair_id : str) (p : pair) (file_path : Path)
  : M (FileChangeHandler * world E) flow :=
  current_time <- in_world (in_env time_time) ;;
  last <- get_last_triggered pair_id ;;
  if Qltb (current_time - last) 2 then ret Return
  else
    _ <- update_locals (set_last_triggered pair_id current_time) ;;
    _ <- in_world (print (10 :: lit "🔄 检测到文件变动: " ++ name file_path
                             ++ lit "，开始自动复制...")) ;;
    _ <- update_locals (log_invoked pair_id) ;;
    _ <- in_world (copy_files_with_replace (source_files p)
                                           (target_folder p)) ;;
    ret Next (* break *).

(** The inner loop over the source files of one pair (lines 197-198). *)
Fixpoint scan_source_files (pair_id : str) (p : pair) (file_path : Path)
         (l : list str) : M (FileChangeHandler * world E) flow :=
  match l with
  | [] => ret Next
  | source_file :: rest =>
    if Path_eqb file_path (Path_of source_file)
    then trigger pair_id p file_path
    else scan_source_files pair_id p file_path rest
  end.

(** The outer loop over [self.watch_pairs] (lines 190-207).  It tells
    whether it was left by the [return] or ran to its end. *)
Fixpoint scan_pairs (file_pairs : registry) (file_path : Path)
         (watch : list str) : M (FileChangeHandler * world E) flow :=
  match watch with
  | [] => ret Next
  | pair_id :: rest =>
    match lookup_pair file_pairs pair_id with
    | None => scan_pairs file_pairs file_path rest
    | Some p =>
      f <- scan_source_files pair_id p file_path (source_files p) ;;
      match f with
      | Return => ret Return
      | Next => scan_pairs file_pairs file_path rest
      end
    end
  end.

Definition on_modified (ev : event) : M (FileChangeHandler * world E) unit :=
  if is_directory ev then ret tt
  else
    let file_path := Path_of (src_path ev) in
    h <- get ;;
    _ <- scan_pairs (h_file_pairs (fst h)) file_path (h_watch_pairs (fst h)) ;;
    ret tt.

(** ** [start_auto_monitor], up to [observer.start()] *)
Fixpoint print_watched (file_pairs : registry) (watch : list str)
  : M (world E) unit :=
  match watch with
  | [] => ret tt
  | pair_id :: rest =>
    match lookup_pair file_pairs pair_id with
    | None => raise (Exc KeyError pair_id)
    | Some p =>
      _ <- print (lit "  - " ++ pair_name p) ;;
      _ <- print (lit "    源文件: "
                    ++ join (lit ", ")
                         (map (fun f => name (Path_of f)) (source_files p))) ;;
      _ <- print (lit "    目标: " ++ target_folder p) ;;
      print_watched file_pairs rest
    end
  end.

Fixpoint add_dirs (l : list str) (watched_dirs : list str) : list str :=
  match l with
  | [] => watched_dirs
  | source_file :: rest =>
    let source_dir := str_of_Path (parent (Path_of source_file)) in
    if bool_decide (source_dir ∈ watched_dirs)
    then add_dirs rest watched_dirs
    else add_dirs rest (watched_dirs ++ [source_dir])
  end.

Fixpoint scheduled_dirs (file_pairs : registry) (watch : list str)
         (watched_dirs : list str) : list str :=
  match watch with
  | [] => watched_dirs
  | pair_id :: rest =>
    match lookup_pair file_pairs pair_id with
    | None => scheduled_dirs file_pairs rest watched_dirs
    | Some p =>
      scheduled_dirs file_pairs rest (add_dirs (source_files p) watched_dirs)
    end
  end.

Definition start_auto_monitor (file_pairs : registry)
           (watch_pairs : option (list str)) : M (world E) outcome :=
  let watch :=
      match watch_pairs with
      | None => keys file_pairs
      | Some l => l
      end in
  _ <- print (10 :: lit "🔄 启动自动文件监控模式...") ;;
  _ <- print (lit "监控的文件对:") ;;
  _ <- print_watched file_pairs watch ;;
  _ <- print (10 :: lit "按 Ctrl+C 停止监控" ++ [10]) ;;
  let event_handler := new_handler file_pairs (Some watch) in
  let watched_dirs := scheduled_dirs file_pairs watch [] in
  _ <- in_env (observer_start watched_dirs) ;;
  ret (Watching event_handler watched_dirs).
End Program.

(** ** The entry point *)

(** Lines 339-346: the first captured line holding both markers is cut
    at white space and the fields after ["成功:"] and ["失败:"] are read
    back as integers.  [None] when no line qualifies. *)
Definition field_after (key : str) (parts : list str) : result Z :=
  match index_of key parts with
  | None => Raise (Exc ValueError (lit "value is not in list"))
  | Some i =>
    match nth_error parts (S i) with
    | None => Raise (Exc IndexError (lit "list index out of range"))
    | Some field =>
      match int_of_str (remove_char 44 field) with
      | Some z => Ok z
      | None => Raise (Exc ValueError (lit "invalid literal for int()"))
      end
    end
  end.

Definition is_summary (line : str) : bool :=
  contains (lit "成功: ") line && contains (lit "失败: ") line.

Definition parse_counts (output : str) : result (option (Z * Z)) :=
  match List.find is_summary (splitlines output) with
  | None => Ok None
  | Some line =>
    let parts := split_ws line in
    match field_after (lit "成功:") parts with
    | Raise e => Raise e
    | Ok success =>
      match field_after (lit "失败:") parts with
      | Raise e => Raise e
      | Ok error => Ok (Some (success, error))
      end
    end
  end.

Section EntryPoint.
Context {E : Type} `{Environment E}.

(** [sys.stdout = captured_output = io.StringIO()] and back *)
Definition set_capture (c : option str) : M (world E) unit :=
  modify (fun w => mkWorld (env w) (terminal w) c (stdin w)).

Definition captured_text (w : world E) : str :=
  match capture w with Some buf => buf | None => [] end.

(** The body of the loop over [file_pairs.items()] (lines 325-346),
    on the running totals. *)
Definition copy_pair_parsed (p : pair) (totals : Z * Z)
  : M (world E) (Z * Z) :=
  _ <- print (10 :: lit "🔄 处理文件对: " ++ pair_name p) ;;
  w0 <- get ;;
  let old_stdout := capture w0 in
  _ <- set_capture (Some []) ;;
  _ <- copy_files_with_replace (source_files p) (target_folder p) ;;
  w1 <- get ;;
  let output := captured_text w1 in
  _ <- set_capture old_stdout ;;
  match parse_counts output with
  | Raise e => raise e
  | Ok None => ret totals
  | Ok (Some (success, error)) =>
    ret ((fst totals + success)%Z, (snd totals + error)%Z)
  end.

Fixpoint copy_pairs_parsed (d : registry) (totals : Z * Z)
  : M (world E) (Z * Z) :=
  match d with
  | [] => ret totals
  | (_, p) :: r =>
    t <- copy_pair_parsed p totals ;;
    copy_pairs_parsed r t
  end.

Definition grand_total_line (totals : Z * Z) : str :=
  lit "📊 所有文件对复制完成! 总成功: " ++ str_of_Z (fst totals)
    ++ lit ", 总失败: " ++ str_of_Z (snd totals).

(** Lines 319-348: the "copy all pairs" branch. *)
Definition copy_all_pairs (d : registry) : M (world E) unit :=
  _ <- print (10 :: lit "🚀 开始复制所有文件对") ;;
  totals <- copy_pairs_parsed d (0%Z, 0%Z) ;;
  print (10 :: grand_total_line totals).

(** [if args.pairs:] is false for [None] and for the empty string. *)
Definition pairs_given (a : args) : option str :=
  match pairs a with
  | Some [] => None
  | o => o
  end.

Definition main (a : args) : M (world E) outcome :=
  if auto a then
    watch_pairs <-
      match pairs_given a with
      | Some s =>
        let watch_pairs := split_on 44 s in
        let invalid_pairs :=
            filter (fun p => has_key file_pairs p = false) watch_pairs in
        match invalid_pairs with
        | [] => ret watch_pairs
        | _ =>
          _ <- print (lit "❌ 无效的文件对ID: " ++ join (lit ", ") invalid_pairs) ;;
          raise (SystemExit 1)
        end
      | None => select_watch_pairs
      end ;;
    start_auto_monitor file_pairs (Some watch_pairs)
  else
    mode <- select_copy_mode ;;
    if (mode =? 1)%Z then
      pair_id <- select_file_pair ;;
      match lookup_pair file_pairs pair_id with
      | None => raise (Exc KeyError pair_id)
      | Some p =>
        _ <- print (10 :: lit "🚀 开始复制: " ++ pair_name p) ;;
        _ <- copy_files_with_replace (source_files p) (target_folder p) ;;
        ret Completed
      end
    else
      _ <- copy_all_pairs file_pairs ;;
      ret Completed.
End EntryPoint.

(* ===================================================================== *)
(** * Part VI. An in-memory environment                                   *)
(* ===================================================================== *)

(** A small file system to run the model on: a finite map from paths to
    regular files (their bytes) and directories, and the list of the
    clock readings to come.  The root and the current directory always
    exist.  There are no links and no permissions, and [..] is an
    ordinary component. *)
Inductive node :=
| File (data : list N)
| Dir.

Global Instance Path_countable : Countable Path.
Proof.
  refine (inj_countable' (fun p => (anchored p, parts p))
                         (fun x => mkPath (fst x) (snd x)) _).
  intros []; reflexivity.
Defined.

Record mem_env := mkMem {
  nodes : gmap Path node;
  clock : list Q;
}.

Definition lookup_node (m : gmap Path node) (p : Path) : option node :=
  match parts p with
  | [] => Some Dir
  | _ => m !! p
  end.

Definition os_error {A} (msg : str) : result A := Raise (Exc OSError msg).

Definition mem_exists (p : Path) : M mem_env bool :=
  fun e =>
    (Ok (match lookup_node (nodes e) p with Some _ => true | None => false end),
     e).

Definition mem_stat_size (p : Path) : M mem_env Z :=
  fun e =>
    match lookup_node (nodes e) p with
    | Some (File d) => (Ok (Z.of_nat (length d)), e)
    | Some Dir => (Ok 4096%Z, e)
    | None => (os_error (lit "[Errno 2] No such file or directory"), e)
    end.

(** Creates the missing directories from the top down. *)
Fixpoint mkdir_walk (a : bool) (above todo : list str) (m : gmap Path node)
  : result unit * gmap Path node :=
  match todo with
  | [] => (Ok tt, m)
  | c :: r =>
    let q := mkPath a (above ++ [c]) in
    match m !! q with
    | Some (File _) =>
      (match r with
       | [] => os_error (lit "[Errno 17] File exists")
       | _ => os_error (lit "[Errno 20] Not a directory")
       end, m)
    | Some Dir => mkdir_walk a (above ++ [c]) r m
    | None => mkdir_walk a (above ++ [c]) r (<[q := Dir]> m)
    end
  end.

Definition mem_mkdir_parents (p : Path) : M mem_env unit :=
  fun e =>
    match mkdir_walk (anchored p) [] (parts p) (nodes e) with
    | (r, m') => (r, mkMem m' (clock e))
    end.

Definition ends_with_slash (s : str) : bool :=
  match rev s with
  | 47 :: _ => true
  | _ => false
  end.

Definition mem_copy2 (src : str) (dst : Path) : M mem_env unit :=
  fun e =>
    let m := nodes e in
    let sp := Path_of src in
    match lookup_node m sp with
    | None => (os_error (lit "[Errno 2] No such file or directory"), e)
    | Some Dir => (os_error (lit "[Errno 21] Is a directory"), e)
    | Some (File d) =>
      if ends_with_slash src then (os_error (lit "[Errno 20] Not a directory"), e)
      else
        let target :=
            match lookup_node m dst with
            | Some Dir => joinpath dst (name sp)
            | _ => dst
            end in
        if bool_decide (target = sp)
        then (os_error (lit "source and destination are the same file"), e)
        else
          match lookup_node m target with
          | Some Dir => (os_error (lit "[Errno 21] Is a directory"), e)
          | _ =>
            match lookup_node m (parent target) with
            | Some Dir => (Ok tt, mkMem (<[target := File d]> m) (clock e))
            | _ => (os_error (lit "[Errno 2] No such file or directory"), e)
            end
          end
    end.

Definition mem_time_time : M mem_env Q :=
  fun e =>
    match clock e with
    | t :: r => (Ok t, mkMem (nodes e) r)
    | [] => (Ok 0%Q, e)
    end.

Definition mem_observer_start (dirs : list str) : M mem_env unit :=
  fun e =>
    if forallb (fun d => match lookup_node (nodes e) (Path_of d) with
                         | Some Dir => true
                         | _ => false
                         end) dirs
    then (Ok tt, e)
    else (os_error (lit "[Errno 2] No such file or directory"), e).

Global Instance mem_environment : Environment mem_env := {
  path_exists := mem_exists;
  stat_size := mem_stat_size;
  mkdir_parents := mem_mkdir_parents;
  copy2 := mem_copy2;
  time_time := mem_time_time;
  observer_start := mem_observer_start;
}.

(** A process on the in-memory environment with nothing printed yet. *)
Definition boot (m : gmap Path node) (clock : list Q) (stdin : list str)
  : world mem_env :=
  mkWorld (mkMem m clock) [] None stdin.

Definition file_at (w : world mem_env) (p : str) : option node :=
  lookup_node (nodes (env w)) (Path_of p).

(* ===================================================================== *)
(** * Part VII. Notions used to state the properties                     *)
(* ===================================================================== *)

(** What the specification calls "rendered with exactly two decimals":
    [s] is an integer part, a point and two digits, and the number it
    denotes, h/100, is a multiple of 0.01 nearest to num/den. *)
Definition renders_two_decimals (num den : N) (s : str) : Prop :=
  ∃ h : N,
    s = str_of_N (h / 100) ++ [46; digit_char (h / 10 mod 10); digit_char (h mod 10)]
    ∧ (2 * Z.abs (100 * Z.of_N num - Z.of_N den * Z.of_N h) ≤ Z.of_N den)%Z.

(** The text printed so far on what [sys.stdout] currently is. *)
Definition output {E} (w : world E) : str :=
  match capture w with
  | Some buf => buf
  | None => terminal w
  end.

(** Exceptions that [except Exception] does not catch. *)
Definition is_base_exception (e : exn) : Prop :=
  match e with
  | Exc _ _ => False
  | _ => True
  end.

(** ** Concrete runs

    Worlds on the in-memory environment at which the theorems are
    instantiated. *)

(** One source file of three bytes; no destination yet. *)
Definition one_file_world : world mem_env :=
  boot {[ Path_of (lit "/src/a.txt") := File [1; 2; 3] ]} [] [].

(** Manual mode, no [--pairs]. *)
Definition manual_args : args := mkArgs false None.

(** The target folder of pair1 is taken by a regular file; the operator
    types 1 (one pair) and 1 (the first pair). *)
Definition blocked_target_world : world mem_env :=
  boot {[ Path_of (lit "C:\Code\Obsidian沙箱仓库\.obsidian\plugins\form-flow")
          := File [] ]}
       [] [lit "1"; lit "1"].

(** Five bytes to copy over a destination file that exists and is
    empty. *)
Definition empty_destination_world : world mem_env :=
  boot (<[ Path_of (lit "/src/a.txt") := File [1; 2; 3; 4; 5] ]>
        (<[ Path_of (lit "/dst/a.txt") := File [] ]>
         {[ Path_of (lit "/dst") := Dir ]}))
       [] [].

Definition after_empty_destination : counters * world mem_env :=
  snd (copy_one (Path_of (lit "/dst")) (lit "/dst") (lit "/src/a.txt")
                (counters0, empty_destination_world)).

(** ** Sources of a batch on the in-memory file system *)

(** Where the routine copies a source to (line 50). *)
Definition destination_of (destination_path : Path) (source_file : str) : Path :=
  joinpath destination_path (name (Path_of source_file)).

(** A source the in-memory file system can copy: a regular file, named
    without a trailing slash, that is not its own destination, and
    whose destination is not a directory. *)
Definition copyable (m : gmap Path node) (dest : Path) (s : str) : Prop :=
  ends_with_slash s = false
  ∧ (∃ d, lookup_node m (Path_of s) = Some (File d))
  ∧ lookup_node m (destination_of dest s) ≠ Some Dir
  ∧ destination_of dest s ≠ Path_of s.

(** The last source of [l] that is copied to [t]. *)
Fixpoint last_copied_to (dest t : Path) (l : list str) : option str :=
  match l with
  | [] => None
  | s :: r =>
    match last_copied_to dest t r with
    | Some x => Some x
    | None => if bool_decide (destination_of dest s = t) then Some s else None
    end
  end.

(** The world with its environment replaced. *)
Definition set_env {E} (e : E) (w : world E) : world E :=
  mkWorld e (terminal w) (capture w) (stdin w).


Global Instance node_eq_dec : EqDecision node.
Proof. solve_decision. Defined.

Global Instance copyable_dec m dest s : Decision (copyable m dest s).
Proof.
  unfold copyable.
  destruct (lookup_node m (Path_of s)) as [[d|]|];
    [|right; intros (_ & [d [=]] & _)..].
  destruct (decide (ends_with_slash s = false)); [|right; tauto].
  destruct (decide (lookup_node m (destination_of dest s) = Some Dir));
    [right; tauto|].
  destruct (decide (destination_of dest s = Path_of s)); [right; tauto|].
  left. eauto.
Defined.

(** Two regular files under /src; /src/nope does not exist. *)
Definition two_files_world : world mem_env :=
  boot (<[ Path_of (lit "/src/a.txt") := File [1; 2; 3; 4; 5] ]>
        (<[ Path_of (lit "/src/b.txt") := File [6; 7; 8] ]>
         {[ Path_of (lit "/src") := Dir ]}))
       [] [].

(** Two files of the same name in two directories. *)
Definition same_name_world : world mem_env :=
  boot (<[ Path_of (lit "/one/main.js") := File [1; 1] ]>
        (<[ Path_of (lit "/two/main.js") := File [2; 2; 2] ]>
         (<[ Path_of (lit "/one") := Dir ]>
          {[ Path_of (lit "/two") := Dir ]})))
       [] [].


(** ** The report lines of a batch *)

(** Either kind of line the routine prints for a source it does not
    copy (lines 41 and 73). *)
Definition failure_report (source_file line : str) : Prop :=
  line = missing_line source_file ∨ ∃ msg, line = failure_line source_file msg.


(** A report line that starts with the mark of a copy, ✅. *)
Definition copied_line (line : str) : bool :=
  match line with
  | 9989 :: _ => true
  | _ => false
  end.

(** How many of the lines report a copy. *)
Definition copies_reported (lines : list str) : nat :=
  length (filter (fun line => copied_line line = true) lines).



(** ** The change handler *)

(** The pair [pair_id] is registered and one of its source files is the
    path [file_path]. *)
Definition listed (file_pairs : registry) (file_path : Path) (pair_id : str)
  : bool :=
  match lookup_pair file_pairs pair_id with
  | Some p =>
    existsb (fun source_file => Path_eqb file_path (Path_of source_file))
            (source_files p)
  | None => false
  end.


(** The handler after the timestamp update and the record of the
    invocation (lines 204-206). *)
Definition fired (pair_id : str) (t : Q) (h : FileChangeHandler)
  : FileChangeHandler :=
  mkHandler (h_file_pairs h) (h_watch_pairs h)
            (<[pair_id := t]> (last_triggered h)) (invoked h ++ [pair_id]).

(** The text printed at line 205. *)
Definition change_notice (file_path : Path) : str :=
  (10 :: lit "🔄 检测到文件变动: " ++ name file_path
      ++ lit "，开始自动复制...") ++ [10].

(** The handling of an event during which no watched pair that lists
    the file is found inside its debounce window and nothing raises:
    the pairs of the watch list are gone through in order; for each
    registered pair listing the file the clock is read, two seconds or
    more have passed since the last trigger of the pair, the timestamp
    is updated, the notice is printed and the copy of the pair
    returns.  The relation gives the state reached at the end. *)
Inductive undisturbed {E : Type} `{Environment E}
          (file_pairs : registry) (file_path : Path)
  : list str → FileChangeHandler * world E → FileChangeHandler * world E
    → Prop :=
| undisturbed_end s :
    undisturbed file_pairs file_path [] s s
| undisturbed_skip pair_id rest s s' :
    listed file_pairs file_path pair_id = false →
    undisturbed file_pairs file_path rest s s' →
    undisturbed file_pairs file_path (pair_id :: rest) s s'
| undisturbed_copy pair_id p rest h w current_time e1 last w2 s' :
    lookup_pair file_pairs pair_id = Some p →
    listed file_pairs file_path pair_id = true →
    time_time (env w) = (Ok current_time, e1) →
    last_triggered h !! pair_id = Some last →
    (2 <= current_time - last)%Q →
    copy_files_with_replace (source_files p) (target_folder p)
                            (write (change_notice file_path) (set_env e1 w))
    = (Ok tt, w2) →
    undisturbed file_pairs file_path rest (fired pair_id current_time h, w2)
                s' →
    undisturbed file_pairs file_path (pair_id :: rest) (h, w) s'.

(** A modification of the manifest that pair4 and pair5 both list. *)
Definition shared_manifest_event : event :=
  mkEvent false
          (lit "C:\Desktop\code\obsidian-form-flow-master\plugin\manifest.json").

(** Two pairs sharing the file /w/f, the first one also listing /w/g. *)
Definition registry_AB : registry :=
  [ (lit "A", mkPair (lit "first") [lit "/w/f"; lit "/w/g"] (lit "/out/a"));
    (lit "B", mkPair (lit "second") [lit "/w/f"] (lit "/out/b")) ].

Definition event_f : event := mkEvent false (lit "/w/f").
Definition event_g : event := mkEvent false (lit "/w/g").

(** The handler of [registry_AB] after pair A was triggered at time 10
    (by a modification of /w/g) and pair B never. *)
Definition handler_A_at_10 : FileChangeHandler :=
  mkHandler registry_AB [lit "A"; lit "B"]
            (<[lit "A" := 10%Q]> (<[lit "B" := 0%Q]> ∅))
            [lit "A"].

(** A process whose clock will read the given times. *)
Definition clock_world (times : list Q) : world mem_env := boot ∅ times [].

(** Only pair B watched; the clock reads 100, then 103. *)
Definition handler_B_only : FileChangeHandler :=
  new_handler registry_AB (Some [lit "B"]).



(** ** The entry point *)

(** The ids of [--pairs] that are not in the registry (line 300). *)
Definition invalid_pairs (s : str) : list str :=
  filter (fun p => has_key file_pairs p = false) (split_on 44 s).

(** Manual mode with a [--pairs] list naming an unknown pair. *)
Definition manual_args_with_pairs : args := mkArgs false (Some (lit "nope")).

(** The manifest of pair1 exists; the operator types 1 (one pair) and 1
    (the first pair). *)
Definition pair1_world : world mem_env :=
  boot {[ Path_of (lit "C:\Desktop\code\form-flow\plugin\manifest.json")
          := File [1; 2] ]}
       [] [lit "1"; lit "1"].

(** Where the manifest of pair1 is copied to. *)
Definition pair1_manifest_copy : Path :=
  destination_of
    (Path_of (lit "C:\Code\Obsidian沙箱仓库\.obsidian\plugins\form-flow"))
    (lit "C:\Desktop\code\form-flow\plugin\manifest.json").

(** Watch mode with one unknown id among the listed ones. *)
Definition auto_args_bad : args := mkArgs true (Some (lit "pair1,nope")).

(** ** Texts

    Classes of characters and of texts used to follow the re-parsing of
    the captured summary. *)

Definition is_digit (c : char) : bool := (48 <=? c) && (c <=? 57).

(** The number written by a string of digits, continuing from [a]. *)
Definition digits_value (ds : str) (a : N) : N :=
  fold_left (fun acc c => 10 * acc + (c - 48)) ds a.

(** The characters [format_size] and [str] of an integer produce:
    digits, [-], [.], [B], [K], [M]. *)
Definition size_char (c : char) : bool :=
  is_digit c || (c =? 45) || (c =? 46) || (c =? 66) || (c =? 75) || (c =? 77).

(** The first marker looked for in a captured line (line 340). *)
Definition success_marker : str := lit "成功: ".

(** A text without the character 成 (the first of [success_marker]). *)
Definition plain (s : str) : Prop := Forall (fun c => c ≠ 25104) s.

(** In a quiet text every 成 is followed by 功复, as in "成功复制":
    [success_marker] cannot start there. *)
Fixpoint quietb (s : str) : bool :=
  match s with
  | [] => true
  | c :: r =>
    (if c =? 25104
     then match r with
          | a :: b :: _ => (a =? 21151) && (b =? 22797)
          | _ => false
          end
     else true)
    && quietb r
  end.

(** The messages of the exceptions raised by the file-system calls of
    the copy loop are plain. *)
Definition plain_errors (E : Type) `{Environment E} : Prop :=
  ∀ (e e' : E) cl msg,
    (∀ p, path_exists p e = (Raise (Exc cl msg), e') → plain msg)
    ∧ (∀ p, stat_size p e = (Raise (Exc cl msg), e') → plain msg)
    ∧ (∀ s p, copy2 s p e = (Raise (Exc cl msg), e') → plain msg).

(** The source paths and the target folder of a pair are plain. *)
Definition plain_pair (p : pair) : Prop :=
  Forall plain (source_files p) ∧ plain (target_folder p).


(** [sys.stdout] is redirected. *)
Definition capturing {E} (w : world E) : Prop := is_Some (capture w).

Section Reference.
Context {E : Type} `{Environment E}.




End Reference.

(** The operator chooses "copy all pairs"; two files of pair2 exist. *)
Definition copy_all_world : world mem_env :=
  boot (<[ Path_of (lit "C:\Desktop\code\Lmmersive\manifest.json") := File [1; 2; 3] ]>
        {[ Path_of (lit "C:\Desktop\code\Lmmersive\theme.css") := File [4; 5] ]})
       [] [lit "2"].

(** ** A file system that refuses every copy

    Every path exists, and every copy is refused with a message worded
    like the summary of the routine. *)
Inductive refusing_fs := Refusing.

Definition refusal : str := lit "成功: 7, 失败: 9".

Global Instance refusing_environment : Environment refusing_fs := {
  path_exists _ := ret true;
  stat_size _ := ret 0%Z;
  mkdir_parents _ := ret tt;
  copy2 _ _ := raise (Exc OSError refusal);
  time_time := ret 0%Q;
  observer_start _ := ret tt;
}.



(* ===================================================================== *)
(** * Part VII (continued). Notions for the further properties            *)
(* ===================================================================== *)

(** [p] is the directory [d] or lies below it. *)
Definition inside (d p : Path) : Prop :=
  anchored p = anchored d ∧ parts d `prefix_of` parts p.

(** The texts of [select_copy_mode] (lines 139-148). *)
Definition copy_mode_menu : str :=
  (10 :: lit "📋 请选择复制模式:") ++ [10]
    ++ lit "1. 复制特定一对文件" ++ [10]
    ++ lit "2. 复制所有文件对" ++ [10].

Definition copy_mode_prompt : str := lit "请输入选项 (1/2): ".

Definition copy_mode_error : str := lit "❌ 无效选项，请输入1或2。" ++ [10].

(** The exception of [input()] at the end of standard input. *)
Definition end_of_input : exn := Exc EOFError (lit "EOF when reading a line").

(** The pair id is a key of the registry. *)
Definition registered (d : registry) (pair_id : str) : Prop :=
  has_key d pair_id = true.

(** The lines printed by [print_menu]. *)
Fixpoint menu_text (i : nat) (d : registry) : str :=
  match d with
  | [] => []
  | (pair_id, pair_info) :: r =>
    menu_line i pair_id pair_info ++ [10] ++ menu_text (S i) r
  end.

(** [pair_ids[k - 1]] for the registry of the script. *)
Definition pair_at (k : Z) : str :=
  nth (Z.to_nat (k - 1)) (keys file_pairs) [].

(** What [select_file_pair] prints before it reads (lines 155-157). *)
Definition file_pair_menu : str :=
  (10 :: lit "📋 可用文件对:") ++ [10] ++ menu_text 1 file_pairs.

(** What [select_watch_pairs] prints before it reads (lines 259-263),
    its prompt, and its answer to a number out of range. *)
Definition watch_pairs_menu : str :=
  (10 :: lit "📋 可用文件对:") ++ [10] ++ menu_text 1 file_pairs
    ++ (10 :: lit "请输入要监控的文件对编号（多个用逗号分隔，或输入'all'监控所有）:")
    ++ [10].

Definition watch_pairs_prompt : str := lit "选项: ".

Definition out_of_range_notice (idx : Z) : str :=
  lit "❌ 无效编号: " ++ str_of_Z idx ++ lit "，请重新输入" ++ [10].

(** The exceptions of the file-system calls are [OSError]s, and reading
    the clock does not fail. *)
Definition is_OSError (x : exn) : Prop := ∃ msg, x = Exc OSError msg.

Definition os_errors_only (E : Type) `{Environment E} : Prop :=
  ∀ (e e' : E) (x : exn),
    (∀ p, path_exists p e = (Raise x, e') → is_OSError x)
    ∧ (∀ p, stat_size p e = (Raise x, e') → is_OSError x)
    ∧ (∀ p, mkdir_parents p e = (Raise x, e') → is_OSError x)
    ∧ (∀ s p, copy2 s p e = (Raise x, e') → is_OSError x)
    ∧ time_time e ≠ (Raise x, e').

(** Every watched pair has an entry in [last_triggered]. *)
Definition timestamped (h : FileChangeHandler) : Prop :=
  ∀ pair_id, pair_id ∈ h_watch_pairs h → is_Some (last_triggered h !! pair_id).

(** The directory of a source file, as handed to [observer.schedule]
    (line 239). *)
Definition source_dir (source_file : str) : str :=
  str_of_Path (parent (Path_of source_file)).

(** The lines that reach the terminal in the "copy all pairs" branch
    (lines 320 and 325). *)
Definition all_pairs_heading : str := (10 :: lit "🚀 开始复制所有文件对") ++ [10].

Definition pair_heading (p : pair) : str :=
  (10 :: lit "🔄 处理文件对: " ++ pair_name p) ++ [10].

(** The line printed before the copy of the chosen pair (line 316). *)
Definition single_pair_heading (p : pair) : str :=
  (10 :: lit "🚀 开始复制: " ++ pair_name p) ++ [10].

(** ** Further concrete runs *)

(** The operator types the given lines; the file system is empty. *)
Definition typing (lines : list str) : world mem_env := boot ∅ [] lines.

(** A pair whose target folder is taken by a regular file. *)
Definition blocked_pair : pair :=
  mkPair (lit "blocked") [lit "/src/a.txt"] (lit "/dst").

Definition blocked_pair_world : world mem_env :=
  boot (<[ Path_of (lit "/src/a.txt") := File [1; 2; 3] ]>
        {[ Path_of (lit "/dst") := File [] ]})
       [] [].

(** A batch on [two_files_world]: two files and a missing one. *)
Definition mixed_batch : list str :=
  [lit "/src/a.txt"; lit "/src/nope"; lit "/src/b.txt"].

(** Watch mode without [--pairs]. *)
Definition auto_args : args := mkArgs true None.

(** The three kinds of line the copy routine prints for a source file
    (lines 41, 69 and 73). *)
Definition report_of (destination_folder source_file line : str) : Prop :=
  (∃ orig_dest_size dest_size,
      line = success_line (name (Path_of source_file)) orig_dest_size dest_size
                          destination_folder)
  ∨ line = missing_line source_file
  ∨ (∃ msg, line = failure_line source_file msg).


(** The two files of [two_files_world]. *)
Definition clean_batch : list str := [lit "/src/a.txt"; lit "/src/b.txt"].

(* ===================================================================== *)
(** * Part VIII. Properties                                              *)
(* ===================================================================== *)

(** ** The size formatter *)

Lemma div_rne_nearest (a d : N) :
  0 < d →
  (2 * Z.abs (Z.of_N a - Z.of_N d * Z.of_N (div_rne a d)) ≤ Z.of_N d)%Z.
Proof.
  intros Hd. unfold div_rne.
  pose proof (N.div_mod a d ltac:(lia)) as Hdm.
  pose proof (N.mod_lt a d ltac:(lia)) as Hlt.
  set (q := a / d) in *. set (r := a mod d) in *.
  destruct (N.ltb_spec (2 * r) d); [lia|].
  destruct (N.ltb_spec d (2 * r)); [lia|].
  destruct (N.even q); lia.
Qed.

Lemma fmt_2f_renders (num den : N) :
  0 < den → renders_two_decimals num den (fmt_2f num den).
Proof.
  intros Hd. exists (div_rne (100 * num) den). split; [reflexivity|].
  pose proof (div_rne_nearest (100 * num) den Hd) as Hn.
  replace (Z.of_N (100 * num)) with (100 * Z.of_N num)%Z in Hn by lia.
  exact Hn.
Qed.

Lemma float_of_int_exact (n : N) : n < 2 ^ 53 → float_of_int n = n.
Proof.
  intros Hn. unfold float_of_int.
  destruct (N.ltb_spec (N.log2 n) 53) as [|Hge]; [reflexivity|].
  exfalso. destruct (N.eq_dec n 0) as [->|Hz]; [cbn in Hge; lia|].
  apply N.log2_lt_pow2 in Hn; lia.
Qed.

(** C2 (amended). For a non-negative byte count [b]: below 1024 the formatter
    gives the decimal digits of [b] followed by "B"; from 1024 up to
    1024*1024 (excluded) it gives b/1024 with two decimals followed by
    "KB"; from 1024*1024 on (and below 2^1024, where the division
    cannot overflow) it gives b/(1024*1024) with two decimals followed
    by "MB" (of the binary64 value of [b], which is [b] itself below
    2^53). *)
Theorem format_size_cases (b : Z) :
  (0 ≤ b)%Z →
  ((b < 1024)%Z → format_size b = str_of_Z b ++ lit "B")
  ∧ ((1024 ≤ b < 1024 * 1024)%Z →
     ∃ s, format_size b = s ++ lit "KB"
          ∧ renders_two_decimals (Z.to_N b) 1024 s)
  ∧ ((1024 * 1024 ≤ b < 2 ^ 1024)%Z →
     ∃ s, format_size b = s ++ lit "MB"
          ∧ renders_two_decimals (float_of_int (Z.to_N b)) (1024 * 1024) s
          ∧ ((b < 2 ^ 53)%Z → float_of_int (Z.to_N b) = Z.to_N b)).
Proof.
  intros Hb. unfold format_size. repeat split.
  - intros Hlt. destruct (Z.ltb_spec b 1024); [reflexivity | lia].
  - intros [Hlo Hhi].
    destruct (Z.ltb_spec b 1024); [lia|].
    destruct (Z.ltb_spec b (1024 * 1024)); [|lia].
    eexists. split; [reflexivity|].
    rewrite float_of_int_exact.
    + apply fmt_2f_renders. lia.
    + change (2 ^ 53) with 9007199254740992. lia.
  - intros [Hlo _].
    destruct (Z.ltb_spec b 1024); [lia|].
    destruct (Z.ltb_spec b (1024 * 1024)); [lia|].
    eexists. split; [reflexivity|]. split.
    + apply fmt_2f_renders. lia.
    + intros Hhi. apply float_of_int_exact.
      change (2 ^ 53) with 9007199254740992.
      change (2 ^ 53)%Z with 9007199254740992%Z in Hhi. lia.
Qed.

Lemma format_size_cases_witness :
  (0 ≤ 1536)%Z
  ∧ ((1024 ≤ 1536 < 1024 * 1024)%Z →
     ∃ s, format_size 1536 = s ++ lit "KB"
          ∧ renders_two_decimals (Z.to_N 1536) 1024 s).
Proof.
  split; [lia|]. apply (format_size_cases 1536). lia.
Defined.

(** C2, refuted as stated: 2^67 + 16385 bytes are printed as
    140737488355328.03MB.  The quotient by 1024² is
    140737488355328.0156..., whose rendering with two decimals ends in
    .02; what is rendered is the binary64 number nearest to that
    quotient, 140737488355328.03125. *)
Lemma format_size_rounds_the_float :
  format_size (2 ^ 67 + 16385) = lit "140737488355328.03MB"
  ∧ ¬ renders_two_decimals (Z.to_N (2 ^ 67 + 16385)) (1024 * 1024)
                           (lit "140737488355328.03")
  ∧ renders_two_decimals (Z.to_N (2 ^ 67 + 16385)) (1024 * 1024)
                         (lit "140737488355328.02").
Proof.
  assert (Hb : Z.of_N (Z.to_N (2 ^ 67 + 16385)) = 147573952589676429313%Z)
    by (vm_compute; reflexivity).
  assert (Hd : Z.of_N (1024 * 1024) = 1048576%Z) by reflexivity.
  split; [vm_compute; reflexivity|]. split.
  - intros (h & Hs & Hnear). rewrite Hb, Hd in Hnear.
    assert (Hh : h = 14073748835532802%N) by lia.
    subst h. vm_compute in Hs. discriminate.
  - exists 14073748835532802%N. split; [vm_compute; reflexivity|].
    rewrite Hb, Hd. lia.
Qed.

(** ** Plumbing of the effects *)

(** Literals and printed lines stay folded under [simpl]. *)
Global Arguments format_size : simpl never.
Global Arguments success_line : simpl never.
Global Arguments missing_line : simpl never.
Global Arguments failure_line : simpl never.
Global Arguments summary_line : simpl never.
Global Arguments str_of_Z : simpl never.
Global Arguments str_of_N : simpl never.
Global Arguments Path_of : simpl never.
Global Arguments joinpath : simpl never.
Global Arguments name : simpl never.

Section EffectLemmas.
Context {E : Type} `{Environment E}.

Lemma output_write (s : str) (w : world E) :
  output (write s w) = output w ++ s.
Proof. unfold output, write. destruct (capture w); reflexivity. Qed.

Lemma env_write (s : str) (w : world E) : env (write s w) = env w.
Proof. unfold write. destruct (capture w); reflexivity. Qed.

Lemma capture_write_is_Some (s : str) (w : world E) :
  is_Some (capture (write s w)) ↔ is_Some (capture w).
Proof. unfold write. destruct (capture w); simpl; split; eauto; intros [? [=]]. Qed.

End EffectLemmas.

(** Destructs the next environment call of the goal. *)
Ltac env_step :=
  match goal with
  | |- context [path_exists ?p ?e] =>
    let r := fresh "r" in let e' := fresh "e" in let Hop := fresh "Hop" in
    let a := fresh "a" in let x := fresh "x" in
    destruct (path_exists p e) as [r e'] eqn:Hop; destruct r as [a|x];
    cbn [fst snd env terminal capture stdin]
  | |- context [stat_size ?p ?e] =>
    let r := fresh "r" in let e' := fresh "e" in let Hop := fresh "Hop" in
    let a := fresh "a" in let x := fresh "x" in
    destruct (stat_size p e) as [r e'] eqn:Hop; destruct r as [a|x];
    cbn [fst snd env terminal capture stdin]
  | |- context [copy2 ?s ?p ?e] =>
    let r := fresh "r" in let e' := fresh "e" in let Hop := fresh "Hop" in
    let a := fresh "a" in let x := fresh "x" in
    destruct (copy2 s p e) as [r e'] eqn:Hop; destruct r as [a|x];
    cbn [fst snd env terminal capture stdin]
  | |- context [mkdir_parents ?p ?e] =>
    let r := fresh "r" in let e' := fresh "e" in let Hop := fresh "Hop" in
    let a := fresh "a" in let x := fresh "x" in
    destruct (mkdir_parents p e) as [r e'] eqn:Hop; destruct r as [a|x];
    cbn [fst snd env terminal capture stdin]
  end.

Ltac unfold_effects :=
  unfold update_locals, print;
  unfold bind, ret, raise, get, modify, in_world, in_env, try_except;
  cbn [fst snd env terminal capture stdin].

(** ** The copy routine on any environment *)

Section CopyEngineLemmas.
Context {E : Type} `{Environment E}.

(** What one run of the [try] block does to the counters and to the
    printed text. *)
Lemma copy_attempt_effect dp folder s (c : counters) (w : world E) :
  match copy_attempt dp folder s (c, w) with
  | (Ok _, (c', w')) =>
    (success_count c' + error_count c' = success_count c + error_count c + 1)%Z
    ∧ (∃ line, output w' = output w ++ line ++ [10])
  | (Raise _, (c', w')) =>
    success_count c' = success_count c ∧ error_count c' = error_count c
    ∧ output w' = output w
  end.
Proof.
  unfold copy_attempt. unfold_effects.
  env_step; [|auto].
  destruct a; cbn [negb].
  - env_step; [|auto].
    env_step; [|auto].
    destruct a0.
    + env_step; [|auto].
      env_step; [|auto].
      env_step; [|auto].
      split; [cbn; lia|]. rewrite output_write. eauto.
    + env_step; [|auto].
      env_step; [|auto].
      split; [cbn; lia|]. rewrite output_write. eauto.
  - split; [cbn; lia|]. rewrite output_write. eauto.
Qed.

(** The handler of the [try] block: an [Exception] raised by the
    block is turned into a failure line and a counted failure. *)
Lemma copy_one_handles dp folder s (c c1 : counters) (w w1 : world E) cl msg :
  copy_attempt dp folder s (c, w) = (Raise (Exc cl msg), (c1, w1)) →
  copy_one dp folder s (c, w)
  = (Ok tt, (incr_error c1, write (failure_line s msg ++ [10]) w1)).
Proof.
  intros Hatt. unfold copy_one, try_except. rewrite Hatt.
  reflexivity.
Qed.

Lemma copy_one_effect dp folder s (c : counters) (w : world E) :
  match copy_one dp folder s (c, w) with
  | (Ok _, (c', w')) =>
    (success_count c' + error_count c' = success_count c + error_count c + 1)%Z
    ∧ (∃ line, output w' = output w ++ line ++ [10])
  | (Raise e, _) => is_base_exception e
  end.
Proof.
  pose proof (copy_attempt_effect dp folder s c w) as Hatt.
  destruct (copy_attempt dp folder s (c, w)) as [[[]|e] [c1 w1]] eqn:Heq.
  - unfold copy_one, try_except. rewrite Heq. exact Hatt.
  - destruct e as [cl msg| |code].
    + rewrite (copy_one_handles _ _ _ _ _ _ _ _ _ Heq).
      destruct Hatt as (Hs & He & Ho). cbn. split; [lia|].
      rewrite output_write, Ho. eauto.
    + unfold copy_one, try_except. rewrite Heq. exact I.
    + unfold copy_one, try_except. rewrite Heq. exact I.
Qed.

Lemma copy_loop_effect dp folder l (c : counters) (w : world E) :
  match copy_loop dp folder l (c, w) with
  | (Ok _, (c', w')) =>
    (success_count c' + error_count c'
     = success_count c + error_count c + Z.of_nat (length l))%Z
    ∧ (∃ lines, output w' = output w ++ lines)
  | (Raise e, _) => is_base_exception e
  end.
Proof.
  revert c w. induction l as [|s l IH]; intros c w.
  - cbn. split; [lia|]. exists []. by rewrite app_nil_r.
  - cbn [copy_loop]. unfold bind at 1.
    pose proof (copy_one_effect dp folder s c w) as Hone.
    destruct (copy_one dp folder s (c, w)) as [[[]|e] [c1 w1]]; [|exact Hone].
    specialize (IH c1 w1).
    destruct (copy_loop dp folder l (c1, w1)) as [[[]|e] [c2 w2]]; [|exact IH].
    destruct Hone as [Hc [line Hl]], IH as [Hc' [lines Hls]].
    split; [rewrite Hc', Hc; cbn [length]; lia|].
    exists (line ++ [10] ++ lines). rewrite Hls, Hl.
    by rewrite <- !app_assoc.
Qed.

Lemma copy_files_counted_unfold sources folder (w : world E) :
  copy_files_counted sources folder w
  = match mkdir_parents (Path_of folder) (env w) with
    | (Ok _, e1) =>
      match copy_loop (Path_of folder) folder sources
                      (counters0, set_env e1 w) with
      | (Ok _, (c, w2)) => (Ok c, write ((10 :: summary_line c) ++ [10]) w2)
      | (Raise e, (_, w2)) => (Raise e, w2)
      end
    | (Raise e, e1) => (Raise e, set_env e1 w)
    end.
Proof.
  unfold copy_files_counted, bind, in_env, with_locals, print, modify, ret,
         set_env.
  destruct (mkdir_parents (Path_of folder) (env w)) as [[[]|e] e1];
    [|reflexivity].
  destruct (copy_loop _ _ _ _) as [[[]|e] [c w2]]; reflexivity.
Qed.
End CopyEngineLemmas.

Section CopyEngineTheorems.
Context {E : Type} `{Environment E}.

(** C6 (amended). Inside the loop every [Exception] of a single file
    is caught by the handler, printed and counted as a failure; once
    the destination directory has been created, the routine either
    reaches its summary line, with every source counted as a success
    or as a failure, or is left by an exception that is not an
    [Exception] (an interrupt).  Creating the destination directory
    is outside the handler and is not covered. *)
Theorem copy_failures_are_caught :
  (∀ dp folder s (c c1 : counters) (w w1 : world E) cl msg,
      copy_attempt dp folder s (c, w) = (Raise (Exc cl msg), (c1, w1)) →
      copy_one dp folder s (c, w)
      = (Ok tt, (incr_error c1, write (failure_line s msg ++ [10]) w1)))
  ∧ (∀ sources folder (w : world E),
        fst (mkdir_parents (Path_of folder) (env w)) = Ok tt →
        match copy_files_counted sources folder w with
        | (Ok c, w') =>
          (success_count c + error_count c = Z.of_nat (length sources))%Z
          ∧ (∃ lines,
                output w' = output w ++ lines ++ [10] ++ summary_line c ++ [10])
        | (Raise e, _) => is_base_exception e
        end).
Proof.
  split; [intros; by eapply copy_one_handles|].
  intros sources folder w Hmk.
  rewrite copy_files_counted_unfold.
  destruct (mkdir_parents (Path_of folder) (env w)) as [r e1].
  unfold fst in Hmk. subst r.
  pose proof (copy_loop_effect (Path_of folder) folder sources counters0
                               (set_env e1 w)) as Hloop.
  destruct (copy_loop (Path_of folder) folder sources
                      (counters0, set_env e1 w))
    as [[[]|e] [c2 w2]]; [|exact Hloop].
  destruct Hloop as [Hc [lines Hl]].
  split; [exact Hc|].
  exists lines. rewrite output_write, Hl.
  change (output (set_env e1 w)) with (output w).
  rewrite <- !app_assoc. reflexivity.
Qed.
End CopyEngineTheorems.

Lemma copy_failures_are_caught_witness :
  fst (mkdir_parents (Path_of (lit "/dst")) (env one_file_world)) = Ok tt
  ∧ match copy_files_counted [lit "/src/a.txt"; lit "/nope"] (lit "/dst")
                             one_file_world with
    | (Ok c, w') =>
      (success_count c + error_count c = 2)%Z
      ∧ (∃ lines,
            output w' = output one_file_world ++ lines ++ [10]
                        ++ summary_line c ++ [10])
    | (Raise e, _) => is_base_exception e
    end.
Proof.
  assert (Hmk : fst (mkdir_parents (Path_of (lit "/dst")) (env one_file_world))
                = Ok tt)
    by (vm_compute; reflexivity).
  split; [exact Hmk|].
  exact (proj2 copy_failures_are_caught
               [lit "/src/a.txt"; lit "/nope"] (lit "/dst") one_file_world Hmk).
Defined.

(** C6, refuted as stated: in manual mode, without any [--pairs] and
    without any interrupt, the process is ended by the [OSError] of
    creating the destination directory (here a regular file is in the
    way); no summary line is printed. *)
Lemma early_termination_by_mkdir :
  pairs manual_args = None
  ∧ fst (main manual_args blocked_target_world)
    = Raise (Exc OSError (lit "[Errno 17] File exists"))
  ∧ contains (lit "复制完成")
             (terminal (snd (main manual_args blocked_target_world))) = false.
Proof. repeat split; vm_compute; reflexivity. Qed.


(** ** One iteration of the copy loop, from the results of its calls *)

Ltac eff := cbn [negb fst snd env terminal capture stdin].

Section CopySteps.
Context {E : Type} `{Environment E}.

Lemma copy_one_missing dp folder s (c : counters) (w : world E) e1 :
  path_exists (Path_of s) (env w) = (Ok false, e1) →
  copy_one dp folder s (c, w)
  = (Ok tt, (incr_error c, write (missing_line s ++ [10]) (set_env e1 w))).
Proof.
  intros H1. unfold copy_one, try_except, copy_attempt. unfold_effects.
  rewrite H1. reflexivity.
Qed.

Lemma copy_one_success dp folder s (c : counters) (w : world E)
      e1 e2 e3 e4 e5 e6 sz (found : bool) orig dsz :
  path_exists (Path_of s) (env w) = (Ok true, e1) →
  stat_size (Path_of s) e1 = (Ok sz, e2) →
  path_exists (destination_of dp s) e2 = (Ok found, e3) →
  (if found then stat_size (destination_of dp s) e3 = (Ok orig, e4)
   else orig = 0%Z ∧ e4 = e3) →
  copy2 s (destination_of dp s) e4 = (Ok tt, e5) →
  stat_size (destination_of dp s) e5 = (Ok dsz, e6) →
  copy_one dp folder s (c, w)
  = (Ok tt,
     (incr_success (add_dest_size dsz (add_source_size sz c)),
      write (success_line (name (Path_of s)) orig dsz folder ++ [10])
            (set_env e6 w))).
Proof.
  intros H1 H2 H3 H4 H5 H6.
  unfold copy_one, try_except, copy_attempt. unfold_effects.
  fold (destination_of dp s).
  rewrite H1; eff. rewrite H2; eff. rewrite H3; eff.
  destruct found; eff.
  - rewrite H4; eff. rewrite H5; eff. rewrite H6; eff. reflexivity.
  - destruct H4 as [-> ->]. eff. rewrite H5; eff. rewrite H6; eff. reflexivity.
Qed.

(** The source is there but [copy2] raises an [Exception]. *)
Lemma copy_one_copy2_raises dp folder s (c : counters) (w : world E)
      e1 e2 e3 e4 e5 sz (found : bool) orig cl msg :
  path_exists (Path_of s) (env w) = (Ok true, e1) →
  stat_size (Path_of s) e1 = (Ok sz, e2) →
  path_exists (destination_of dp s) e2 = (Ok found, e3) →
  (if found then stat_size (destination_of dp s) e3 = (Ok orig, e4)
   else orig = 0%Z ∧ e4 = e3) →
  copy2 s (destination_of dp s) e4 = (Raise (Exc cl msg), e5) →
  copy_one dp folder s (c, w)
  = (Ok tt,
     (incr_error (add_source_size sz c),
      write (failure_line s msg ++ [10]) (set_env e5 w))).
Proof.
  intros H1 H2 H3 H4 H5.
  unfold copy_one, try_except, copy_attempt. unfold_effects.
  fold (destination_of dp s).
  rewrite H1; eff. rewrite H2; eff. rewrite H3; eff.
  destruct found; eff.
  - rewrite H4; eff. rewrite H5; eff. reflexivity.
  - destruct H4 as [-> ->]. eff. rewrite H5; eff. reflexivity.
Qed.

(** Either every call of the block succeeded, or no success was
    counted. *)
Lemma copy_one_cases dp folder s (c : counters) (w : world E) :
  (∃ e1 e2 e3 e4 e5 e6 sz (found : bool) orig dsz,
      path_exists (Path_of s) (env w) = (Ok true, e1)
      ∧ stat_size (Path_of s) e1 = (Ok sz, e2)
      ∧ path_exists (destination_of dp s) e2 = (Ok found, e3)
      ∧ (if found then stat_size (destination_of dp s) e3 = (Ok orig, e4)
         else orig = 0%Z ∧ e4 = e3)
      ∧ copy2 s (destination_of dp s) e4 = (Ok tt, e5)
      ∧ stat_size (destination_of dp s) e5 = (Ok dsz, e6))
  ∨ success_count (fst (snd (copy_one dp folder s (c, w)))) = success_count c.
Proof.
  destruct (path_exists (Path_of s) (env w)) as [[[]|x] e1] eqn:H1.
  2: { right. by rewrite (copy_one_missing _ _ _ _ _ _ H1). }
  2: { right. unfold copy_one, try_except, copy_attempt. unfold_effects.
       rewrite H1. by destruct x. }
  destruct (stat_size (Path_of s) e1) as [[sz|x] e2] eqn:H2.
  2: { right. unfold copy_one, try_except, copy_attempt. unfold_effects.
       rewrite H1; eff. rewrite H2; eff. by destruct x. }
  destruct (path_exists (destination_of dp s) e2) as [[found|x] e3] eqn:H3.
  2: { right. unfold copy_one, try_except, copy_attempt. unfold_effects.
       fold (destination_of dp s).
       rewrite H1; eff. rewrite H2; eff. rewrite H3; eff. by destruct x. }
  assert (Horig : (∃ orig e4,
                      if found
                      then stat_size (destination_of dp s) e3 = (Ok orig, e4)
                      else orig = 0%Z ∧ e4 = e3)
                  ∨ (found = true
                     ∧ ∃ x e4, stat_size (destination_of dp s) e3
                               = (Raise x, e4))).
  { destruct found; [|left; by exists 0%Z, e3].
    destruct (stat_size (destination_of dp s) e3) as [[orig|x] e4];
      [left; by exists orig, e4 | right; eauto]. }
  destruct Horig as [(orig & e4 & H4)|(-> & x & e4 & H4)].
  2: { right. unfold copy_one, try_except, copy_attempt. unfold_effects.
       fold (destination_of dp s).
       rewrite H1; eff. rewrite H2; eff. rewrite H3; eff. rewrite H4; eff.
       by destruct x. }
  destruct (copy2 s (destination_of dp s) e4) as [[[]|x] e5] eqn:H5.
  2: { right. destruct x as [cl msg| |code].
       - by rewrite (copy_one_copy2_raises _ _ _ _ _ _ _ _ _ _ _ _ _ _ _
                                           H1 H2 H3 H4 H5).
       - unfold copy_one, try_except, copy_attempt. unfold_effects.
         fold (destination_of dp s).
         rewrite H1; eff. rewrite H2; eff. rewrite H3; eff.
         destruct found; eff; [rewrite H4 | destruct H4 as [-> ->]];
           eff; by rewrite H5.
       - unfold copy_one, try_except, copy_attempt. unfold_effects.
         fold (destination_of dp s).
         rewrite H1; eff. rewrite H2; eff. rewrite H3; eff.
         destruct found; eff; [rewrite H4 | destruct H4 as [-> ->]];
           eff; by rewrite H5. }
  destruct (stat_size (destination_of dp s) e5) as [[dsz|x] e6] eqn:H6.
  2: { right. unfold copy_one, try_except, copy_attempt. unfold_effects.
       fold (destination_of dp s).
       rewrite H1; eff. rewrite H2; eff. rewrite H3; eff.
       destruct found; eff; [rewrite H4 | destruct H4 as [-> ->]];
         eff; rewrite H5; eff; rewrite H6; by destruct x. }
  left. exists e1, e2, e3, e4, e5, e6, sz, found, orig, dsz. done.
Qed.
End CopySteps.
Section ReportLine.
Context {E : Type} `{Environment E}.

(** C7 (amended). When a file is counted as copied, the calls of the
    block all succeeded, in the order of the source, and the line
    printed is the file name, then the size the destination had before
    the copy (0 when it did not exist) and its size after it, then the
    bracketed signed difference exactly when the size before was
    greater than 0, then the destination folder. *)
Theorem success_line_reports_delta
        dp folder s (c c' : counters) (w w' : world E) :
  copy_one dp folder s (c, w) = (Ok tt, (c', w')) →
  success_count c' = (success_count c + 1)%Z →
  ∃ (source_size : Z) (found : bool) (orig_dest_size dest_size : Z)
    (e1 e2 e3 e4 e5 e6 : E),
    path_exists (Path_of s) (env w) = (Ok true, e1)
    ∧ stat_size (Path_of s) e1 = (Ok source_size, e2)
    ∧ path_exists (destination_of dp s) e2 = (Ok found, e3)
    ∧ (if found
       then stat_size (destination_of dp s) e3 = (Ok orig_dest_size, e4)
       else orig_dest_size = 0%Z ∧ e4 = e3)
    ∧ copy2 s (destination_of dp s) e4 = (Ok tt, e5)
    ∧ stat_size (destination_of dp s) e5 = (Ok dest_size, e6)
    ∧ output w'
      = output w
        ++ lit "✅ 成功复制: " ++ name (Path_of s) ++ lit " "
        ++ lit "(" ++ format_size orig_dest_size ++ lit " → "
        ++ format_size dest_size ++ lit ")"
        ++ (if (0 <? orig_dest_size)%Z
            then lit " [" ++ change_symbol (dest_size - orig_dest_size)
                   ++ format_size (Z.abs (dest_size - orig_dest_size))
                   ++ lit "]"
            else [])
        ++ lit " -> " ++ folder ++ [10].
Proof.
  intros Hone Hsucc.
  destruct (copy_one_cases dp folder s c w)
    as [(e1 & e2 & e3 & e4 & e5 & e6 & sz & found & orig & dsz
         & H1 & H2 & H3 & H4 & H5 & H6)|Hsame].
  2: { rewrite Hone in Hsame. cbn [fst snd] in Hsame. lia. }
  rewrite (copy_one_success _ folder _ c _ _ _ _ _ _ _ _ _ _ _
                            H1 H2 H3 H4 H5 H6) in Hone.
  apply (f_equal (fun x => output (snd (snd x)))) in Hone.
  cbn [fst snd] in Hone. rewrite output_write in Hone.
  change (output (set_env e6 w)) with (output w) in Hone.
  exists sz, found, orig, dsz, e1, e2, e3, e4, e5, e6.
  repeat split; try assumption.
  rewrite <- Hone. unfold success_line, size_change_str.
  destruct (0 <? orig)%Z; rewrite <- ?app_assoc; reflexivity.
Qed.
End ReportLine.

Lemma success_line_reports_delta_witness :
  copy_one (Path_of (lit "/dst")) (lit "/dst") (lit "/src/a.txt")
           (counters0, empty_destination_world)
  = (Ok tt, (fst after_empty_destination, snd after_empty_destination))
  ∧ success_count (fst after_empty_destination)
    = (success_count counters0 + 1)%Z
  ∧ ∃ (source_size : Z) (found : bool) (orig_dest_size dest_size : Z)
      (e1 e2 e3 e4 e5 e6 : mem_env),
      path_exists (Path_of (lit "/src/a.txt")) (env empty_destination_world)
      = (Ok true, e1)
      ∧ stat_size (Path_of (lit "/src/a.txt")) e1 = (Ok source_size, e2)
      ∧ path_exists (destination_of (Path_of (lit "/dst")) (lit "/src/a.txt")) e2
        = (Ok found, e3)
      ∧ (if found
         then stat_size (destination_of (Path_of (lit "/dst")) (lit "/src/a.txt")) e3
              = (Ok orig_dest_size, e4)
         else orig_dest_size = 0%Z ∧ e4 = e3)
      ∧ copy2 (lit "/src/a.txt")
              (destination_of (Path_of (lit "/dst")) (lit "/src/a.txt")) e4
        = (Ok tt, e5)
      ∧ stat_size (destination_of (Path_of (lit "/dst")) (lit "/src/a.txt")) e5
        = (Ok dest_size, e6)
      ∧ output (snd after_empty_destination)
        = output empty_destination_world
          ++ lit "✅ 成功复制: " ++ name (Path_of (lit "/src/a.txt")) ++ lit " "
          ++ lit "(" ++ format_size orig_dest_size ++ lit " → "
          ++ format_size dest_size ++ lit ")"
          ++ (if (0 <? orig_dest_size)%Z
              then lit " [" ++ change_symbol (dest_size - orig_dest_size)
                     ++ format_size (Z.abs (dest_size - orig_dest_size))
                     ++ lit "]"
              else [])
          ++ lit " -> " ++ lit "/dst" ++ [10].
Proof.
  assert (Hrun : copy_one (Path_of (lit "/dst")) (lit "/dst") (lit "/src/a.txt")
                          (counters0, empty_destination_world)
                 = (Ok tt, (fst after_empty_destination,
                            snd after_empty_destination)))
    by (vm_compute; reflexivity).
  assert (Hs : success_count (fst after_empty_destination)
               = (success_count counters0 + 1)%Z)
    by (vm_compute; reflexivity).
  split; [exact Hrun|]. split; [exact Hs|].
  exact (success_line_reports_delta _ _ _ _ _ _ _ Hrun Hs).
Defined.

(** C7, refuted as stated: the destination file existed before the
    copy (with no bytes) and the report line carries no bracketed
    difference. *)
Lemma no_delta_for_empty_destination :
  file_at empty_destination_world (lit "/dst/a.txt") = Some (File [])
  ∧ fst (copy_files_counted [lit "/src/a.txt"] (lit "/dst") empty_destination_world)
    = Ok (mkCounters 1 0 5 5)
  ∧ terminal (snd (copy_files_counted [lit "/src/a.txt"] (lit "/dst")
                                      empty_destination_world))
    = lit "✅ 成功复制: a.txt (0B → 5B) -> /dst" ++ [10; 10]
        ++ lit "📊 复制完成! 成功: 1, 失败: 0 | 总大小: 5B → 5B" ++ [10]
  ∧ file_at (snd (copy_files_counted [lit "/src/a.txt"] (lit "/dst")
                                     empty_destination_world))
            (lit "/dst/a.txt") = Some (File [1; 2; 3; 4; 5]).
Proof. repeat split; vm_compute; reflexivity. Qed.


(** ** Paths *)

Lemma split_on_no_sep sep s : sep ∉ s → split_on sep s = [s].
Proof.
  induction s as [|c r IH]; intros Hs; [reflexivity|].
  cbn. destruct (N.eqb_spec c sep) as [->|Hne].
  - exfalso. apply Hs. left.
  - rewrite IH; [reflexivity|]. intros Hin. apply Hs. by right.
Qed.

Lemma split_on_fields sep s x : x ∈ split_on sep s → sep ∉ x.
Proof.
  revert x. induction s as [|c r IH]; intros x; cbn.
  - intros ->%list_elem_of_singleton. apply not_elem_of_nil.
  - destruct (N.eqb_spec c sep) as [->|Hne].
    + intros [->|Hin]%elem_of_cons; [apply not_elem_of_nil | by apply IH].
    + destruct (split_on sep r) as [|w ws] eqn:Hsp.
      * intros ->%list_elem_of_singleton.
        intros [?|[]%not_elem_of_nil]%elem_of_cons. congruence.
      * intros [->|Hin]%elem_of_cons.
        -- intros [?|Hin]%elem_of_cons; [congruence|].
           apply (IH w); [left | exact Hin].
        -- apply IH. by right.
Qed.

(** A component of a parsed path is not empty, is not [.] and holds no
    slash. *)
Lemma parts_clean s x :
  x ∈ parts (Path_of s) → x ≠ [] ∧ x ≠ [46] ∧ 47 ∉ x.
Proof.
  unfold Path_of; cbn. intros [[H1 H2] Hin]%list_elem_of_filter.
  repeat split; try assumption. by eapply split_on_fields.
Qed.

Lemma last_elem_of {A} (l : list A) (d : A) : l ≠ [] → List.last l d ∈ l.
Proof.
  induction l as [|a [|b r] IH]; intros Hne; [done | left |].
  right. apply IH. discriminate.
Qed.


Lemma Path_of_component x :
  x ≠ [] → x ≠ [46] → 47 ∉ x → Path_of x = mkPath false [x].
Proof.
  intros H1 H2 H3. unfold Path_of. f_equal.
  - destruct x as [|c r]; [done|].
    destruct (N.eq_dec c 47) as [->|Hne]; [exfalso; apply H3; left|].
    destruct c as [|p]; [reflexivity|].
    repeat (destruct p as [p|p|]; try reflexivity); congruence.
  - rewrite split_on_no_sep by done. cbn.
    rewrite decide_True; [reflexivity | done].
Qed.

(** [dest / source.name] appends the name to the components of [dest]. *)
Lemma destination_of_parts dest s :
  parts (Path_of s) ≠ [] →
  destination_of dest s
  = mkPath (anchored dest) (parts dest ++ [name (Path_of s)]).
Proof.
  intros Hne. unfold destination_of.
  assert (Hn : Path_of (name (Path_of s)) = mkPath false [name (Path_of s)]).
  { pose proof (last_elem_of (parts (Path_of s)) [] Hne) as Hin.
    apply parts_clean in Hin as (H1 & H2 & H3).
    by apply Path_of_component. }
  unfold joinpath. rewrite Hn. reflexivity.
Qed.


(** ** The in-memory file system, call by call *)

Global Arguments lookup_node : simpl never.
Global Arguments destination_of : simpl never.




Lemma lookup_node_insert (m : gmap Path node) t x p :
  parts t ≠ [] →
  lookup_node (<[t := x]> m) p
  = if decide (t = p) then Some x else lookup_node m p.
Proof.
  intros Ht. unfold lookup_node. destruct (decide (t = p)) as [<-|Hne].
  - destruct (parts t); [done|]. by rewrite lookup_insert_eq.
  - destruct (parts p); [done|]. by rewrite lookup_insert_ne.
Qed.

Lemma lookup_node_File_parts (m : gmap Path node) p d :
  lookup_node m p = Some (File d) → parts p ≠ [].
Proof. unfold lookup_node. destruct (parts p); [discriminate | done]. Qed.




(** ** One source at a time on the in-memory file system *)




(** ** A whole batch on the in-memory file system *)


Section AfterOneCopy.
Variables (m : gmap Path node) (dest : Path) (s : str) (d : list N).
Hypothesis Hdest : lookup_node m dest = Some Dir.
Hypothesis Hcp : copyable m dest s.
Hypothesis Hfile : lookup_node m (Path_of s) = Some (File d).

Let m' : gmap Path node := <[destination_of dest s := File d]> m.







End AfterOneCopy.



(** ** Creating the destination directory *)

Lemma mkdir_walk_spec a todo :
  ∀ above (m m' : gmap Path node),
    mkdir_walk a above todo m = (Ok tt, m') →
    (∀ p, m' !! p = m !! p
          ∨ (m !! p = None ∧ m' !! p = Some Dir
             ∧ (length (parts p) ≤ length above + length todo)%nat))
    ∧ (todo ≠ [] → m' !! mkPath a (above ++ todo) = Some Dir).
Proof.
  induction todo as [|c r IH]; intros above m m' Hwalk.
  - injection Hwalk as <-. split; [by left | done].
  - cbn [mkdir_walk] in Hwalk.
    set (q := mkPath a (above ++ [c])) in *.
    assert (Happ : (above ++ [c]) ++ r = above ++ c :: r)
      by (by rewrite <- app_assoc).
    destruct (m !! q) as [[d|]|] eqn:Hq.
    + destruct r; discriminate.
    + destruct (IH _ _ _ Hwalk) as [Hsame Hlast]. split.
      * intros p. destruct (Hsame p) as [?|(? & ? & Hlen)]; [by left|].
        right. repeat split; try done.
        rewrite length_app in Hlen. cbn [length] in *. lia.
      * intros _. destruct r as [|c' r'].
        -- cbn [mkdir_walk] in Hwalk. injection Hwalk as <-. exact Hq.
        -- rewrite <- Happ. by apply Hlast.
    + destruct (IH _ _ _ Hwalk) as [Hsame Hlast]. split.
      * intros p. destruct (decide (q = p)) as [<-|Hne].
        -- right. split; [done|].
           destruct (Hsame q) as [Heq|(Hnone & _)].
           ++ rewrite Heq, lookup_insert_eq. split; [done|].
              subst q. cbn [parts length]. rewrite length_app. cbn [length]. lia.
           ++ by rewrite lookup_insert_eq in Hnone.
        -- destruct (Hsame p) as [Heq|(Hnone & Hdir & Hlen)].
           ++ left. by rewrite Heq, lookup_insert_ne.
           ++ right. rewrite lookup_insert_ne in Hnone by done.
              repeat split; try done.
              rewrite length_app in Hlen. cbn [length] in *. lia.
      * intros _. destruct r as [|c' r'].
        -- cbn [mkdir_walk] in Hwalk. injection Hwalk as <-.
           apply lookup_insert_eq.
        -- rewrite <- Happ. by apply Hlast.
Qed.

Lemma lookup_node_alt (m : gmap Path node) p :
  lookup_node m p = match parts p with [] => Some Dir | _ => m !! p end.
Proof. reflexivity. Qed.

(** After a successful [mkdir] the destination is a directory; nothing
    that existed has changed, and what is new is a directory no deeper
    than the destination. *)
Lemma mem_mkdir_parents_spec dest m clk e0 :
  mkdir_parents dest (mkMem m clk) = (Ok tt, e0) →
  ∃ m0, e0 = mkMem m0 clk
        ∧ lookup_node m0 dest = Some Dir
        ∧ ∀ p, lookup_node m0 p = lookup_node m p
               ∨ (lookup_node m p = None ∧ lookup_node m0 p = Some Dir
                  ∧ (length (parts p) ≤ length (parts dest))%nat).
Proof.
  change (mkdir_parents dest (mkMem m clk))
    with (mem_mkdir_parents dest (mkMem m clk)).
  unfold mem_mkdir_parents. cbn [nodes clock].
  destruct (mkdir_walk (anchored dest) [] (parts dest) m) as [r m0] eqn:Hwalk.
  intros [= -> <-]. exists m0. split; [done|].
  destruct (mkdir_walk_spec _ _ _ _ _ Hwalk) as [Hsame Hlast]. split.
  - rewrite lookup_node_alt. destruct dest as [a ps]. cbn [parts anchored] in *.
    destruct ps as [|x ps]; [done|]. by apply Hlast.
  - intros p. rewrite !lookup_node_alt. destruct (parts p) eqn:Hp; [by left|].
    destruct (Hsame p) as [?|(? & ? & Hlen)]; [by left|].
    right. repeat split; try done. rewrite Hp in Hlen. cbn [length] in *. lia.
Qed.


Lemma filter_all {A} (P : A → Prop) `{∀ x, Decision (P x)} (l : list A) :
  Forall P l → filter P l = l.
Proof.
  induction 1 as [|x l Hx _ IH]; [reflexivity|].
  by rewrite filter_cons, decide_True, IH.
Qed.



(** ** Sources of one name *)

Lemma last_copied_to_last dest t l s post :
  destination_of dest s = t →
  Forall (fun x => destination_of dest x ≠ t) post →
  last_copied_to dest t (l ++ s :: post) = Some s.
Proof.
  intros Hs Hpost.
  assert (Htail : last_copied_to dest t post = None).
  { induction Hpost as [|x post Hx _ IH]; [reflexivity|].
    cbn [last_copied_to]. rewrite IH. by rewrite bool_decide_false. }
  induction l as [|x l IH].
  - cbn [app last_copied_to]. rewrite Htail. by rewrite bool_decide_true.
  - cbn [app last_copied_to]. fold (l ++ s :: post). by rewrite IH.
Qed.



(** Two sources of one name, copied one after the other: two successes
    and the bytes of the second source at the common destination. *)
Example same_name_run :
  fst (copy_files_counted [lit "/one/main.js"; lit "/two/main.js"]
                          (lit "/dst") same_name_world)
  = Ok (mkCounters 2 0 5 5)
  ∧ file_at (snd (copy_files_counted [lit "/one/main.js"; lit "/two/main.js"]
                                     (lit "/dst") same_name_world))
            (lit "/dst/main.js")
    = Some (File [2; 2; 2]).
Proof. split; vm_compute; reflexivity. Qed.

(** ** The change handler on any environment *)

Lemma Qltb_lt (x y : Q) : Qltb x y = true ↔ (x < y)%Q.
Proof.
  unfold Qltb. rewrite negb_true_iff. split.
  - intros Hle. apply Qnot_le_lt. intros Hyx.
    apply Qle_bool_iff in Hyx. congruence.
  - intros Hlt. destruct (Qle_bool y x) eqn:Hle; [|reflexivity].
    apply Qle_bool_iff in Hle. exfalso. by apply (Qlt_not_le x y).
Qed.

Lemma Qltb_ge (x y : Q) : Qltb x y = false ↔ (y <= x)%Q.
Proof.
  unfold Qltb. rewrite negb_false_iff. apply Qle_bool_iff.
Qed.

Section HandlerLemmas.
Context {E : Type} `{Environment E}.

Lemma trigger_unfold pid p fp (h : FileChangeHandler) (w : world E) :
  trigger pid p fp (h, w)
  = match time_time (env w) with
    | (Raise e, e1) => (Raise e, (h, set_env e1 w))
    | (Ok t, e1) =>
      match last_triggered h !! pid with
      | None => (Raise (Exc KeyError pid), (h, set_env e1 w))
      | Some lt =>
        if Qltb (t - lt) 2 then (Ok Return, (h, set_env e1 w))
        else
          match copy_files_with_replace
                  (source_files p) (target_folder p)
                  (write (change_notice fp) (set_env e1 w)) with
          | (Ok _, w') => (Ok Next, (fired pid t h, w'))
          | (Raise e, w') => (Raise e, (fired pid t h, w'))
          end
      end
    end.
Proof.
  unfold trigger, get_last_triggered. unfold_effects.
  destruct (time_time (env w)) as [[t|e] e1]; [|reflexivity].
  cbn [fst snd]. destruct (last_triggered h !! pid) as [lt|]; [|reflexivity].
  destruct (Qltb (t - lt) 2); [reflexivity|].
  cbn [fst snd]. unfold change_notice, fired.
  destruct (copy_files_with_replace _ _ _) as [[[]|e] w']; reflexivity.
Qed.

Lemma scan_source_files_unlisted pid p fp l (s : FileChangeHandler * world E) :
  existsb (fun sf => Path_eqb fp (Path_of sf)) l = false →
  scan_source_files pid p fp l s = (Ok Next, s).
Proof.
  induction l as [|sf l IH]; [reflexivity|].
  cbn [existsb scan_source_files]. intros [H1 H2]%orb_false_iff.
  rewrite H1. by apply IH.
Qed.

Lemma scan_source_files_listed pid p fp l (s : FileChangeHandler * world E) :
  existsb (fun sf => Path_eqb fp (Path_of sf)) l = true →
  scan_source_files pid p fp l s = trigger pid p fp s.
Proof.
  induction l as [|sf l IH]; [discriminate|].
  cbn [existsb scan_source_files].
  destruct (Path_eqb fp (Path_of sf)); [reflexivity|]. apply IH.
Qed.

Lemma scan_pairs_unlisted reg fp pid rest (s : FileChangeHandler * world E) :
  listed reg fp pid = false →
  scan_pairs reg fp (pid :: rest) s = scan_pairs reg fp rest s.
Proof.
  unfold listed. cbn [scan_pairs].
  destruct (lookup_pair reg pid) as [p|]; [|reflexivity].
  intros Hl. unfold bind. by rewrite scan_source_files_unlisted.
Qed.

Lemma scan_pairs_listed reg fp pid p rest (s : FileChangeHandler * world E) :
  lookup_pair reg pid = Some p →
  listed reg fp pid = true →
  scan_pairs reg fp (pid :: rest) s
  = match trigger pid p fp s with
    | (Ok Next, s') => scan_pairs reg fp rest s'
    | (Ok Return, s') => (Ok Return, s')
    | (Raise e, s') => (Raise e, s')
    end.
Proof.
  unfold listed. cbn [scan_pairs]. intros ->. intros Hl.
  unfold bind. rewrite scan_source_files_listed by done.
  destruct (trigger pid p fp s) as [[[]|e] s']; reflexivity.
Qed.

Lemma scan_pairs_app reg fp l1 l2 (s : FileChangeHandler * world E) :
  scan_pairs reg fp (l1 ++ l2) s
  = match scan_pairs reg fp l1 s with
    | (Ok Next, s') => scan_pairs reg fp l2 s'
    | r => r
    end.
Proof.
  revert s. induction l1 as [|pid l1 IH]; intros s; [reflexivity|].
  cbn [app]. destruct (listed reg fp pid) eqn:Hl.
  - pose proof Hl as Hl'. unfold listed in Hl'.
    destruct (lookup_pair reg pid) as [p|] eqn:Hp; [|discriminate].
    rewrite !(scan_pairs_listed _ _ _ _ _ _ Hp Hl).
    destruct (trigger pid p fp s) as [[[]|e] s']; [apply IH | done | done].
  - rewrite !scan_pairs_unlisted by done. apply IH.
Qed.

Lemma scan_pairs_all_unlisted reg fp l (s : FileChangeHandler * world E) :
  Forall (fun q => listed reg fp q = false) l →
  scan_pairs reg fp l s = (Ok Next, s).
Proof.
  induction 1 as [|q l Hq _ IH]; [reflexivity|].
  by rewrite scan_pairs_unlisted.
Qed.

Lemma on_modified_unfold ev (h : FileChangeHandler) (w : world E) :
  is_directory ev = false →
  on_modified ev (h, w)
  = match scan_pairs (h_file_pairs h) (Path_of (src_path ev))
                     (h_watch_pairs h) (h, w) with
    | (Ok _, s') => (Ok tt, s')
    | (Raise e, s') => (Raise e, s')
    end.
Proof.
  intros Hd. unfold on_modified. rewrite Hd. unfold bind, get, ret.
  cbn [fst snd].
  destruct (scan_pairs _ _ _ _) as [[f|e] s']; reflexivity.
Qed.
End HandlerLemmas.

Section HandlerTheorems.
Context {E : Type} `{Environment E}.

(** What handling one listed pair does to the handler. *)
Lemma trigger_effect pid p fp (h : FileChangeHandler) (w : world E) :
  ∃ b : bool,
    fst (snd (trigger pid p fp (h, w)))
    = (if b then fired pid (match fst (time_time (env w)) with
                            | Ok t => t
                            | Raise _ => 0%Q
                            end) h
       else h)
    ∧ (fst (trigger pid p fp (h, w)) = Ok Next → b = true)
    ∧ (fst (trigger pid p fp (h, w)) = Ok Return → b = false).
Proof.
  rewrite trigger_unfold.
  destruct (time_time (env w)) as [[t|e] e1]; cbn [fst];
    [|by exists false].
  destruct (last_triggered h !! pid) as [lt|]; [|by exists false].
  destruct (Qltb (t - lt) 2); [by exists false|].
  destruct (copy_files_with_replace _ _ _) as [[[]|e] w']; by exists true.
Qed.

(** An undisturbed handling runs the loop to its end and invokes the
    copy of every pair that lists the file. *)
Lemma undisturbed_scan_pairs reg fp watch (s s' : FileChangeHandler * world E) :
  undisturbed reg fp watch s s' →
  scan_pairs reg fp watch s = (Ok Next, s')
  ∧ invoked (fst s')
    = invoked (fst s) ++ filter (fun pid => listed reg fp pid = true) watch.
Proof.
  induction 1 as [s|pid rest s s' Hl _ IH
                  |pid p rest h w t e1 lt w2 s' Hp Hl Ht Hlt Hge Hcopy _ IH].
  - split; [reflexivity|]. by rewrite filter_nil, app_nil_r.
  - rewrite scan_pairs_unlisted by done.
    by rewrite filter_cons, decide_False by congruence.
  - rewrite (scan_pairs_listed _ _ _ _ _ _ Hp Hl), trigger_unfold, Ht, Hlt.
    rewrite (proj2 (Qltb_ge _ _) Hge), Hcopy.
    destruct IH as [-> ->]. split; [reflexivity|].
    rewrite filter_cons, decide_True by done.
    cbn [fst fired invoked]. by rewrite <- app_assoc.
Qed.

(** Conversely, a handling that returns having invoked the copy of
    every pair that lists the file is undisturbed. *)
Lemma scan_pairs_undisturbed reg fp watch :
  ∀ (h : FileChangeHandler) (w : world E) f s',
    scan_pairs reg fp watch (h, w) = (Ok f, s') →
    invoked (fst s')
    = invoked h ++ filter (fun pid => listed reg fp pid = true) watch →
    undisturbed reg fp watch (h, w) s'.
Proof.
  induction watch as [|pid rest IH]; intros h w f s'.
  - cbn [scan_pairs]. unfold ret. intros [= _ <-] _. constructor.
  - rewrite filter_cons. destruct (listed reg fp pid) eqn:Hl.
    + rewrite decide_True by done.
      pose proof Hl as Hl'. unfold listed in Hl'.
      destruct (lookup_pair reg pid) as [p|] eqn:Hp; [|discriminate].
      rewrite (scan_pairs_listed _ _ _ _ _ _ Hp Hl), trigger_unfold.
      destruct (time_time (env w)) as [[t|x] e1] eqn:Ht; [|discriminate].
      destruct (last_triggered h !! pid) as [lt|] eqn:Hlt; [|discriminate].
      destruct (Qltb (t - lt) 2) eqn:Hq.
      * (* inside the window: nothing was invoked *)
        intros [= _ <-]. cbn [fst]. intros Hinv.
        rewrite <- (app_nil_r (invoked h)) in Hinv at 1.
        by apply app_inv_head in Hinv.
      * destruct (copy_files_with_replace _ _ _) as [[[]|x] w2] eqn:Hcopy;
          [|discriminate].
        intros Hrest Hinv.
        eapply undisturbed_copy; try done.
        -- by apply Qltb_ge.
        -- eapply IH; [exact Hrest|]. rewrite Hinv. cbn [fired invoked].
           by rewrite <- app_assoc.
    + rewrite decide_False by congruence.
      rewrite scan_pairs_unlisted by done. intros Hrest Hinv.
      apply undisturbed_skip; [done|]. by eapply IH.
Qed.

(** The pairs invoked for one event are an initial segment of those
    that list the file. *)
Lemma scan_pairs_invoked_prefix reg fp watch :
  ∀ (h : FileChangeHandler) (w : world E),
  ∃ l,
    invoked (fst (snd (scan_pairs reg fp watch (h, w)))) = invoked h ++ l
    ∧ l `prefix_of` filter (fun pid => listed reg fp pid = true) watch.
Proof.
  induction watch as [|pid rest IH]; intros h w.
  - exists []. cbn [scan_pairs]. unfold ret. cbn [fst snd].
    rewrite app_nil_r. done.
  - rewrite filter_cons. destruct (listed reg fp pid) eqn:Hl.
    + rewrite decide_True by done.
      pose proof Hl as Hl'. unfold listed in Hl'.
      destruct (lookup_pair reg pid) as [p|] eqn:Hp; [|discriminate].
      rewrite (scan_pairs_listed _ _ _ _ _ _ Hp Hl), trigger_unfold.
      destruct (time_time (env w)) as [[t|x] e1];
        [|exists []; rewrite app_nil_r; split; [done | apply prefix_nil]].
      destruct (last_triggered h !! pid) as [lt|];
        [|exists []; rewrite app_nil_r; split; [done | apply prefix_nil]].
      destruct (Qltb (t - lt) 2);
        [exists []; rewrite app_nil_r; split; [done | apply prefix_nil]|].
      destruct (copy_files_with_replace _ _ _) as [[[]|x] w2].
      * destruct (IH (fired pid t h) w2) as (l & Hinv & Hpre).
        exists (pid :: l). rewrite Hinv. cbn [fired invoked].
        rewrite <- app_assoc. split; [done|]. by apply prefix_cons.
      * exists [pid]. split; [done|]. apply prefix_cons, prefix_nil.
    + rewrite decide_False by congruence.
      rewrite scan_pairs_unlisted by done. apply IH.
Qed.

(** C4 (amended). For one modification event, the pairs whose copy is
    invoked are, in watch order, an initial segment of the watched
    registered pairs whose source lists contain the event path.  They
    are all of them, the handler returning normally, exactly when the
    handling is undisturbed: no such pair is found inside its debounce
    window at its turn and no clock reading or copy raises. *)
Theorem listed_pairs_are_invoked_in_turn
        ev (h : FileChangeHandler) (w : world E) :
  is_directory ev = false →
  let file_path := Path_of (src_path ev) in
  let due := filter (fun pid => listed (h_file_pairs h) file_path pid = true)
                    (h_watch_pairs h) in
  (∃ l,
      invoked (fst (snd (on_modified ev (h, w)))) = invoked h ++ l
      ∧ l `prefix_of` due)
  ∧ ∀ s',
      undisturbed (h_file_pairs h) file_path (h_watch_pairs h) (h, w) s'
      ↔ (on_modified ev (h, w) = (Ok tt, s')
         ∧ invoked (fst s') = invoked h ++ due).
Proof.
  intros Hdir file_path due. rewrite (on_modified_unfold _ _ _ Hdir).
  fold file_path. split.
  - destruct (scan_pairs_invoked_prefix (h_file_pairs h) file_path
                                        (h_watch_pairs h) h w)
      as (l & Hinv & Hpre).
    exists l. split; [|exact Hpre].
    by destruct (scan_pairs _ _ _ _) as [[f|x] s1].
  - intros s'. split.
    + intros Hrun. apply undisturbed_scan_pairs in Hrun as [-> Hinv].
      by split.
    + intros [Hrun Hinv].
      destruct (scan_pairs (h_file_pairs h) file_path (h_watch_pairs h) (h, w))
        as [[f|x] s1] eqn:Hscan; [|discriminate].
      injection Hrun as <-. by eapply scan_pairs_undisturbed.
Qed.
End HandlerTheorems.

(** C4, refuted as stated: with the registry of the script and every
    pair watched, one modification of the manifest shared by pair4 and
    pair5 invokes the copy of both. *)
Lemma two_pairs_fire_for_one_event :
  invoked (fst (snd (on_modified shared_manifest_event
                                 (new_handler file_pairs None,
                                  boot ∅ [100; 101]%Q []))))
  = [lit "pair4"; lit "pair5"].
Proof. vm_compute. reflexivity. Qed.

Lemma listed_pairs_are_invoked_in_turn_witness :
  is_directory event_f = false
  ∧ (let file_path := Path_of (src_path event_f) in
     let h := new_handler registry_AB None in
     let w := clock_world [100; 101]%Q in
     let due := filter (fun pid => listed (h_file_pairs h) file_path pid = true)
                       (h_watch_pairs h) in
     (∃ l,
         invoked (fst (snd (on_modified event_f (h, w)))) = invoked h ++ l
         ∧ l `prefix_of` due)
     ∧ ∀ s',
         undisturbed (h_file_pairs h) file_path (h_watch_pairs h) (h, w) s'
         ↔ (on_modified event_f (h, w) = (Ok tt, s')
            ∧ invoked (fst s') = invoked h ++ due)).
Proof.
  assert (H1 : is_directory event_f = false) by reflexivity.
  split; [exact H1|].
  exact (listed_pairs_are_invoked_in_turn
           event_f (new_handler registry_AB None)
           (clock_world [100; 101]%Q) H1).
Defined.

(** That handling is undisturbed: the clock reads 100 and then 101,
    both pairs were last triggered at 0, and the two copies return
    (their sources are missing, which the routine reports).  Both pairs
    are invoked for the one event. *)
Example both_pairs_undisturbed :
  undisturbed registry_AB (Path_of (lit "/w/f")) [lit "A"; lit "B"]
              (new_handler registry_AB None, clock_world [100; 101]%Q)
              (snd (on_modified event_f
                                (new_handler registry_AB None,
                                 clock_world [100; 101]%Q)))
  ∧ invoked (fst (snd (on_modified event_f
                                   (new_handler registry_AB None,
                                    clock_world [100; 101]%Q))))
    = [lit "A"; lit "B"].
Proof.
  split; [|vm_compute; reflexivity].
  rewrite (on_modified_unfold event_f _ _ eq_refl).
  change (src_path event_f) with (lit "/w/f").
  change (h_file_pairs (new_handler registry_AB None)) with registry_AB.
  change (h_watch_pairs (new_handler registry_AB None)) with [lit "A"; lit "B"].
  remember (scan_pairs _ _ _ _) as r eqn:Hscan.
  assert (Hr : fst r = Ok Next) by (rewrite Hscan; vm_compute; reflexivity).
  assert (Hi : invoked (fst (snd r)) = [lit "A"; lit "B"])
    by (rewrite Hscan; vm_compute; reflexivity).
  destruct r as [f s1]. cbn [fst snd] in *. subst f.
  apply (scan_pairs_undisturbed registry_AB (Path_of (lit "/w/f"))
                                [lit "A"; lit "B"] _ _ Next).
  - by symmetry.
  - cbn [fst snd]. rewrite Hi. vm_compute. reflexivity.
Qed.



Section Debounce.
Context {E : Type} `{Environment E}.

(** The registry and the watch list of a handler never change. *)
Lemma scan_pairs_config reg fp l (s : FileChangeHandler * world E) :
  h_file_pairs (fst (snd (scan_pairs reg fp l s))) = h_file_pairs (fst s)
  ∧ h_watch_pairs (fst (snd (scan_pairs reg fp l s))) = h_watch_pairs (fst s).
Proof.
  revert s. induction l as [|q l IH]; intros [h w]; [done|].
  destruct (listed reg fp q) eqn:Hl.
  - pose proof Hl as Hl'. unfold listed in Hl'.
    destruct (lookup_pair reg q) as [p|] eqn:Hp; [|discriminate].
    rewrite (scan_pairs_listed _ _ _ _ _ _ Hp Hl).
    destruct (trigger_effect q p fp h w) as (b & Hh & _).
    destruct (trigger q p fp (h, w)) as [[[]|e] [h1 w1]]; cbn [fst snd] in *.
    + destruct (IH (h1, w1)) as [-> ->]. cbn [fst]. subst h1. by destruct b.
    + subst h1. by destruct b.
    + subst h1. by destruct b.
  - rewrite scan_pairs_unlisted by done. apply IH.
Qed.


End Debounce.

Section DebounceTheorems.
Context {E : Type} `{Environment E}.


(** C9. When the handler reaches a watched pair that lists the
    modified file and reads the clock less than 2 seconds after the
    last trigger of that pair, it returns at once: the outcome is the
    state reached so far (with the clock read), whatever pairs come
    later in the watch order. *)
Theorem debounce_return_skips_later_pairs
        ev (h0 : FileChangeHandler) (w0 : world E) pre pid rest
        (h : FileChangeHandler) (w : world E) t lt e1 :
  is_directory ev = false →
  h_watch_pairs h0 = pre ++ pid :: rest →
  scan_pairs (h_file_pairs h0) (Path_of (src_path ev)) pre (h0, w0)
  = (Ok Next, (h, w)) →
  listed (h_file_pairs h0) (Path_of (src_path ev)) pid = true →
  time_time (env w) = (Ok t, e1) →
  last_triggered h !! pid = Some lt →
  (t - lt < 2)%Q →
  on_modified ev (h0, w0) = (Ok tt, (h, set_env e1 w)).
Proof.
  intros Hdir Hwatch Hpre Hl Htime Hlast Hlt.
  rewrite (on_modified_unfold _ _ _ Hdir), Hwatch.
  rewrite scan_pairs_app, Hpre.
  pose proof Hl as Hl'. unfold listed in Hl'.
  destruct (lookup_pair (h_file_pairs h0) pid) as [p|] eqn:Hp; [|discriminate].
  rewrite (scan_pairs_listed _ _ _ _ _ _ Hp Hl).
  rewrite trigger_unfold, Htime, Hlast.
  apply Qltb_lt in Hlt. rewrite Hlt. reflexivity.
Qed.
End DebounceTheorems.


(** The same run, evaluated: the second event, read 3
    seconds after the first, triggers the copy of B again. *)
Example two_events_three_seconds_apart :
  invoked (fst (snd (on_modified event_f
                       (snd (on_modified event_f
                               (handler_B_only, clock_world [100; 103]%Q))))))
  = [lit "B"; lit "B"].
Proof. vm_compute. reflexivity. Qed.


Lemma debounce_return_skips_later_pairs_witness :
  is_directory event_f = false
  ∧ h_watch_pairs handler_A_at_10 = [] ++ lit "A" :: [lit "B"]
  ∧ scan_pairs (h_file_pairs handler_A_at_10) (Path_of (src_path event_f)) []
               (handler_A_at_10, clock_world [11%Q])
    = (Ok Next, (handler_A_at_10, clock_world [11%Q]))
  ∧ listed (h_file_pairs handler_A_at_10) (Path_of (src_path event_f)) (lit "A")
    = true
  ∧ time_time (env (clock_world [11%Q])) = (Ok 11%Q, mkMem ∅ [])
  ∧ last_triggered handler_A_at_10 !! lit "A" = Some 10%Q
  ∧ (11 - 10 < 2)%Q
  ∧ on_modified event_f (handler_A_at_10, clock_world [11%Q])
    = (Ok tt, (handler_A_at_10, set_env (mkMem ∅ []) (clock_world [11%Q]))).
Proof.
  assert (H1 : is_directory event_f = false) by reflexivity.
  assert (H2 : h_watch_pairs handler_A_at_10 = [] ++ lit "A" :: [lit "B"])
    by reflexivity.
  assert (H3 : scan_pairs (h_file_pairs handler_A_at_10)
                          (Path_of (src_path event_f)) []
                          (handler_A_at_10, clock_world [11%Q])
               = (Ok Next, (handler_A_at_10, clock_world [11%Q])))
    by reflexivity.
  assert (H4 : listed (h_file_pairs handler_A_at_10)
                      (Path_of (src_path event_f)) (lit "A") = true)
    by (vm_compute; reflexivity).
  assert (H5 : time_time (env (clock_world [11%Q])) = (Ok 11%Q, mkMem ∅ []))
    by reflexivity.
  assert (H6 : last_triggered handler_A_at_10 !! lit "A" = Some 10%Q)
    by (vm_compute; reflexivity).
  assert (H7 : (11 - 10 < 2)%Q) by (vm_compute; reflexivity).
  split; [exact H1|]. split; [exact H2|]. split; [exact H3|].
  split; [exact H4|]. split; [exact H5|]. split; [exact H6|].
  split; [exact H7|].
  exact (debounce_return_skips_later_pairs
           event_f handler_A_at_10 (clock_world [11%Q]) [] (lit "A") [lit "B"]
           handler_A_at_10 (clock_world [11%Q]) 11%Q 10%Q (mkMem ∅ [])
           H1 H2 H3 H4 H5 H6 H7).
Defined.

(** In that run pair B, which lists the same file and
    whose last trigger (never) is long past, is not acted on. *)
Example later_pair_not_examined :
  last_triggered handler_A_at_10 !! lit "B" = Some 0%Q
  ∧ listed registry_AB (Path_of (src_path event_f)) (lit "B") = true
  ∧ invoked (fst (snd (on_modified event_f
                                   (handler_A_at_10, clock_world [11%Q]))))
    = invoked handler_A_at_10.
Proof. repeat split; vm_compute; reflexivity. Qed.

(** ** The entry point *)

Section EntryPointTheorems.
Context {E : Type} `{Environment E}.

(** C5 (amended). In watch mode ([--auto]) with a non-empty [--pairs]:
    when some listed id is not in the registry, the program prints the
    unknown ids and exits with code 1, and nothing else has happened
    (the world is the initial one with that line printed); when every
    listed id is registered, it goes on to start the monitor on the
    listed ids. *)
Theorem unknown_pairs_exit_before_any_work (a : args) (w : world E) s :
  auto a = true →
  pairs a = Some s →
  s ≠ [] →
  (invalid_pairs s ≠ [] →
   main a w
   = (Raise (SystemExit 1),
      write ((lit "❌ 无效的文件对ID: " ++ join (lit ", ") (invalid_pairs s))
               ++ [10]) w))
  ∧ (invalid_pairs s = [] →
     main a w = start_auto_monitor file_pairs (Some (split_on 44 s)) w).
Proof.
  intros Hauto Hpairs Hne. unfold main, pairs_given. rewrite Hauto, Hpairs.
  destruct s as [|c s']; [done|].
  fold (invalid_pairs (c :: s')).
  split; intros Hinv.
  - destruct (invalid_pairs (c :: s')) as [|x l] eqn:Hi; [done|].
    reflexivity.
  - rewrite Hinv. reflexivity.
Qed.
End EntryPointTheorems.

Lemma unknown_pairs_exit_before_any_work_witness :
  auto auto_args_bad = true
  ∧ pairs auto_args_bad = Some (lit "pair1,nope")
  ∧ lit "pair1,nope" ≠ []
  ∧ (invalid_pairs (lit "pair1,nope") ≠ [] →
     main auto_args_bad pair1_world
     = (Raise (SystemExit 1),
        write ((lit "❌ 无效的文件对ID: "
                  ++ join (lit ", ") (invalid_pairs (lit "pair1,nope")))
                 ++ [10]) pair1_world))
  ∧ (invalid_pairs (lit "pair1,nope") = [] →
     main auto_args_bad pair1_world
     = start_auto_monitor file_pairs (Some (split_on 44 (lit "pair1,nope")))
                          pair1_world).
Proof.
  assert (H1 : auto auto_args_bad = true) by reflexivity.
  assert (H2 : pairs auto_args_bad = Some (lit "pair1,nope")) by reflexivity.
  assert (H3 : lit "pair1,nope" ≠ []) by discriminate.
  split; [exact H1|]. split; [exact H2|]. split; [exact H3|].
  exact (unknown_pairs_exit_before_any_work
           auto_args_bad pair1_world (lit "pair1,nope") H1 H2 H3).
Defined.

(** The same run, evaluated: exit code 1, the unknown id
    printed, no file written. *)
Example unknown_pair_run :
  invalid_pairs (lit "pair1,nope") = [lit "nope"]
  ∧ fst (main auto_args_bad pair1_world) = Raise (SystemExit 1)
  ∧ terminal (snd (main auto_args_bad pair1_world))
    = lit "❌ 无效的文件对ID: nope" ++ [10]
  ∧ lookup_node (nodes (env (snd (main auto_args_bad pair1_world))))
                pair1_manifest_copy = None.
Proof. repeat split; vm_compute; reflexivity. Qed.

(** C5, refuted as stated: without [--auto] the [--pairs] list is not
    looked at; with an unknown id in it the program runs the manual
    copy, writes a file and ends normally. *)
Lemma unknown_pairs_ignored_in_manual_mode :
  pairs manual_args_with_pairs = Some (lit "nope")
  ∧ has_key file_pairs (lit "nope") = false
  ∧ lookup_node (nodes (env pair1_world)) pair1_manifest_copy = None
  ∧ fst (main manual_args_with_pairs pair1_world) = Ok Completed
  ∧ lookup_node (nodes (env (snd (main manual_args_with_pairs pair1_world))))
                pair1_manifest_copy
    = Some (File [1; 2]).
Proof. repeat split; vm_compute; reflexivity. Qed.

(** ** Decimal digits and [int] *)

Lemma digits_fuel_spec f :
  ∀ n s, n < 2 ^ N.of_nat (S f) →
         ∃ ds, digits_fuel f n s = ds ++ s
               ∧ ds ≠ []
               ∧ Forall (fun c => is_digit c = true) ds
               ∧ ∀ a, digits_value ds a = a * 10 ^ N.of_nat (length ds) + n.
Proof.
  assert (Hdig : ∀ d, d < 10 → is_digit (digit_char d) = true).
  { intros d Hd. unfold is_digit, digit_char.
    apply andb_true_iff. split; apply N.leb_le; lia. }
  induction f as [|f IH]; intros n s Hn.
  - change (2 ^ N.of_nat 1) with 2 in Hn.
    exists [digit_char n]. cbn [digits_fuel].
    rewrite N.mod_small by lia. repeat split; [done | |].
    + constructor; [apply Hdig; lia | constructor].
    + intros a. unfold digits_value, digit_char. cbn [fold_left length].
      change (10 ^ N.of_nat 1) with 10. lia.
  - cbn [digits_fuel]. destruct (N.ltb_spec n 10) as [Hlt|Hge].
    + exists [digit_char n]. repeat split; [done | |].
      * constructor; [by apply Hdig | constructor].
      * intros a. unfold digits_value, digit_char. cbn [fold_left length].
        change (10 ^ N.of_nat 1) with 10. lia.
    + assert (Hdiv : n / 10 < 2 ^ N.of_nat (S f)).
      { apply N.Div0.div_lt_upper_bound.
        replace (N.of_nat (S (S f))) with (N.succ (N.of_nat (S f))) in Hn by lia.
        rewrite N.pow_succ_r' in Hn. lia. }
      destruct (IH (n / 10) (digit_char (n mod 10) :: s) Hdiv)
        as (ds & -> & Hne & Hall & Hval).
      exists (ds ++ [digit_char (n mod 10)]).
      split; [by rewrite <- app_assoc|]. split; [by destruct ds|]. split.
      * apply Forall_app. split; [done|].
        constructor; [|constructor]. apply Hdig. apply N.mod_lt. lia.
      * intros a. unfold digits_value in *. rewrite fold_left_app, Hval.
        cbn [fold_left]. unfold digit_char. rewrite length_app. cbn [length].
        replace (N.of_nat (length ds + 1)) with (N.succ (N.of_nat (length ds)))
          by lia.
        rewrite N.pow_succ_r'.
        pose proof (N.div_mod n 10 ltac:(lia)) as Hdm.
        set (X := 10 ^ N.of_nat (length ds)). set (q := n / 10) in *.
        set (r := n mod 10) in *.
        replace (48 + r - 48) with r by lia.
        transitivity (a * (10 * X) + (10 * q + r)); [ring | by rewrite <- Hdm].
Qed.

Lemma str_of_N_spec n :
  ∃ ds, str_of_N n = ds
        ∧ ds ≠ []
        ∧ Forall (fun c => is_digit c = true) ds
        ∧ digits_value ds 0 = n.
Proof.
  unfold str_of_N.
  assert (Hn : n < 2 ^ N.of_nat (S (N.to_nat (N.log2 n)))).
  { replace (N.of_nat (S (N.to_nat (N.log2 n)))) with (N.succ (N.log2 n)) by lia.
    destruct (N.eq_dec n 0) as [->|Hnz]; [reflexivity|].
    apply N.log2_spec. lia. }
  destruct (digits_fuel_spec _ n [] Hn) as (ds & Heq & Hne & Hall & Hval).
  rewrite app_nil_r in Heq. exists ds.
  split; [done|]. split; [done|]. split; [done|]. rewrite Hval. lia.
Qed.

Lemma parse_digits_digits ds :
  Forall (fun c => is_digit c = true) ds →
  ∀ a b, (ds ≠ [] ∨ b = true) →
         parse_digits a b ds = Some (digits_value ds a).
Proof.
  induction 1 as [|c ds Hc _ IH]; intros a b Hb.
  - destruct Hb as [?|Hb]; [done | by rewrite Hb].
  - cbn [parse_digits]. unfold is_digit in Hc. rewrite Hc.
    rewrite IH by (by right). reflexivity.
Qed.

Lemma is_digit_not_space c : is_digit c = true → is_space c = false.
Proof.
  unfold is_digit, is_space. intros [H1 H2]%andb_true_iff.
  apply N.leb_le in H1, H2.
  repeat (apply orb_false_iff; split);
    try (apply andb_false_iff; (left; apply N.leb_gt; lia) || (right; apply N.leb_gt; lia));
    try (apply N.eqb_neq; lia).
Qed.

Lemma lstrip_id c s : is_space c = false → lstrip (c :: s) = c :: s.
Proof. intros Hc. cbn [lstrip]. by rewrite Hc. Qed.

(** A string that neither starts nor ends with white space is its own
    [strip]. *)
Lemma strip_id s :
  s ≠ [] →
  (∀ c r, s = c :: r → is_space c = false) →
  (∀ c r, s = r ++ [c] → is_space c = false) →
  strip s = s.
Proof.
  intros Hne Hfirst Hlast. unfold strip.
  destruct s as [|c r]; [done|].
  rewrite (lstrip_id c r) by (by eapply Hfirst).
  destruct (rev (c :: r)) as [|c' r'] eqn:Hrev.
  - apply (f_equal (@length _)) in Hrev. rewrite length_rev in Hrev. done.
  - rewrite (lstrip_id c' r').
    + by rewrite <- Hrev, rev_involutive.
    + apply (Hlast c' (rev r')).
      rewrite <- (rev_involutive (c :: r)), Hrev. reflexivity.
Qed.

Lemma strip_digits ds :
  ds ≠ [] → Forall (fun c => is_space c = false) ds → strip ds = ds.
Proof.
  intros Hne Hall. apply strip_id; [done | |].
  - intros c r ->. by apply Forall_cons in Hall as [? _].
  - intros c r ->. apply Forall_app in Hall as [_ Hc].
    by apply Forall_cons in Hc as [? _].
Qed.

(** [int(str(z))] is [z]. *)
Lemma int_of_str_of_Z z : int_of_str (str_of_Z z) = Some z.
Proof.
  unfold str_of_Z. destruct (Z.ltb_spec z 0) as [Hneg|Hpos].
  - destruct (str_of_N_spec (Z.abs_N z)) as (ds & -> & Hne & Hall & Hval).
    unfold int_of_str. rewrite strip_digits.
    + change (45 =? 45) with true. cbn match.
      rewrite parse_digits_digits by (done || by left).
      rewrite Hval. cbn [fmap option_fmap option_map]. f_equal. lia.
    + done.
    + constructor; [reflexivity|].
      eapply Forall_impl; [exact Hall|]. apply is_digit_not_space.
  - destruct (str_of_N_spec (Z.to_N z)) as (ds & -> & Hne & Hall & Hval).
    unfold int_of_str. rewrite strip_digits.
    + destruct ds as [|c r]; [done|].
      pose proof Hall as Hall'. apply Forall_cons in Hall' as [Hc _].
      unfold is_digit in Hc. apply andb_true_iff in Hc as [H1 H2].
      apply N.leb_le in H1, H2.
      rewrite (proj2 (N.eqb_neq c 45)) by lia.
      rewrite (proj2 (N.eqb_neq c 43)) by lia.
      rewrite parse_digits_digits by (done || by left).
      rewrite Hval. cbn [fmap option_fmap option_map]. f_equal. lia.
    + done.
    + eapply Forall_impl; [exact Hall|]. apply is_digit_not_space.
Qed.

(** ** Characters of the printed numbers *)

Lemma str_of_N_digits n : Forall (fun c => is_digit c = true) (str_of_N n).
Proof. by destruct (str_of_N_spec n) as (ds & -> & _ & ? & _). Qed.

Lemma is_digit_size_char c : is_digit c = true → size_char c = true.
Proof. unfold size_char. by intros ->. Qed.

Lemma str_of_N_size_chars n : Forall (fun c => size_char c = true) (str_of_N n).
Proof.
  eapply Forall_impl; [apply str_of_N_digits|]. apply is_digit_size_char.
Qed.

Lemma str_of_Z_size_chars z : Forall (fun c => size_char c = true) (str_of_Z z).
Proof.
  unfold str_of_Z. destruct (z <? 0)%Z; [|apply str_of_N_size_chars].
  constructor; [reflexivity | apply str_of_N_size_chars].
Qed.

Lemma str_of_Z_nonempty z : str_of_Z z ≠ [].
Proof.
  unfold str_of_Z. destruct (z <? 0)%Z; [done|].
  by destruct (str_of_N_spec (Z.to_N z)) as (ds & -> & ? & _).
Qed.

Lemma digit_char_digit d : d < 10 → is_digit (digit_char d) = true.
Proof.
  intros Hd. unfold is_digit, digit_char.
  apply andb_true_iff. split; apply N.leb_le; lia.
Qed.

Lemma fmt_2f_size_chars num den :
  Forall (fun c => size_char c = true) (fmt_2f num den).
Proof.
  unfold fmt_2f. apply Forall_app. split; [apply str_of_N_size_chars|].
  repeat constructor.
  - apply is_digit_size_char, digit_char_digit, N.mod_lt. lia.
  - apply is_digit_size_char, digit_char_digit, N.mod_lt. lia.
Qed.

Lemma format_size_size_chars z :
  Forall (fun c => size_char c = true) (format_size z).
Proof.
  unfold format_size.
  destruct (z <? 1024)%Z; [|destruct (z <? 1024 * 1024)%Z];
    apply Forall_app; split;
    try apply str_of_Z_size_chars; try apply fmt_2f_size_chars;
    by repeat constructor.
Qed.

Lemma size_char_cases c :
  size_char c = true →
  c ≠ 25104 ∧ c ≠ 44 ∧ is_space c = false ∧ is_linebreak c = false.
Proof.
  unfold size_char, is_digit. intros Hc.
  assert (Hrange : 45 <= c <= 77).
  { repeat (apply orb_true_iff in Hc as [Hc|Hc]);
      [apply andb_true_iff in Hc as [H1 H2]; apply N.leb_le in H1, H2; lia
      |apply N.eqb_eq in Hc; lia..]. }
  unfold is_space, is_linebreak.
  split; [lia|]. split; [lia|]. split.
  - repeat (apply orb_false_iff; split);
      try (apply andb_false_iff;
           (left; apply N.leb_gt; lia) || (right; apply N.leb_gt; lia));
      try (apply N.eqb_neq; lia).
  - repeat (apply orb_false_iff; split);
      try (apply andb_false_iff;
           (left; apply N.leb_gt; lia) || (right; apply N.leb_gt; lia));
      try (apply N.eqb_neq; lia).
Qed.

(** ** Searching a text *)

Lemma is_prefix_app m a b : is_prefix m a = true → is_prefix m (a ++ b) = true.
Proof.
  revert a. induction m as [|x m IH]; intros a; [done|].
  destruct a as [|y a]; [done|]. cbn [is_prefix app].
  intros [-> H2]%andb_true_iff. by rewrite IH.
Qed.

Lemma contains_app_l m a b : contains m a = true → contains m (a ++ b) = true.
Proof.
  induction a as [|y a IH].
  - cbn [contains]. rewrite orb_false_r. intros Hp.
    destruct m; [by destruct b | done].
  - cbn [contains app]. intros [Hp|Hc]%orb_true_iff.
    + change (y :: a ++ b) with ((y :: a) ++ b).
      by rewrite (is_prefix_app _ (y :: a) b Hp).
    + rewrite IH by done. apply orb_true_r.
Qed.

Lemma contains_app_r m a b : contains m b = true → contains m (a ++ b) = true.
Proof.
  intros Hb. induction a as [|y a IH]; [done|].
  cbn [contains app]. rewrite IH. apply orb_true_r.
Qed.

Lemma quietb_app a b :
  quietb a = true → quietb b = true → quietb (a ++ b) = true.
Proof.
  intros Ha Hb. induction a as [|c r IH]; [done|].
  cbn [quietb app] in *. apply andb_true_iff in Ha as [Hc Hr].
  rewrite IH by done. rewrite andb_true_r.
  destruct (c =? 25104); [|done].
  destruct r as [|x [|y r']]; done.
Qed.

Lemma quietb_plain s : plain s → quietb s = true.
Proof.
  induction 1 as [|c r Hc _ IH]; [done|].
  cbn [quietb]. rewrite IH. by rewrite (proj2 (N.eqb_neq c 25104)).
Qed.

(** The success marker does not start inside a quiet text. *)
Lemma contains_after_quiet s x :
  quietb s = true →
  contains success_marker (s ++ x) = contains success_marker x.
Proof.
  induction s as [|c r IH]; [done|].
  cbn [quietb app]. intros [Hc Hr]%andb_true_iff.
  cbn [contains]. rewrite IH by done.
  replace (is_prefix success_marker (c :: r ++ x)) with false; [done|].
  unfold success_marker. cbn [is_prefix].
  destruct (N.eqb_spec 25104 c) as [<-|Hne]; [|done].
  change (25104 =? 25104) with true in Hc.
  destruct r as [|a [|b r']]; try done.
  apply andb_true_iff in Hc as [Ha Hb].
  apply N.eqb_eq in Ha, Hb. subst a b. reflexivity.
Qed.

Lemma quiet_no_marker s : quietb s = true → contains success_marker s = false.
Proof.
  intros Hs. rewrite <- (app_nil_r s). by rewrite contains_after_quiet.
Qed.

(** ** Lines and fields *)

Lemma splitlines_aux_last cur s :
  Forall (fun c => is_linebreak c = false) s →
  splitlines_aux cur (s ++ [10]) = [rev cur ++ s].
Proof.
  revert cur. induction s as [|c r IH]; intros cur Hs.
  - cbn [app splitlines_aux]. change (is_linebreak 10) with true. cbn match.
    unfold after_break. change (10 =? 13) with false. cbn match.
    cbn [splitlines_aux]. by rewrite app_nil_r.
  - apply Forall_cons in Hs as [Hc Hr].
    cbn [app splitlines_aux]. rewrite Hc. rewrite IH by done.
    cbn [rev]. by rewrite <- app_assoc.
Qed.

(** What follows a boundary inside [t ++ LF ++ x] is a shorter text of
    the same shape, or [x] itself. *)
Lemma after_break_shape c t x :
  (∃ t', after_break c (t ++ 10 :: x) = t' ++ 10 :: x
         ∧ (length t' ≤ length t)%nat
         ∧ ∃ pre, t = pre ++ t')
  ∨ after_break c (t ++ 10 :: x) = x.
Proof.
  unfold after_break. destruct (c =? 13).
  - destruct t as [|y t1].
    + right. reflexivity.
    + left. cbn [app]. destruct (y =? 10).
      * exists t1. split; [done|]. split; [cbn [length]; lia|]. by exists [y].
      * exists (y :: t1). split; [done|]. split; [done|]. by exists [].
  - left. exists t. split; [done|]. split; [done|]. by exists [].
Qed.

(** The lines of a text without the success marker are not taken for
    the summary; the search goes on in what follows the text. *)
Lemma find_summary_skips n :
  ∀ t cur x,
    (length t ≤ n)%nat →
    contains success_marker (rev cur ++ t) = false →
    List.find is_summary (splitlines_aux cur (t ++ 10 :: x))
    = List.find is_summary (splitlines_aux [] x).
Proof.
  assert (Hnot : ∀ l, contains success_marker l = false → is_summary l = false).
  { intros l Hl. unfold is_summary. fold success_marker. by rewrite Hl. }
  assert (Hpre : ∀ a b, contains success_marker (a ++ b) = false →
                        contains success_marker a = false).
  { intros a b Hab. destruct (contains success_marker a) eqn:Ha; [|done].
    by rewrite (contains_app_l _ a b Ha) in Hab. }
  assert (Hsuf : ∀ a b, contains success_marker (a ++ b) = false →
                        contains success_marker b = false).
  { intros a b Hab. destruct (contains success_marker b) eqn:Hb; [|done].
    by rewrite (contains_app_r _ a b Hb) in Hab. }
  induction n as [|n IH]; intros t cur x Hlen Hsafe.
  - destruct t; [|cbn [length] in Hlen; lia].
    rewrite app_nil_r in Hsafe.
    cbn [app splitlines_aux]. change (is_linebreak 10) with true. cbn match.
    cbn [List.find]. rewrite (Hnot _ Hsafe).
    unfold after_break. change (10 =? 13) with false. reflexivity.
  - destruct t as [|c t1].
    + rewrite app_nil_r in Hsafe.
      cbn [app splitlines_aux]. change (is_linebreak 10) with true. cbn match.
      cbn [List.find]. rewrite (Hnot _ Hsafe).
      unfold after_break. change (10 =? 13) with false. reflexivity.
    + cbn [length] in Hlen. cbn [app splitlines_aux].
      destruct (is_linebreak c).
      * cbn [List.find]. rewrite (Hnot _ (Hpre _ _ Hsafe)).
        destruct (after_break_shape c t1 x)
          as [(t' & Heq & Hlen' & pre & Ht1)|Heq]; rewrite Heq; [|reflexivity].
        apply IH; [lia|]. cbn [rev app]. subst t1.
        apply Hsuf in Hsafe. change (c :: pre ++ t') with ((c :: pre) ++ t') in Hsafe.
        by apply Hsuf in Hsafe.
      * apply IH; [lia|]. cbn [rev]. by rewrite <- app_assoc.
Qed.

Lemma split_ws_aux_token x :
  Forall (fun c => is_space c = false) x →
  ∀ cur rest, split_ws_aux cur (x ++ rest) = split_ws_aux (rev x ++ cur) rest.
Proof.
  induction 1 as [|c x Hc _ IH]; intros cur rest; [done|].
  cbn [app split_ws_aux]. rewrite Hc, IH. cbn [rev]. by rewrite <- app_assoc.
Qed.

(** A field followed by a space is the first field of the text. *)
Lemma split_ws_token x rest :
  x ≠ [] →
  Forall (fun c => is_space c = false) x →
  split_ws (x ++ 32 :: rest) = x :: split_ws rest.
Proof.
  intros Hne Hx. unfold split_ws. rewrite split_ws_aux_token by done.
  rewrite app_nil_r. cbn [split_ws_aux]. change (is_space 32) with true.
  cbn match. destruct (rev x) as [|c r] eqn:Hrev.
  - apply (f_equal (@length _)) in Hrev. rewrite length_rev in Hrev.
    by destruct x.
  - by rewrite <- Hrev, rev_involutive.
Qed.

Lemma is_prefix_self m x : is_prefix m (m ++ x) = true.
Proof.
  induction m as [|c m IH]; [done|]. cbn [is_prefix app].
  by rewrite N.eqb_refl, IH.
Qed.

Lemma contains_self m x : contains m (m ++ x) = true.
Proof.
  destruct (m ++ x) eqn:Heq; cbn [contains]; rewrite <- Heq;
    by rewrite is_prefix_self.
Qed.

Lemma remove_char_absent c s : Forall (fun x => x ≠ c) s → remove_char c s = s.
Proof. intros Hs. unfold remove_char. by apply filter_all. Qed.

(** ** Reading the counts back from the captured text *)

Lemma size_chars_no_linebreak s :
  Forall (fun c => size_char c = true) s →
  Forall (fun c => is_linebreak c = false) s.
Proof.
  intros Hs. eapply Forall_impl; [exact Hs|].
  intros c Hc. by apply size_char_cases.
Qed.

Lemma size_chars_no_space s :
  Forall (fun c => size_char c = true) s →
  Forall (fun c => is_space c = false) s.
Proof.
  intros Hs. eapply Forall_impl; [exact Hs|].
  intros c Hc. by apply size_char_cases.
Qed.

Lemma size_chars_no_comma s :
  Forall (fun c => size_char c = true) s → Forall (fun c => c ≠ 44) s.
Proof.
  intros Hs. eapply Forall_impl; [exact Hs|].
  intros c Hc. by apply size_char_cases.
Qed.

Lemma size_chars_plain s : Forall (fun c => size_char c = true) s → plain s.
Proof.
  intros Hs. eapply Forall_impl; [exact Hs|].
  intros c Hc. by apply size_char_cases.
Qed.

Lemma summary_line_no_linebreak c :
  Forall (fun x => is_linebreak x = false) (summary_line c).
Proof.
  unfold summary_line, total_size_str, change_symbol.
  repeat (apply Forall_app; split);
    try (apply size_chars_no_linebreak;
         (apply str_of_Z_size_chars || apply format_size_size_chars));
    try (by repeat constructor).
  destruct (_ =? 0)%Z.
  - repeat (apply Forall_app; split);
      try (apply size_chars_no_linebreak, format_size_size_chars);
      by repeat constructor.
  - repeat (apply Forall_app; split);
      try (apply size_chars_no_linebreak, format_size_size_chars);
      try (by repeat constructor).
    destruct (0 <? _)%Z; [by repeat constructor|].
    destruct (_ <? 0)%Z; by repeat constructor.
Qed.

(** The summary line cut into fields. *)
Lemma summary_line_fields c :
  ∃ rest,
    split_ws (summary_line c)
    = lit "📊" :: lit "复制完成!" :: lit "成功:"
          :: (str_of_Z (success_count c) ++ [44])
          :: lit "失败:" :: str_of_Z (error_count c) :: rest.
Proof.
  exists (split_ws (124 :: 32 :: total_size_str c)).
  assert (Hshape :
            summary_line c
            = lit "📊" ++ 32 ::
              lit "复制完成!" ++ 32 ::
              lit "成功:" ++ 32 ::
              (str_of_Z (success_count c) ++ [44]) ++ 32 ::
              lit "失败:" ++ 32 ::
              str_of_Z (error_count c) ++ 32 :: 124 :: 32 :: total_size_str c).
  { unfold summary_line. rewrite <- !app_assoc. reflexivity. }
  rewrite Hshape.
  rewrite split_ws_token by (done || by repeat constructor).
  rewrite split_ws_token by (done || by repeat constructor).
  rewrite split_ws_token by (done || by repeat constructor).
  rewrite split_ws_token.
  - rewrite split_ws_token by (done || by repeat constructor).
    rewrite split_ws_token; [done | apply str_of_Z_nonempty |].
    apply size_chars_no_space, str_of_Z_size_chars.
  - intros [? _]%app_eq_nil. by apply (str_of_Z_nonempty (success_count c)).
  - apply Forall_app. split; [|by repeat constructor].
    apply size_chars_no_space, str_of_Z_size_chars.
Qed.

Lemma summary_line_is_summary c : is_summary (summary_line c) = true.
Proof.
  unfold is_summary, summary_line. apply andb_true_iff. split.
  - change (lit "📊 复制完成! 成功: ") with (lit "📊 复制完成! " ++ lit "成功: ").
    rewrite <- app_assoc. apply contains_app_r, contains_self.
  - rewrite app_assoc.
    change (lit ", 失败: ") with (lit ", " ++ lit "失败: ").
    rewrite <- (app_assoc (lit ", ")), app_assoc.
    apply contains_app_r, contains_self.
Qed.

Lemma field_after_success c rest :
  field_after (lit "成功:")
              (lit "📊" :: lit "复制完成!" :: lit "成功:"
                   :: (str_of_Z (success_count c) ++ [44]) :: rest)
  = Ok (success_count c).
Proof.
  unfold field_after. cbn [index_of]. unfold str_eqb.
  rewrite (bool_decide_false (lit "📊" = lit "成功:")) by discriminate.
  rewrite (bool_decide_false (lit "复制完成!" = lit "成功:")) by discriminate.
  rewrite (bool_decide_true (lit "成功:" = lit "成功:")) by done.
  cbn [fmap option_fmap option_map nth_error].
  unfold remove_char. rewrite filter_app.
  rewrite (filter_all (fun x => x ≠ 44) (str_of_Z (success_count c)))
    by apply size_chars_no_comma, str_of_Z_size_chars.
  rewrite filter_cons, decide_False by (intros Hne; by apply Hne).
  rewrite filter_nil, app_nil_r. by rewrite int_of_str_of_Z.
Qed.

Lemma field_after_failure c x rest :
  field_after (lit "失败:")
              (lit "📊" :: lit "复制完成!" :: lit "成功:"
                   :: (x ++ [44]) :: lit "失败:"
                   :: str_of_Z (error_count c) :: rest)
  = Ok (error_count c).
Proof.
  unfold field_after. cbn [index_of]. unfold str_eqb.
  rewrite (bool_decide_false (lit "📊" = lit "失败:")) by discriminate.
  rewrite (bool_decide_false (lit "复制完成!" = lit "失败:")) by discriminate.
  rewrite (bool_decide_false (lit "成功:" = lit "失败:")) by discriminate.
  rewrite (bool_decide_false (x ++ [44] = lit "失败:")).
  - rewrite (bool_decide_true (lit "失败:" = lit "失败:")) by done.
    cbn [fmap option_fmap option_map nth_error].
    rewrite remove_char_absent
      by apply size_chars_no_comma, str_of_Z_size_chars.
    by rewrite int_of_str_of_Z.
  - intros Heq. apply (f_equal (fun l => List.last l 0)) in Heq.
    rewrite List.last_last in Heq. discriminate.
Qed.

(** The captured text of one run, read back: when the per-file lines
    hold no success marker, the parsed counts are the counts of the
    summary line. *)
Lemma parse_counts_of_capture t c :
  contains success_marker t = false →
  parse_counts (t ++ (10 :: summary_line c) ++ [10])
  = Ok (Some (success_count c, error_count c)).
Proof.
  intros Ht. unfold parse_counts, splitlines.
  change (t ++ (10 :: summary_line c) ++ [10])
    with (t ++ 10 :: (summary_line c ++ [10])).
  rewrite (find_summary_skips (length t) t [] _ (le_n _) Ht).
  rewrite (splitlines_aux_last [] _ (summary_line_no_linebreak c)).
  cbn [rev app List.find]. rewrite summary_line_is_summary.
  destruct (summary_line_fields c) as [rest ->].
  rewrite field_after_success, field_after_failure. reflexivity.
Qed.

(** ** The text printed by the copy routine *)

Lemma split_on_chars sep s x c : x ∈ split_on sep s → c ∈ x → c ∈ s.
Proof.
  revert x. induction s as [|y r IH]; intros x; cbn [split_on].
  - intros ->%list_elem_of_singleton. by intros ?%not_elem_of_nil.
  - destruct (y =? sep).
    + intros [->|Hin]%elem_of_cons; [by intros ?%not_elem_of_nil|].
      intros Hc. right. by eapply IH.
    + destruct (split_on sep r) as [|w ws] eqn:Hsp.
      * intros ->%list_elem_of_singleton.
        intros [->|[]%not_elem_of_nil]%elem_of_cons. left.
      * intros [->|Hin]%elem_of_cons.
        -- intros [->|Hc]%elem_of_cons; [left|]. right.
           apply (IH w); [left | done].
        -- intros Hc. right. apply (IH x); [by right | done].
Qed.

Lemma name_plain s : plain s → plain (name (Path_of s)).
Proof.
  intros Hs. unfold name.
  destruct (parts (Path_of s)) as [|p ps] eqn:Hp; [constructor|].
  assert (Hin : List.last (p :: ps) [] ∈ parts (Path_of s)).
  { rewrite Hp. by apply last_elem_of. }
  unfold Path_of in Hin. cbn [parts] in Hin.
  apply list_elem_of_filter in Hin as [_ Hin].
  unfold plain in *. rewrite Forall_forall in Hs. apply Forall_forall.
  intros c Hc. apply Hs. by eapply split_on_chars.
Qed.

Lemma quietb_size_chars s :
  Forall (fun c => size_char c = true) s → quietb s = true.
Proof. intros Hs. by apply quietb_plain, size_chars_plain. Qed.

Lemma missing_line_quiet s : plain s → quietb (missing_line s ++ [10]) = true.
Proof.
  intros Hs. unfold missing_line.
  repeat apply quietb_app; try reflexivity. by apply quietb_plain.
Qed.

Lemma failure_line_quiet s msg :
  plain s → plain msg → quietb (failure_line s msg ++ [10]) = true.
Proof.
  intros Hs Hm. unfold failure_line.
  repeat apply quietb_app; try reflexivity; by apply quietb_plain.
Qed.

Lemma success_line_quiet n o d folder :
  plain n → plain folder → quietb (success_line n o d folder ++ [10]) = true.
Proof.
  intros Hn Hf. unfold success_line, size_change_str, change_symbol.
  repeat apply quietb_app; try reflexivity; try (by apply quietb_plain).
  destruct (0 <? o)%Z.
  - repeat apply quietb_app; try reflexivity;
      try apply quietb_size_chars, format_size_size_chars.
    destruct (0 <? _)%Z; [reflexivity|]. by destruct (_ <? 0)%Z.
  - repeat apply quietb_app; try reflexivity;
      apply quietb_size_chars, format_size_size_chars.
Qed.

Section CapturedText.
Context {E : Type} `{Environment E}.
Hypothesis Herr : plain_errors E.

Lemma capturing_write s (w : world E) : capturing w → capturing (write s w).
Proof. unfold capturing. by rewrite capture_write_is_Some. Qed.

Lemma copy_attempt_text dp folder s (c : counters) (w : world E) :
  plain s → plain folder →
  match copy_attempt dp folder s (c, w) with
  | (Ok _, (_, w')) =>
    (∃ line, output w' = output w ++ line ∧ quietb line = true)
    ∧ (capturing w → capturing w')
  | (Raise (Exc cl msg), (_, w')) =>
    output w' = output w ∧ plain msg ∧ (capturing w → capturing w')
  | (Raise _, _) => True
  end.
Proof.
  intros Hs Hf. unfold copy_attempt. unfold_effects.
  env_step.
  2: { destruct x as [cl msg| |]; [|done..]. split; [done|]. split; [|done].
       by eapply (proj1 (Herr _ _ _ _)). }
  destruct a; cbn [negb].
  2: { split; [|intros Hc; apply capturing_write; exact Hc].
       eexists. rewrite output_write. split; [reflexivity|].
       by apply missing_line_quiet. }
  env_step.
  2: { destruct x as [cl msg| |]; [|done..]. split; [done|]. split; [|done].
       by eapply (proj1 (proj2 (Herr _ _ _ _))). }
  env_step.
  2: { destruct x as [cl msg| |]; [|done..]. split; [done|]. split; [|done].
       by eapply (proj1 (Herr _ _ _ _)). }
  destruct a0.
  - env_step.
    2: { destruct x as [cl msg| |]; [|done..]. split; [done|]. split; [|done].
         by eapply (proj1 (proj2 (Herr _ _ _ _))). }
    env_step.
    2: { destruct x as [cl msg| |]; [|done..]. split; [done|]. split; [|done].
         by eapply (proj2 (proj2 (Herr _ _ _ _))). }
    env_step.
    2: { destruct x as [cl msg| |]; [|done..]. split; [done|]. split; [|done].
         by eapply (proj1 (proj2 (Herr _ _ _ _))). }
    split; [|intros Hc; apply capturing_write; exact Hc].
    eexists. rewrite output_write. split; [reflexivity|].
    apply success_line_quiet; [by apply name_plain | done].
  - env_step.
    2: { destruct x as [cl msg| |]; [|done..]. split; [done|]. split; [|done].
         by eapply (proj2 (proj2 (Herr _ _ _ _))). }
    env_step.
    2: { destruct x as [cl msg| |]; [|done..]. split; [done|]. split; [|done].
         by eapply (proj1 (proj2 (Herr _ _ _ _))). }
    split; [|intros Hc; apply capturing_write; exact Hc].
    eexists. rewrite output_write. split; [reflexivity|].
    apply success_line_quiet; [by apply name_plain | done].
Qed.

Lemma copy_one_text dp folder s (c : counters) (w : world E) :
  plain s → plain folder →
  match copy_one dp folder s (c, w) with
  | (Ok _, (_, w')) =>
    (∃ line, output w' = output w ++ line ∧ quietb line = true)
    ∧ (capturing w → capturing w')
  | (Raise _, _) => True
  end.
Proof.
  intros Hs Hf.
  pose proof (copy_attempt_text dp folder s c w Hs Hf) as Hatt.
  destruct (copy_attempt dp folder s (c, w)) as [[[]|e] [c1 w1]] eqn:Heq.
  - unfold copy_one, try_except. rewrite Heq. exact Hatt.
  - destruct e as [cl msg| |code].
    + rewrite (copy_one_handles _ _ _ _ _ _ _ _ _ Heq).
      destruct Hatt as (Ho & Hm & Hcap). split.
      * eexists. rewrite output_write, Ho. split; [reflexivity|].
        by apply failure_line_quiet.
      * intros Hc. by apply capturing_write, Hcap.
    + unfold copy_one, try_except. by rewrite Heq.
    + unfold copy_one, try_except. by rewrite Heq.
Qed.

Lemma copy_loop_text dp folder l (c : counters) (w : world E) :
  Forall plain l → plain folder →
  match copy_loop dp folder l (c, w) with
  | (Ok _, (_, w')) =>
    (∃ t, output w' = output w ++ t ∧ quietb t = true)
    ∧ (capturing w → capturing w')
  | (Raise _, _) => True
  end.
Proof.
  intros Hl Hf. revert c w. induction Hl as [|s l Hs _ IH]; intros c w.
  - cbn [copy_loop]. unfold ret. split; [|done].
    exists []. by rewrite app_nil_r.
  - cbn [copy_loop]. unfold bind at 1.
    pose proof (copy_one_text dp folder s c w Hs Hf) as Hone.
    destruct (copy_one dp folder s (c, w)) as [[[]|e] [c1 w1]]; [|done].
    specialize (IH c1 w1).
    destruct (copy_loop dp folder l (c1, w1)) as [[[]|e] [c2 w2]]; [|done].
    destruct Hone as [(line & Hl1 & Hq1) Hc1], IH as [(t & Hl2 & Hq2) Hc2].
    split; [|by intros ?; apply Hc2, Hc1].
    exists (line ++ t). rewrite Hl2, Hl1, <- app_assoc.
    split; [done | by apply quietb_app].
Qed.

(** The captured text of a run of the routine and the counts read back
    from it. *)
Lemma copy_files_counted_parsed sources folder (w : world E) c w' :
  Forall plain sources → plain folder →
  capture w = Some [] →
  copy_files_counted sources folder w = (Ok c, w') →
  parse_counts (captured_text w') = Ok (Some (success_count c, error_count c)).
Proof.
  intros Hl Hf Hcap. rewrite copy_files_counted_unfold.
  destruct (mkdir_parents (Path_of folder) (env w)) as [[[]|e] e1];
    [|discriminate].
  pose proof (copy_loop_text (Path_of folder) folder sources counters0
                             (set_env e1 w) Hl Hf) as Hloop.
  destruct (copy_loop (Path_of folder) folder sources (counters0, set_env e1 w))
    as [[[]|e] [c2 w2]]; [|discriminate].
  intros Heq.
  pose proof (f_equal fst Heq) as Hc'. pose proof (f_equal snd Heq) as Hw'.
  cbn [fst snd] in Hc', Hw'. clear Heq. injection Hc' as <-. subst w'.
  destruct Hloop as [(t & Ht & Hq) Hc].
  assert (Hcap2 : capturing (write ((10 :: summary_line c2) ++ [10]) w2)).
  { apply capturing_write, Hc. unfold capturing, set_env. cbn [capture].
    rewrite Hcap. by eexists. }
  assert (Hout : captured_text (write ((10 :: summary_line c2) ++ [10]) w2)
                 = t ++ (10 :: summary_line c2) ++ [10]).
  { destruct Hcap2 as [buf Hbuf].
    pose proof (output_write ((10 :: summary_line c2) ++ [10]) w2) as Hw.
    unfold output in Hw at 1. unfold captured_text. rewrite Hbuf in *.
    rewrite Hw, Ht. unfold output, set_env. cbn [capture]. by rewrite Hcap. }
  rewrite Hout. apply parse_counts_of_capture. by apply quiet_no_marker.
Qed.
End CapturedText.

(** ** The grand total of "copy all pairs" *)


Lemma mem_plain_errors : plain_errors mem_env.
Proof.
  intros e e' cl msg. split; [|split].
  - intros p. change (path_exists p e) with (mem_exists p e).
    unfold mem_exists. discriminate.
  - intros p. change (stat_size p e) with (mem_stat_size p e).
    unfold mem_stat_size.
    destruct (lookup_node (nodes e) p) as [[d|]|]; try discriminate.
    unfold os_error. intros [= <- <- <-]. by repeat constructor.
  - intros s p. change (copy2 s p e) with (mem_copy2 s p e).
    unfold mem_copy2, os_error.
    repeat match goal with
           | |- context [match ?x with _ => _ end] => destruct x
           end;
      try discriminate; intros [= <- <- <-]; by repeat constructor.
Qed.

Section GrandTotal.
Context {E : Type} `{Environment E}.
Hypothesis Herr : plain_errors E.

Lemma copy_files_with_replace_counted sources folder (w : world E) :
  copy_files_with_replace sources folder w
  = match copy_files_counted sources folder w with
    | (Ok _, w') => (Ok tt, w')
    | (Raise e, w') => (Raise e, w')
    end.
Proof.
  unfold copy_files_with_replace, bind, ret.
  by destruct (copy_files_counted sources folder w) as [[c|e] w'].
Qed.




End GrandTotal.

(** "Copy all pairs" with two files of pair2 in place: pair2 has two
    successes, the other twelve sources are missing. *)
Example copy_all_run :
  fst (main manual_args copy_all_world) = Ok Completed
  ∧ contains (lit "📊 所有文件对复制完成! 总成功: 2, 总失败: 12" ++ [10])
             (terminal (snd (main manual_args copy_all_world))) = true.
Proof. split; vm_compute; reflexivity. Qed.

(* ===================================================================== *)
(** * Part IX. Further properties of the script                           *)
(* ===================================================================== *)

(** ** What the copy routine leaves alone *)

Ltac wnorm :=
  unfold set_env in *; cbn [fst snd env terminal capture stdin] in *.

Section CopyInvariant.
Context {E : Type} `{Environment E}.
Variable J : world E → Prop.
Variable dp : Path.
Hypothesis J_write : ∀ t w, J w → J (write t w).
Hypothesis J_exists : ∀ p w, J w → J (set_env (snd (path_exists p (env w))) w).
Hypothesis J_stat : ∀ p w, J w → J (set_env (snd (stat_size p (env w))) w).

Lemma copy_attempt_invariant folder s (c : counters) (w : world E) :
  (∀ w, J w → J (set_env (snd (copy2 s (destination_of dp s) (env w))) w)) →
  J w → J (snd (snd (copy_attempt dp folder s (c, w)))).
Proof.
  intros J_copy HJ. unfold copy_attempt. unfold_effects.
  fold (destination_of dp s).
  pose proof (J_exists (Path_of s) w HJ) as H1. wnorm.
  destruct (path_exists (Path_of s) (env w)) as [[found|x] e1];
    wnorm; [|exact H1].
  destruct found; cbn [negb]; [|by apply (J_write _ _ H1)].
  pose proof (J_stat (Path_of s) _ H1) as H2.
  wnorm.
  destruct (stat_size (Path_of s) e1) as [[sz|x] e2];
    wnorm; [|exact H2].
  pose proof (J_exists (destination_of dp s) _ H2) as H3.
  wnorm.
  destruct (path_exists (destination_of dp s) e2) as [[dfound|x] e3];
    wnorm; [|exact H3].
  assert (H4 : ∃ e4 r,
             (if dfound
              then stat_size (destination_of dp s) e3
              else (Ok 0%Z, e3)) = (r, e4)
             ∧ J (mkWorld e4 (terminal w) (capture w) (stdin w))).
  { destruct dfound.
    - pose proof (J_stat (destination_of dp s) _ H3) as H4.
      wnorm.
      destruct (stat_size (destination_of dp s) e3) as [r e4]. eauto.
    - eauto. }
  destruct H4 as (e4 & r & Heq & H4).
  destruct dfound; wnorm.
  - rewrite Heq. destruct r as [orig|x];
      wnorm; [|exact H4].
    pose proof (J_copy _ H4) as H5.
    wnorm.
    destruct (copy2 s (destination_of dp s) e4) as [[[]|x] e5];
      wnorm; [|exact H5].
    pose proof (J_stat (destination_of dp s) _ H5) as H6.
    wnorm.
    destruct (stat_size (destination_of dp s) e5) as [[dsz|x] e6];
      wnorm; [|exact H6].
    by apply (J_write _ _ H6).
  - injection Heq as <- <-.
    pose proof (J_copy _ H3) as H5.
    wnorm.
    destruct (copy2 s (destination_of dp s) e3) as [[[]|x] e5];
      wnorm; [|exact H5].
    pose proof (J_stat (destination_of dp s) _ H5) as H6.
    wnorm.
    destruct (stat_size (destination_of dp s) e5) as [[dsz|x] e6];
      wnorm; [|exact H6].
    by apply (J_write _ _ H6).
Qed.

Lemma copy_one_invariant folder s (c : counters) (w : world E) :
  (∀ w, J w → J (set_env (snd (copy2 s (destination_of dp s) (env w))) w)) →
  J w → J (snd (snd (copy_one dp folder s (c, w)))).
Proof.
  intros J_copy HJ.
  pose proof (copy_attempt_invariant folder s c w J_copy HJ) as Hatt.
  unfold copy_one, try_except.
  destruct (copy_attempt dp folder s (c, w)) as [[[]|[cl msg| |code]] [c1 w1]];
    cbn [fst snd] in *; try exact Hatt.
  unfold_effects. by apply J_write.
Qed.

Lemma copy_loop_invariant folder l (c : counters) (w : world E) :
  (∀ s w, s ∈ l →
          J w → J (set_env (snd (copy2 s (destination_of dp s) (env w))) w)) →
  J w → J (snd (snd (copy_loop dp folder l (c, w)))).
Proof.
  revert c w. induction l as [|s l IH]; intros c w J_copy HJ; [exact HJ|].
  cbn [copy_loop]. unfold bind at 1.
  pose proof (copy_one_invariant folder s c w
                (fun w => J_copy s w ltac:(left)) HJ) as Hone.
  destruct (copy_one dp folder s (c, w)) as [[[]|e] [c1 w1]];
    cbn [fst snd] in *; [|exact Hone].
  apply IH; [|exact Hone]. intros s' w' Hin. apply J_copy. by right.
Qed.
End CopyInvariant.

Section CopyInvariantRoutine.
Context {E : Type} `{Environment E}.

(** Whatever the writes to [sys.stdout] and the file-system calls of the
    routine preserve, the routine preserves. *)
Lemma copy_files_counted_invariant (J : world E → Prop) sources folder
      (w : world E) :
  (∀ t w, J w → J (write t w)) →
  (∀ p w, J w → J (set_env (snd (path_exists p (env w))) w)) →
  (∀ p w, J w → J (set_env (snd (stat_size p (env w))) w)) →
  (∀ w, J w → J (set_env (snd (mkdir_parents (Path_of folder) (env w))) w)) →
  (∀ s w, s ∈ sources →
          J w →
          J (set_env (snd (copy2 s (destination_of (Path_of folder) s) (env w)))
                     w)) →
  J w → J (snd (copy_files_counted sources folder w)).
Proof.
  intros J_write J_exists J_stat J_mkdir J_copy HJ.
  rewrite copy_files_counted_unfold.
  pose proof (J_mkdir w HJ) as H1.
  destruct (mkdir_parents (Path_of folder) (env w)) as [[[]|e] e1];
    cbn [fst snd] in *; [|exact H1].
  pose proof (copy_loop_invariant J (Path_of folder) J_write J_exists J_stat
                folder sources counters0 (set_env e1 w) J_copy H1) as H2.
  destruct (copy_loop (Path_of folder) folder sources (counters0, set_env e1 w))
    as [[[]|e] [c2 w2]]; cbn [fst snd] in *; [|exact H2].
  by apply J_write.
Qed.
End CopyInvariantRoutine.

(** ** The calls of the in-memory file system, whatever their result *)

Lemma mem_path_exists_env p (e : mem_env) : snd (path_exists p e) = e.
Proof. reflexivity. Qed.

Lemma mem_stat_size_env p (e : mem_env) : snd (stat_size p e) = e.
Proof.
  change (stat_size p e) with (mem_stat_size p e). unfold mem_stat_size.
  by destruct (lookup_node (nodes e) p) as [[]|].
Qed.

(** [mkdir], even when it fails half-way, only adds directories. *)
Lemma mkdir_walk_adds a todo :
  ∀ above (m : gmap Path node) p,
    (mkdir_walk a above todo m).2 !! p = m !! p
    ∨ (m !! p = None ∧ (mkdir_walk a above todo m).2 !! p = Some Dir).
Proof.
  induction todo as [|c r IH]; intros above m p; [by left|].
  cbn [mkdir_walk]. set (q := mkPath a (above ++ [c])).
  destruct (m !! q) as [[d|]|] eqn:Hq.
  - by left.
  - apply IH.
  - destruct (IH (above ++ [c]) (<[q := Dir]> m) p) as [Heq|[Hnone Hdir]].
    + rewrite Heq. destruct (decide (q = p)) as [<-|Hne].
      * right. by rewrite lookup_insert_eq.
      * left. by rewrite lookup_insert_ne.
    + right. split; [|done].
      destruct (decide (q = p)) as [<-|Hne].
      * by rewrite lookup_insert_eq in Hnone.
      * by rewrite lookup_insert_ne in Hnone.
Qed.

Lemma mem_mkdir_parents_adds dest (e : mem_env) p :
  lookup_node (nodes (snd (mkdir_parents dest e))) p = lookup_node (nodes e) p
  ∨ (lookup_node (nodes e) p = None
     ∧ lookup_node (nodes (snd (mkdir_parents dest e))) p = Some Dir).
Proof.
  change (mkdir_parents dest e) with (mem_mkdir_parents dest e).
  unfold mem_mkdir_parents.
  pose proof (mkdir_walk_adds (anchored dest) (parts dest) [] (nodes e) p)
    as Hadd.
  destruct (mkdir_walk (anchored dest) [] (parts dest) (nodes e)) as [r m'].
  cbn [fst snd nodes] in *. rewrite !lookup_node_alt.
  destruct (parts p); [by left | exact Hadd].
Qed.

(** [copy2] changes nothing, or writes the bytes of the source at a
    place, [dst] or [dst / source.name], that is not a directory. *)
Lemma mem_copy2_effect s dst (e : mem_env) :
  snd (copy2 s dst e) = e
  ∨ ∃ d target,
      lookup_node (nodes e) (Path_of s) = Some (File d)
      ∧ (target = dst ∨ target = joinpath dst (name (Path_of s)))
      ∧ lookup_node (nodes e) target ≠ Some Dir
      ∧ snd (copy2 s dst e) = mkMem (<[target := File d]> (nodes e)) (clock e).
Proof.
  change (copy2 s dst e) with (mem_copy2 s dst e). unfold mem_copy2.
  destruct (lookup_node (nodes e) (Path_of s)) as [[d|]|]; [|by left..].
  destruct (ends_with_slash s); [by left|].
  set (target := match lookup_node (nodes e) dst with
                 | Some Dir => joinpath dst (name (Path_of s))
                 | _ => dst
                 end).
  assert (Ht : target = dst ∨ target = joinpath dst (name (Path_of s))).
  { subst target. destruct (lookup_node (nodes e) dst) as [[]|]; auto. }
  destruct (bool_decide (target = Path_of s)); [by left|].
  destruct (lookup_node (nodes e) target) as [[d'|]|] eqn:Hl.
  - destruct (lookup_node (nodes e) (parent target)) as [[]|]; [by left| |by left].
    right. exists d, target. rewrite Hl. done.
  - by left.
  - destruct (lookup_node (nodes e) (parent target)) as [[]|]; [by left| |by left].
    right. exists d, target. rewrite Hl. done.
Qed.

Lemma lookup_node_insert_file (m : gmap Path node) t d p :
  lookup_node m t ≠ Some Dir →
  lookup_node (<[t := File d]> m) p
  = if decide (t = p) then Some (File d) else lookup_node m p.
Proof.
  intros Ht. apply lookup_node_insert. intros Hp. apply Ht.
  rewrite lookup_node_alt. by rewrite Hp.
Qed.

(** ** Paths below the destination folder *)

Lemma inside_refl d : inside d d.
Proof. by split. Qed.

Lemma inside_trans d1 d2 p : inside d1 d2 → inside d2 p → inside d1 p.
Proof.
  intros [Ha1 Hp1] [Ha2 Hp2]. split; [congruence|]. by etrans.
Qed.

Lemma name_not_anchored s : anchored (Path_of (name (Path_of s))) = false.
Proof.
  destruct (decide (parts (Path_of s) = [])) as [Hnil|Hne].
  - unfold name. rewrite Hnil. reflexivity.
  - pose proof (last_elem_of (parts (Path_of s)) [] Hne) as Hin.
    apply parts_clean in Hin as (H1 & H2 & H3).
    by rewrite Path_of_component.
Qed.

Lemma joinpath_inside d x :
  anchored (Path_of x) = false → inside d (joinpath d x).
Proof.
  intros Hx. unfold joinpath. rewrite Hx. split; [done|].
  cbn [parts]. by apply prefix_app_r.
Qed.

Lemma destination_inside dp s : inside dp (destination_of dp s).
Proof. apply joinpath_inside, name_not_anchored. Qed.

Lemma copy_target_inside dp s target :
  target = destination_of dp s
  ∨ target = joinpath (destination_of dp s) (name (Path_of s)) →
  inside dp target.
Proof.
  intros [->| ->]; [apply destination_inside|].
  eapply inside_trans; [apply destination_inside|].
  apply joinpath_inside, name_not_anchored.
Qed.

(** ** The copy routine on the in-memory file system: what it leaves
    alone *)

(** X1. On the in-memory file system the copy routine deletes nothing,
    whatever the batch and whatever fails: a path that existed before
    the run exists after it, and a directory is still a directory. *)
Theorem copy_never_deletes sources folder (w : world mem_env) p n :
  lookup_node (nodes (env w)) p = Some n →
  ∃ n',
    lookup_node (nodes (env (snd (copy_files_counted sources folder w)))) p
    = Some n'
    ∧ (n = Dir → n' = Dir).
Proof.
  intros Hp.
  set (J := fun w' : world mem_env =>
              ∃ n', lookup_node (nodes (env w')) p = Some n'
                    ∧ (n = Dir → n' = Dir)).
  apply (copy_files_counted_invariant J).
  - intros t w0 HJ. unfold J. by rewrite env_write.
  - intros q w0 HJ. unfold J, set_env. cbn [env].
    by rewrite mem_path_exists_env.
  - intros q w0 HJ. unfold J, set_env. cbn [env].
    by rewrite mem_stat_size_env.
  - intros w0 (n' & Hn' & Hdir). unfold J, set_env. cbn [env].
    destruct (mem_mkdir_parents_adds (Path_of folder) (env w0) p)
      as [Heq|[Hnone _]]; [|congruence].
    exists n'. by rewrite Heq.
  - intros s w0 _ (n' & Hn' & Hdir). unfold J, set_env. cbn [env].
    destruct (mem_copy2_effect s (destination_of (Path_of folder) s) (env w0))
      as [->|(d & target & _ & _ & Hnd & ->)]; [by exists n'|].
    cbn [nodes]. rewrite lookup_node_insert_file by done.
    destruct (decide (target = p)) as [->|Hne]; [|by exists n'].
    exists (File d). split; [done|]. intros ->.
    rewrite (Hdir eq_refl) in Hn'. congruence.
  - exists n. done.
Qed.

(** X2. On the in-memory file system the copy routine touches nothing
    outside the destination folder, except for creating the missing
    directories above it: a path that is neither the folder nor below
    it holds after the run what it held before, or held nothing and is
    now a directory. *)
Theorem copy_stays_inside_destination sources folder (w : world mem_env) p :
  ¬ inside (Path_of folder) p →
  let after :=
      lookup_node (nodes (env (snd (copy_files_counted sources folder w)))) p in
  after = lookup_node (nodes (env w)) p
  ∨ (lookup_node (nodes (env w)) p = None ∧ after = Some Dir).
Proof.
  intros Hout. cbv zeta.
  set (J := fun w' : world mem_env =>
              lookup_node (nodes (env w')) p = lookup_node (nodes (env w)) p
              ∨ (lookup_node (nodes (env w)) p = None
                 ∧ lookup_node (nodes (env w')) p = Some Dir)).
  apply (copy_files_counted_invariant J).
  - intros t w0 HJ. unfold J. by rewrite env_write.
  - intros q w0 HJ. unfold J, set_env. cbn [env].
    by rewrite mem_path_exists_env.
  - intros q w0 HJ. unfold J, set_env. cbn [env].
    by rewrite mem_stat_size_env.
  - intros w0 HJ. unfold J, set_env. cbn [env].
    destruct (mem_mkdir_parents_adds (Path_of folder) (env w0) p)
      as [Heq|[Hnone Hdir]].
    + by rewrite Heq.
    + right. split; [|done]. destruct HJ as [<-|[? ?]]; [done|congruence].
  - intros s w0 _ HJ. unfold J, set_env. cbn [env].
    destruct (mem_copy2_effect s (destination_of (Path_of folder) s) (env w0))
      as [->|(d & target & _ & Ht & Hnd & ->)]; [done|].
    cbn [nodes]. rewrite lookup_node_insert_file by done.
    destruct (decide (target = p)) as [->|Hne]; [|done].
    exfalso. apply Hout. by eapply copy_target_inside.
  - by left.
Qed.

(** X3. On the in-memory file system, when the copy routine returns,
    the destination folder is a directory, whatever the batch (the
    empty one included). *)
Theorem destination_folder_exists_after_copy
        sources folder (w w' : world mem_env) c :
  copy_files_counted sources folder w = (Ok c, w') →
  lookup_node (nodes (env w')) (Path_of folder) = Some Dir.
Proof.
  rewrite copy_files_counted_unfold.
  destruct (env w) as [m clk] eqn:Henv.
  destruct (mkdir_parents (Path_of folder) (mkMem m clk)) as [[[]|e] e1] eqn:Hmk;
    [|discriminate].
  destruct (mem_mkdir_parents_spec _ _ _ _ Hmk) as (m0 & -> & Hdest & _).
  set (J := fun w' : world mem_env =>
              lookup_node (nodes (env w')) (Path_of folder) = Some Dir).
  assert (HJ : J (snd (snd (copy_loop (Path_of folder) folder sources
                                      (counters0, set_env (mkMem m0 clk) w))))).
  { apply (copy_loop_invariant J (Path_of folder)).
    - intros t w0 HJ. unfold J. by rewrite env_write.
    - intros q w0 HJ. unfold J, set_env. cbn [env].
      by rewrite mem_path_exists_env.
    - intros q w0 HJ. unfold J, set_env. cbn [env].
      by rewrite mem_stat_size_env.
    - intros s w0 _ HJ. unfold J, set_env in *. cbn [env].
      destruct (mem_copy2_effect s (destination_of (Path_of folder) s) (env w0))
        as [->|(d & target & _ & _ & Hnd & ->)]; [done|].
      cbn [nodes]. rewrite lookup_node_insert_file by done.
      destruct (decide (target = Path_of folder)) as [->|Hne]; [|done].
      congruence.
    - exact Hdest. }
  destruct (copy_loop (Path_of folder) folder sources
                      (counters0, set_env (mkMem m0 clk) w))
    as [[[]|e] [c2 w2]]; [|discriminate].
  intros Heq. apply (f_equal (fun x => env (snd x))) in Heq.
  cbn [fst snd] in *. rewrite <- Heq, env_write. exact HJ.
Qed.

(** ** The report of the copy routine *)

Section Report.
Context {E : Type} `{Environment E}.

Lemma copy_attempt_report dp folder s (c : counters) (w : world E) :
  match copy_attempt dp folder s (c, w) with
  | (Ok _, (_, w')) =>
    ∃ line, report_of folder s line ∧ output w' = output w ++ line ++ [10]
  | (Raise _, (_, w')) => output w' = output w
  end.
Proof.
  unfold copy_attempt. unfold_effects.
  env_step; [|done].
  destruct a; cbn [negb].
  - env_step; [|done].
    env_step; [|done].
    destruct a0.
    + env_step; [|done].
      env_step; [|done].
      env_step; [|done].
      eexists. rewrite output_write. split; [|reflexivity].
      left. by eexists _, _.
    + env_step; [|done].
      env_step; [|done].
      eexists. rewrite output_write. split; [|reflexivity].
      left. by eexists _, _.
  - eexists. rewrite output_write. split; [|reflexivity]. right. by left.
Qed.

Lemma copy_one_report dp folder s (c : counters) (w : world E) st :
  copy_one dp folder s (c, w) = (Ok tt, st) →
  ∃ line, report_of folder s line ∧ output (snd st) = output w ++ line ++ [10].
Proof.
  pose proof (copy_attempt_report dp folder s c w) as Hatt.
  unfold copy_one, try_except.
  destruct (copy_attempt dp folder s (c, w)) as [[[]|[cl msg| |code]] [c1 w1]];
    try discriminate.
  - intros Heq. apply (f_equal snd) in Heq. cbn [snd] in Heq. by subst st.
  - unfold_effects. intros Heq. apply (f_equal snd) in Heq.
    cbn [snd] in Heq. subst st. cbn [snd].
    exists (failure_line s msg). rewrite output_write, Hatt.
    split; [|reflexivity]. right. right. by exists msg.
Qed.

Lemma copy_loop_report dp folder l (c : counters) (w : world E) st :
  copy_loop dp folder l (c, w) = (Ok tt, st) →
  ∃ lines,
    Forall2 (report_of folder) l lines
    ∧ output (snd st) = output w ++ concat (map (fun x => x ++ [10]) lines).
Proof.
  revert c w. induction l as [|s l IH]; intros c w.
  - cbn [copy_loop]. unfold ret. intros Heq. apply (f_equal snd) in Heq.
    cbn [snd] in Heq. subst st. exists []. split; [constructor|].
    cbn. by rewrite app_nil_r.
  - cbn [copy_loop]. unfold bind at 1.
    destruct (copy_one dp folder s (c, w)) as [[[]|x] [c1 w1]] eqn:Hone;
      [|discriminate].
    destruct (copy_one_report _ _ _ _ _ _ Hone) as (line & Hline & Hout1).
    intros Hrest. destruct (IH _ _ Hrest) as (lines & Hlines & Hout).
    exists (line :: lines). split; [by constructor|].
    rewrite Hout. cbn [snd] in Hout1. rewrite Hout1. cbn [map concat].
    by rewrite <- !app_assoc.
Qed.

(** X4. When the copy routine returns it has printed one report line
    for each source, in the order of the batch, each being the success
    line, the missing-source line or the failure line of that source,
    then an empty line and the summary. *)
Theorem one_report_line_per_source sources folder (w w' : world E) c :
  copy_files_counted sources folder w = (Ok c, w') →
  ∃ lines,
    Forall2 (report_of folder) sources lines
    ∧ output w'
      = output w ++ concat (map (fun x => x ++ [10]) lines)
          ++ (10 :: summary_line c) ++ [10].
Proof.
  rewrite copy_files_counted_unfold.
  destruct (mkdir_parents (Path_of folder) (env w)) as [[[]|x] e1];
    [|discriminate].
  destruct (copy_loop (Path_of folder) folder sources (counters0, set_env e1 w))
    as [[[]|x] [c2 w2]] eqn:Hloop; [|discriminate].
  destruct (copy_loop_report _ _ _ _ _ _ Hloop) as (lines & Hlines & Hout).
  intros Heq. pose proof (f_equal fst Heq) as Hc.
  apply (f_equal snd) in Heq. cbn [fst] in Hc. cbn [snd] in Heq.
  injection Hc as <-. subst w'.
  exists lines. split; [exact Hlines|].
  rewrite output_write. cbn [snd] in Hout. rewrite Hout.
  change (output (set_env e1 w)) with (output w).
  by rewrite <- !app_assoc.
Qed.
End Report.

(** ** The interactive selectors *)

Section Selectors.
Context {E : Type} `{Environment E}.

Lemma stdin_write (s : str) (w : world E) : stdin (write s w) = stdin w.
Proof. unfold write. destruct (capture w); reflexivity. Qed.

Lemma write_write (s t : str) (w : world E) :
  write t (write s w) = write (s ++ t) w.
Proof.
  unfold write. destruct (capture w); cbn [capture env terminal stdin];
    by rewrite app_assoc.
Qed.

(** A loop whose body never raises and leaves the environment alone
    ends with a value of the body or with the end of the input. *)
Lemma input_loop_post {A} (Q : A → Prop) prompt
      (body : str → M (world E) (option A)) lines (w : world E) :
  (∀ l w0, match body l w0 with
           | (Ok (Some a), w1) => Q a ∧ env w1 = env w0
           | (Ok None, w1) => env w1 = env w0
           | (Raise _, _) => False
           end) →
  match input_loop prompt body lines w with
  | (Ok a, w') => Q a ∧ env w' = env w
  | (Raise e, w') => e = end_of_input ∧ env w' = env w
  end.
Proof.
  intros Hbody. revert w. induction lines as [|l rest IH]; intros w.
  - cbn [input_loop]. by rewrite env_write.
  - cbn [input_loop].
    specialize (Hbody l (mkWorld (env (write prompt w)) (terminal (write prompt w))
                                 (capture (write prompt w)) rest)).
    destruct (body l _) as [[[a|]|e] w2]; cbn [env] in Hbody.
    + by rewrite env_write in Hbody.
    + specialize (IH w2). rewrite env_write in Hbody.
      destruct (input_loop prompt body rest w2) as [[a|e] w3];
        destruct IH as [? ->]; done.
    + done.
Qed.

(** The lines rejected at first are answered by [reject] each; the first
    accepted line ends the loop. *)
Lemma input_loop_first_accepted {A} prompt reject
      (body : str → M (world E) (option A)) bad good rest a (w : world E) :
  (∀ l w0, l ∈ bad → body l w0 = (Ok None, write reject w0)) →
  (∀ w0, body good w0 = (Ok (Some a), w0)) →
  ∃ w',
    input_loop prompt body (bad ++ good :: rest) w = (Ok a, w')
    ∧ stdin w' = rest
    ∧ env w' = env w
    ∧ output w'
      = output w ++ concat (map (fun _ => prompt ++ reject) bad) ++ prompt.
Proof.
  intros Hbad Hgood. revert w. induction bad as [|l bad IH]; intros w.
  - cbn [app input_loop]. rewrite Hgood. eexists. split; [reflexivity|].
    cbn [stdin env]. rewrite env_write. repeat split.
    unfold output. cbn [capture terminal]. fold (output (write prompt w)).
    by rewrite output_write.
  - cbn [app input_loop]. rewrite Hbad by left.
    destruct (IH ltac:(intros; apply Hbad; by right)
                 (write reject
                    (mkWorld (env (write prompt w)) (terminal (write prompt w))
                             (capture (write prompt w)) (bad ++ good :: rest))))
      as (w' & -> & Hin & Henv & Hout).
    exists w'. split; [reflexivity|]. split; [exact Hin|].
    split.
    + rewrite Henv, env_write. cbn [env]. by rewrite env_write.
    + rewrite Hout, output_write. unfold output at 1. cbn [capture terminal].
      fold (output (write prompt w)). rewrite output_write.
      cbn [map concat]. by rewrite <- !app_assoc.
Qed.

Lemma select_copy_mode_unfold (w : world E) :
  select_copy_mode w
  = input_loop copy_mode_prompt
      (fun line =>
         let choice := strip line in
         if str_eqb choice (lit "1") || str_eqb choice (lit "2")
         then z <- int_ choice ;; ret (Some z)
         else _ <- print (lit "❌ 无效选项，请输入1或2。") ;; ret None)
      (stdin w) (write copy_mode_menu w).
Proof.
  unfold select_copy_mode, while_input, print. unfold bind, modify.
  rewrite !write_write, stdin_write. reflexivity.
Qed.

(** X5. [select_copy_mode] returns 1 or 2 and nothing else; it fails
    only by the end of the input; either way it leaves the file system
    and the clock alone. *)
Theorem select_copy_mode_returns_1_or_2 (w : world E) :
  match select_copy_mode w with
  | (Ok mode, w') => (mode = 1%Z ∨ mode = 2%Z) ∧ env w' = env w
  | (Raise e, w') => e = end_of_input ∧ env w' = env w
  end.
Proof.
  rewrite select_copy_mode_unfold.
  pose proof (input_loop_post (fun mode => mode = 1%Z ∨ mode = 2%Z)
                copy_mode_prompt
                (fun line =>
                   let choice := strip line in
                   if str_eqb choice (lit "1") || str_eqb choice (lit "2")
                   then z <- int_ choice ;; ret (Some z)
                   else _ <- print (lit "❌ 无效选项，请输入1或2。") ;; ret None)
                (stdin w) (write copy_mode_menu w)) as Hpost.
  rewrite env_write in Hpost. apply Hpost. clear Hpost.
  intros l w0. cbv zeta. unfold str_eqb.
  destruct (decide (strip l = lit "1")) as [->|H1].
  - rewrite bool_decide_true by done. cbn. auto.
  - rewrite (bool_decide_false _ H1). cbn [orb].
    destruct (decide (strip l = lit "2")) as [->|H2].
    + rewrite bool_decide_true by done. cbn. auto.
    + rewrite (bool_decide_false _ H2). unfold print, bind, modify, ret.
      by rewrite env_write.
Qed.

(** X6. [select_copy_mode] asks again after every line that is neither
    "1" nor "2" (white space around apart), printing one error message
    for each, and returns the first valid choice; the lines after it
    are left unread. *)
Theorem select_copy_mode_first_valid bad good rest mode (w : world E) :
  stdin w = bad ++ good :: rest →
  Forall (fun l => strip l ≠ lit "1" ∧ strip l ≠ lit "2") bad →
  (strip good = lit "1" ∧ mode = 1%Z) ∨ (strip good = lit "2" ∧ mode = 2%Z) →
  ∃ w',
    select_copy_mode w = (Ok mode, w')
    ∧ stdin w' = rest
    ∧ env w' = env w
    ∧ output w'
      = output w ++ copy_mode_menu
          ++ concat (map (fun _ => copy_mode_prompt ++ copy_mode_error) bad)
          ++ copy_mode_prompt.
Proof.
  intros Hin Hbad Hgood. rewrite select_copy_mode_unfold, Hin.
  set (body := fun line : str =>
                 let choice := strip line in
                 if str_eqb choice (lit "1") || str_eqb choice (lit "2")
                 then z <- int_ choice ;; ret (Some z)
                 else _ <- print (lit "❌ 无效选项，请输入1或2。") ;; ret None).
  assert (Hrej : ∀ l (w0 : world E),
             l ∈ bad → body l w0 = (Ok None, write copy_mode_error w0)).
  { intros l w0 Hl. subst body. cbv beta zeta. rewrite Forall_forall in Hbad.
    destruct (Hbad l Hl) as [H1 H2]. unfold str_eqb.
    rewrite (bool_decide_false _ H1), (bool_decide_false _ H2).
    reflexivity. }
  assert (Hacc : ∀ w0 : world E, body good w0 = (Ok (Some mode), w0)).
  { intros w0. subst body. cbv beta zeta.
    destruct Hgood as [[-> ->]|[-> ->]]; reflexivity. }
  destruct (input_loop_first_accepted copy_mode_prompt copy_mode_error body
              bad good rest mode (write copy_mode_menu w) Hrej Hacc)
    as (w' & Hrun & Hstdin & Henv & Hout).
  exists w'. split; [exact Hrun|]. split; [exact Hstdin|].
  split; [by rewrite Henv, env_write|].
  rewrite Hout, output_write. by rewrite <- !app_assoc.
Qed.
End Selectors.

Section PairSelectors.
Context {E : Type} `{Environment E}.

Lemma print_menu_eq i d (w : world E) :
  print_menu i d w = (Ok tt, write (menu_text i d) w).
Proof.
  revert i w. induction d as [|[k p] r IH]; intros i w.
  - cbn [print_menu menu_text]. unfold ret, write.
    destruct w as [e t [buf|] inp]; cbn [capture env terminal stdin];
      by rewrite app_nil_r.
  - cbn [print_menu menu_text]. unfold print, bind, modify.
    rewrite IH, write_write. by rewrite <- app_assoc.
Qed.

Lemma in_range_cases k :
  in_range k = true → k = 1%Z ∨ k = 2%Z ∨ k = 3%Z ∨ k = 4%Z ∨ k = 5%Z.
Proof.
  unfold in_range. change (Z.of_nat (length file_pairs)) with 5%Z.
  intros [H1 H2]%andb_true_iff. apply Z.leb_le in H1, H2. lia.
Qed.

Lemma pair_at_registered k : in_range k = true → registered file_pairs (pair_at k).
Proof.
  intros Hk. unfold registered.
  destruct (in_range_cases k Hk) as [->|[->|[->|[->| ->]]]];
    vm_compute; reflexivity.
Qed.

Lemma keys_registered : Forall (registered file_pairs) (keys file_pairs).
Proof.
  apply Forall_forall. intros x Hx%list_elem_of_In.
  assert (Hall : forallb (has_key file_pairs) (keys file_pairs) = true)
    by (vm_compute; reflexivity).
  rewrite forallb_forall in Hall. by apply Hall.
Qed.

Lemma select_file_pair_unfold (w : world E) :
  select_file_pair w
  = input_loop (lit "请输入要复制的文件对编号: ")
      (fun line =>
         try_except_ValueError
           (choice <- int_ (strip line) ;;
            if in_range choice then
              let pair_ids := keys file_pairs in
              ret (Some (nth (Z.to_nat (choice - 1)) pair_ids []))
            else
              _ <- print (lit "❌ 无效编号，请输入1到"
                            ++ str_of_N (N.of_nat (length file_pairs))
                            ++ lit "之间的数字。") ;;
              ret None)
           (_ <- print (lit "❌ 无效输入，请输入数字。") ;; ret None))
      (stdin w) (write file_pair_menu w).
Proof.
  unfold select_file_pair, while_input, print. unfold bind at 1 2, modify.
  rewrite print_menu_eq, !write_write, stdin_write. reflexivity.
Qed.

(** What one line does in the loop of [select_file_pair]. *)
Lemma file_pair_line_post l (w0 : world E) :
  match try_except_ValueError
          (choice <- int_ (strip l) ;;
           if in_range choice then
             let pair_ids := keys file_pairs in
             ret (Some (nth (Z.to_nat (choice - 1)) pair_ids []))
           else
             _ <- print (lit "❌ 无效编号，请输入1到"
                           ++ str_of_N (N.of_nat (length file_pairs))
                           ++ lit "之间的数字。") ;;
             ret None)
          (_ <- print (lit "❌ 无效输入，请输入数字。") ;; ret None) w0 with
  | (Ok (Some a), w1) => registered file_pairs a ∧ env w1 = env w0
  | (Ok None, w1) => env w1 = env w0
  | (Raise _, _) => False
  end.
Proof.
  unfold try_except_ValueError, int_, bind.
  destruct (int_of_str (strip l)) as [z|]; unfold ret, raise.
  - cbv zeta. destruct (in_range z) eqn:Hz.
    + split; [by apply pair_at_registered | done].
    + unfold print, modify. by rewrite env_write.
  - unfold print, modify, bind, ret. by rewrite env_write.
Qed.

(** X7. [select_file_pair] returns only ids of the registry, so that
    the lookup [file_pairs[pair_id]] that follows cannot fail; the
    [ValueError] of a line that is not a number never leaves it: it
    fails only by the end of the input; either way it leaves the file
    system and the clock alone. *)
Theorem select_file_pair_returns_registered (w : world E) :
  match select_file_pair w with
  | (Ok pair_id, w') => registered file_pairs pair_id ∧ env w' = env w
  | (Raise e, w') => e = end_of_input ∧ env w' = env w
  end.
Proof.
  rewrite select_file_pair_unfold.
  match goal with
  | |- context [input_loop ?p ?b ?l ?w0] =>
    pose proof (input_loop_post (registered file_pairs) p b l w0) as Hpost
  end.
  rewrite env_write in Hpost. apply Hpost. clear Hpost.
  intros l w0. apply file_pair_line_post.
Qed.

(** X8. When the first line read by [select_file_pair] is, white space
    around apart, the decimal number k with 1 <= k <= 5, the id
    returned is the k-th key of the registry, and the lines after it
    are left unread. *)
Theorem select_file_pair_kth k line rest (w : world E) :
  stdin w = line :: rest →
  strip line = str_of_Z k →
  (1 ≤ k ≤ Z.of_nat (length file_pairs))%Z →
  ∃ w',
    select_file_pair w = (Ok (pair_at k), w')
    ∧ stdin w' = rest
    ∧ env w' = env w
    ∧ output w' = output w ++ file_pair_menu ++ lit "请输入要复制的文件对编号: ".
Proof.
  intros Hin Hline Hk. rewrite select_file_pair_unfold, Hin.
  match goal with
  | |- context [input_loop ?p ?b _ ?w0] =>
    destruct (input_loop_first_accepted p [] b [] line rest (pair_at k) w0)
      as (w' & Hrun & Hstdin & Henv & Hout)
  end.
  - intros l w0 Hl. by apply not_elem_of_nil in Hl.
  - intros w0. unfold try_except_ValueError, int_, bind.
    rewrite Hline, int_of_str_of_Z. unfold ret. cbv zeta.
    assert (Hr : in_range k = true).
    { unfold in_range. apply andb_true_iff. split; apply Z.leb_le; lia. }
    by rewrite Hr.
  - exists w'. split; [exact Hrun|]. split; [exact Hstdin|].
    split; [by rewrite Henv, env_write|].
    rewrite Hout, output_write. cbn [map concat app].
    by rewrite <- !app_assoc.
Qed.
End PairSelectors.

Section WatchSelector.
Context {E : Type} `{Environment E}.

Lemma ints_of_cases l (w0 : world E) :
  (∃ zs, ints_of l w0 = (Ok zs, w0)
         ∧ Forall2 (fun f z => int_of_str (strip f) = Some z) l zs)
  ∨ (∃ msg, ints_of l w0 = (Raise (Exc ValueError msg), w0)).
Proof.
  induction l as [|f l IH]; [left; by exists []|].
  cbn [ints_of]. unfold int_, bind at 1.
  destruct (int_of_str (strip f)) as [z|] eqn:Hz; unfold ret, raise.
  - unfold bind. destruct IH as [(zs & -> & Hall)|(msg & ->)].
    + left. exists (z :: zs). split; [done|]. by constructor.
    + right. by exists msg.
  - right. by eexists.
Qed.

Lemma ints_of_numbers fs ks (w0 : world E) :
  Forall2 (fun f k => strip f = str_of_Z k) fs ks →
  ints_of fs w0 = (Ok ks, w0).
Proof.
  induction 1 as [|f k fs ks Hf _ IH]; [reflexivity|].
  cbn [ints_of]. unfold int_, bind. rewrite Hf, int_of_str_of_Z.
  unfold ret. by rewrite IH.
Qed.

Lemma collect_pairs_cases indices sel (w0 : world E) :
  (Forall (fun k => in_range k = true) indices
   ∧ collect_pairs indices sel w0 = (Ok (Some (sel ++ map pair_at indices)), w0))
  ∨ (∃ good bad more,
        indices = good ++ bad :: more
        ∧ Forall (fun k => in_range k = true) good
        ∧ in_range bad = false
        ∧ collect_pairs indices sel w0
          = (Ok None, write (out_of_range_notice bad) w0)).
Proof.
  revert sel. induction indices as [|k r IH]; intros sel.
  - left. split; [constructor|]. cbn. by rewrite app_nil_r.
  - cbn [collect_pairs]. fold (pair_at k). destruct (in_range k) eqn:Hk.
    + destruct (IH (sel ++ [pair_at k]))
        as [[Hall ->]|(good & bad & more & -> & Hgood & Hbad & ->)].
      * left. split; [by constructor|]. cbn [map].
        by rewrite <- app_assoc.
      * right. exists (k :: good), bad, more. repeat split; try done.
        by constructor.
    + right. exists [], k, r. repeat split; try done.
      unfold print, bind, modify, ret, out_of_range_notice.
      by rewrite <- !app_assoc.
Qed.

Lemma Forall2_length_eq {A B} (P : A → B → Prop) l k :
  Forall2 P l k → length l = length k.
Proof. induction 1; cbn; congruence. Qed.

Lemma split_on_not_nil sep s : split_on sep s ≠ [].
Proof.
  destruct s as [|c r]; cbn; [discriminate|].
  destruct (c =? sep); [discriminate|].
  destruct (split_on sep r); discriminate.
Qed.

Lemma select_watch_pairs_unfold (w : world E) :
  select_watch_pairs w
  = input_loop watch_pairs_prompt
      (fun line =>
         let choice := strip line in
         if str_eqb (map lower_char choice) (lit "all")
         then ret (Some (keys file_pairs))
         else
           try_except_ValueError
             (indices <- ints_of (split_on 44 choice) ;;
              collect_pairs indices [])
             (_ <- print (lit "❌ 无效输入，请输入数字编号或'all'") ;;
              ret None))
      (stdin w) (write watch_pairs_menu w).
Proof.
  unfold select_watch_pairs, while_input, print. unfold bind at 1 2 3, modify.
  rewrite print_menu_eq. unfold bind at 1, modify.
  rewrite !write_write, stdin_write. unfold watch_pairs_menu.
  by rewrite <- !app_assoc.
Qed.

(** What one line does in the loop of [select_watch_pairs]. *)
Lemma watch_line_post l (w0 : world E) :
  match (let choice := strip l in
         if str_eqb (map lower_char choice) (lit "all")
         then ret (Some (keys file_pairs))
         else
           try_except_ValueError
             (indices <- ints_of (split_on 44 choice) ;;
              collect_pairs indices [])
             (_ <- print (lit "❌ 无效输入，请输入数字编号或'all'") ;;
              ret None)) w0 with
  | (Ok (Some sel), w1) =>
    (sel ≠ [] ∧ Forall (registered file_pairs) sel) ∧ env w1 = env w0
  | (Ok None, w1) => env w1 = env w0
  | (Raise _, _) => False
  end.
Proof.
  cbv zeta.
  destruct (str_eqb (map lower_char (strip l)) (lit "all")).
  - unfold ret. split; [|done]. split; [done|]. apply keys_registered.
  - unfold try_except_ValueError, bind.
    destruct (ints_of_cases (split_on 44 (strip l)) w0)
      as [(zs & -> & Hall)|(msg & ->)].
    + destruct (collect_pairs_cases zs [] w0)
        as [[Hr ->]|(good & bad & more & -> & _ & _ & ->)].
      * split; [|done]. cbn [app]. split.
        -- apply Forall2_length_eq in Hall.
           destruct zs; [|done].
           pose proof (split_on_not_nil 44 (strip l)).
           by destruct (split_on 44 (strip l)).
        -- apply Forall_map. eapply Forall_impl; [exact Hr|].
           intros k Hk. by apply pair_at_registered.
      * by rewrite env_write.
    + unfold print, modify, ret. by rewrite env_write.
Qed.

(** X9. [select_watch_pairs] returns a list that is not empty and holds
    only ids of the registry; the [ValueError] of a field that is not a
    number never leaves it: it fails only by the end of the input;
    either way it leaves the file system and the clock alone. *)
Theorem select_watch_pairs_returns_registered (w : world E) :
  match select_watch_pairs w with
  | (Ok l, w') =>
    (l ≠ [] ∧ Forall (registered file_pairs) l) ∧ env w' = env w
  | (Raise e, w') => e = end_of_input ∧ env w' = env w
  end.
Proof.
  rewrite select_watch_pairs_unfold.
  match goal with
  | |- context [input_loop ?p ?b ?inp ?w0] =>
    pose proof (input_loop_post
                  (fun sel => sel ≠ [] ∧ Forall (registered file_pairs) sel)
                  p b inp w0) as Hpost
  end.
  rewrite env_write in Hpost. apply Hpost. clear Hpost.
  intros l w0. apply watch_line_post.
Qed.

Lemma lower_char_letter c :
  lower_char c = 97 ∨ lower_char c = 108 →
  c ≠ 44 ∧ is_space c = false ∧ size_char c = false.
Proof.
  unfold lower_char. intros Hc.
  assert (Hcases : c = 65 ∨ c = 97 ∨ c = 76 ∨ c = 108).
  { destruct ((65 <=? c) && (c <=? 90)); lia. }
  destruct Hcases as [->|[->|[->| ->]]]; done.
Qed.

(** A line of numbers is not the word [all]. *)
Lemma numbers_not_all choice ks :
  Forall2 (fun f k => strip f = str_of_Z k) (split_on 44 choice) ks →
  map lower_char choice ≠ lit "all".
Proof.
  intros Hnum Hall.
  destruct choice as [|c1 [|c2 [|c3 [|]]]]; try discriminate.
  injection Hall as H1 H2 H3.
  destruct (lower_char_letter c1 (or_introl H1)) as (Hc1 & Hs1 & Hz1).
  destruct (lower_char_letter c2 (or_intror H2)) as (Hc2 & Hs2 & Hz2).
  destruct (lower_char_letter c3 (or_intror H3)) as (Hc3 & Hs3 & Hz3).
  rewrite split_on_no_sep in Hnum.
  2: { intros Hin. repeat (apply elem_of_cons in Hin as [?|Hin]; [done|]).
       by apply not_elem_of_nil in Hin. }
  apply Forall2_cons_inv_l in Hnum as (k & ks' & Hk & _ & _).
  rewrite strip_digits in Hk by (done || by repeat constructor).
  pose proof (str_of_Z_size_chars k) as Hsz. rewrite <- Hk in Hsz.
  apply Forall_cons in Hsz as [Hsz _]. congruence.
Qed.

Lemma watch_body_selection line ks (w0 : world E) :
  Forall2 (fun f k => strip f = str_of_Z k) (split_on 44 (strip line)) ks →
  Forall (fun k => in_range k = true) ks →
  (let choice := strip line in
   if str_eqb (map lower_char choice) (lit "all")
   then ret (Some (keys file_pairs))
   else
     try_except_ValueError
       (indices <- ints_of (split_on 44 choice) ;;
        collect_pairs indices [])
       (_ <- print (lit "❌ 无效输入，请输入数字编号或'all'") ;;
        ret None)) w0
  = (Ok (Some (map pair_at ks)), w0).
Proof.
  intros Hnum Hr. cbv zeta. unfold str_eqb.
  rewrite (bool_decide_false _ (numbers_not_all _ _ Hnum)).
  unfold try_except_ValueError, bind. rewrite (ints_of_numbers _ _ _ Hnum).
  destruct (collect_pairs_cases ks [] w0)
    as [[_ ->]|(good & bad & more & -> & _ & Hbad & _)]; [reflexivity|].
  apply Forall_app in Hr as [_ Hr]. apply Forall_cons in Hr as [Hr _].
  congruence.
Qed.

Lemma watch_body_out_of_range line good bad more (w0 : world E) :
  Forall2 (fun f k => strip f = str_of_Z k) (split_on 44 (strip line))
          (good ++ bad :: more) →
  Forall (fun k => in_range k = true) good →
  in_range bad = false →
  (let choice := strip line in
   if str_eqb (map lower_char choice) (lit "all")
   then ret (Some (keys file_pairs))
   else
     try_except_ValueError
       (indices <- ints_of (split_on 44 choice) ;;
        collect_pairs indices [])
       (_ <- print (lit "❌ 无效输入，请输入数字编号或'all'") ;;
        ret None)) w0
  = (Ok None, write (out_of_range_notice bad) w0).
Proof.
  intros Hnum Hgood Hbad. cbv zeta. unfold str_eqb.
  rewrite (bool_decide_false _ (numbers_not_all _ _ Hnum)).
  unfold try_except_ValueError, bind. rewrite (ints_of_numbers _ _ _ Hnum).
  destruct (collect_pairs_cases (good ++ bad :: more) [] w0)
    as [[Hall _]|(good' & bad' & more' & Heq & Hgood' & Hbad' & ->)].
  - apply Forall_app in Hall as [_ Hall]. apply Forall_cons in Hall as [Hall _].
    congruence.
  - assert (bad' = bad) as ->; [|done].
    clear -Heq Hgood Hbad Hgood' Hbad'.
    revert good' Heq Hgood'. induction Hgood as [|g good Hg _ IH]; intros good' Heq Hgood'.
    + destruct good' as [|g' good']; cbn in Heq; [congruence|].
      injection Heq as <- _. apply Forall_cons in Hgood' as [? _]. congruence.
    + destruct good' as [|g' good']; cbn in Heq.
      * injection Heq as -> _. congruence.
      * injection Heq as <- Heq. apply Forall_cons in Hgood' as [_ ?].
        by eapply IH.
Qed.

(** X10. When the first line read by [select_watch_pairs] is a list of
    numbers between 1 and 5 separated by commas (white space around
    each number apart), the ids returned are those at these positions
    of the registry, in the order typed and with the repetitions
    typed; the lines after it are left unread. *)
Theorem select_watch_pairs_selection line ks rest (w : world E) :
  stdin w = line :: rest →
  Forall2 (fun f k => strip f = str_of_Z k) (split_on 44 (strip line)) ks →
  Forall (fun k => in_range k = true) ks →
  ∃ w',
    select_watch_pairs w = (Ok (map pair_at ks), w')
    ∧ stdin w' = rest
    ∧ env w' = env w
    ∧ output w' = output w ++ watch_pairs_menu ++ watch_pairs_prompt.
Proof.
  intros Hin Hnum Hr. rewrite select_watch_pairs_unfold, Hin.
  match goal with
  | |- context [input_loop ?p ?b _ ?w0] =>
    destruct (input_loop_first_accepted p [] b [] line rest (map pair_at ks) w0)
      as (w' & Hrun & Hstdin & Henv & Hout)
  end.
  - intros l w0 Hl. by apply not_elem_of_nil in Hl.
  - intros w0. by apply watch_body_selection.
  - exists w'. split; [exact Hrun|]. split; [exact Hstdin|].
    split; [by rewrite Henv, env_write|].
    rewrite Hout, output_write. cbn [map concat app].
    by rewrite <- !app_assoc.
Qed.

(** X11. A line of numbers one of which is out of range is rejected as
    a whole by [select_watch_pairs]: the first number out of range is
    reported, the numbers in range typed before it select nothing, and
    the next line is read; here it is a valid list and gives the
    result.  The numbers of the rejected line are written with 4300
    characters at most, the length up to which [int] converts any
    decimal. *)
Theorem select_watch_pairs_rejects_whole_line
        line1 good bad more line2 ks rest (w : world E) :
  stdin w = line1 :: line2 :: rest →
  Forall (fun f => (length f ≤ 4300)%nat) (split_on 44 (strip line1)) →
  Forall2 (fun f k => strip f = str_of_Z k) (split_on 44 (strip line1))
          (good ++ bad :: more) →
  Forall (fun k => in_range k = true) good →
  in_range bad = false →
  Forall2 (fun f k => strip f = str_of_Z k) (split_on 44 (strip line2)) ks →
  Forall (fun k => in_range k = true) ks →
  ∃ w',
    select_watch_pairs w = (Ok (map pair_at ks), w')
    ∧ stdin w' = rest
    ∧ env w' = env w
    ∧ output w'
      = output w ++ watch_pairs_menu
          ++ watch_pairs_prompt ++ out_of_range_notice bad
          ++ watch_pairs_prompt.
Proof.
  intros Hin _ Hnum1 Hgood Hbad Hnum2 Hr.
  rewrite select_watch_pairs_unfold, Hin.
  match goal with
  | |- context [input_loop ?p ?b _ ?w0] =>
    destruct (input_loop_first_accepted p (out_of_range_notice bad) b
                [line1] line2 rest (map pair_at ks) w0)
      as (w' & Hrun & Hstdin & Henv & Hout)
  end.
  - intros l w0 ->%list_elem_of_singleton.
    by apply (watch_body_out_of_range line1 good bad more).
  - intros w0. by apply watch_body_selection.
  - exists w'. split; [exact Hrun|]. split; [exact Hstdin|].
    split; [by rewrite Henv, env_write|].
    rewrite Hout, output_write. cbn [map concat app].
    rewrite app_nil_r. by rewrite <- !app_assoc.
Qed.
End WatchSelector.

(** ** The change handler *)

Lemma fold_insert_lookup (l : list str) (m : gmap str Q) pid :
  fold_left (fun m pair_id => <[pair_id := 0%Q]> m) l m !! pid
  = if decide (pid ∈ l) then Some 0%Q else m !! pid.
Proof.
  revert m. induction l as [|x l IH]; intros m; [done|].
  cbn [fold_left]. rewrite IH.
  destruct (decide (pid ∈ l)) as [Hin|Hnin].
  - rewrite decide_True; [done | by right].
  - destruct (decide (pid = x)) as [->|Hne].
    + rewrite decide_True by left. by rewrite lookup_insert_eq.
    + rewrite decide_False.
      * by rewrite lookup_insert_ne.
      * by intros [?|?]%elem_of_cons.
Qed.

(** X12. The handler built by [__init__] watches the list it is given,
    or every pair of the registry when it is given none or an empty
    one; each watched pair starts with the timestamp 0 and no other id
    has a timestamp. *)
Theorem new_handler_timestamps reg watch_pairs pid :
  let h := new_handler reg watch_pairs in
  h_watch_pairs h = match watch_pairs with
                    | None | Some [] => keys reg
                    | Some l => l
                    end
  ∧ last_triggered h !! pid
    = (if decide (pid ∈ h_watch_pairs h) then Some 0%Q else None).
Proof.
  cbv zeta. unfold new_handler. cbn [h_watch_pairs last_triggered].
  split; [reflexivity|]. by rewrite fold_insert_lookup.
Qed.

Lemma new_handler_timestamped reg watch_pairs :
  timestamped (new_handler reg watch_pairs).
Proof.
  intros pid Hin. unfold new_handler in *. cbn [h_watch_pairs last_triggered] in *.
  rewrite fold_insert_lookup. by rewrite decide_True.
Qed.

Section HandlerFailures.
Context {E : Type} `{Environment E}.

(** X13. Directory events, and events on a file that no watched pair
    of the registry lists, are ignored by [on_modified]: nothing is
    printed, the clock is not read and the handler is left as it
    was. *)
Theorem unlisted_events_are_ignored ev (h : FileChangeHandler) (w : world E) :
  is_directory ev = true
  ∨ Forall (fun q => listed (h_file_pairs h) (Path_of (src_path ev)) q = false)
           (h_watch_pairs h) →
  on_modified ev (h, w) = (Ok tt, (h, w)).
Proof.
  destruct (is_directory ev) eqn:Hdir.
  - intros _. unfold on_modified. by rewrite Hdir.
  - intros [?|Hun]; [done|].
    rewrite on_modified_unfold by done.
    by rewrite scan_pairs_all_unlisted.
Qed.

Hypothesis Hos : os_errors_only E.

Lemma copy_attempt_raises dp folder s (c : counters) (w : world E) x st :
  copy_attempt dp folder s (c, w) = (Raise x, st) → is_OSError x.
Proof.
  unfold copy_attempt. unfold_effects.
  env_step.
  2: { intros [= <- _]. by eapply (proj1 (Hos _ _ _)). }
  destruct a; cbn [negb]; [|discriminate].
  env_step.
  2: { intros [= <- _]. by eapply (proj1 (proj2 (Hos _ _ _))). }
  env_step.
  2: { intros [= <- _]. by eapply (proj1 (Hos _ _ _)). }
  destruct a0.
  - env_step.
    2: { intros [= <- _]. by eapply (proj1 (proj2 (Hos _ _ _))). }
    env_step.
    2: { intros [= <- _].
         by eapply (proj1 (proj2 (proj2 (proj2 (Hos _ _ _))))). }
    env_step; [discriminate|].
    intros [= <- _]. by eapply (proj1 (proj2 (Hos _ _ _))).
  - env_step.
    2: { intros [= <- _].
         by eapply (proj1 (proj2 (proj2 (proj2 (Hos _ _ _))))). }
    env_step; [discriminate|].
    intros [= <- _]. by eapply (proj1 (proj2 (Hos _ _ _))).
Qed.

Lemma copy_one_returns dp folder s (c : counters) (w : world E) :
  ∃ st, copy_one dp folder s (c, w) = (Ok tt, st).
Proof.
  unfold copy_one, try_except.
  destruct (copy_attempt dp folder s (c, w)) as [[[]|x] st] eqn:Hatt;
    [by eexists|].
  destruct (copy_attempt_raises _ _ _ _ _ _ _ Hatt) as [msg ->].
  unfold_effects. by eexists.
Qed.

Lemma copy_loop_returns dp folder l (c : counters) (w : world E) :
  ∃ st, copy_loop dp folder l (c, w) = (Ok tt, st).
Proof.
  revert c w. induction l as [|s l IH]; intros c w; [by eexists|].
  cbn [copy_loop]. unfold bind at 1.
  destruct (copy_one_returns dp folder s c w) as [[c1 w1] ->]. apply IH.
Qed.

(** The routine fails only by the [OSError] of creating the destination
    directory. *)
Lemma copy_files_with_replace_raises sources folder (w w' : world E) x :
  copy_files_with_replace sources folder w = (Raise x, w') → is_OSError x.
Proof.
  rewrite copy_files_with_replace_counted, copy_files_counted_unfold.
  destruct (mkdir_parents (Path_of folder) (env w)) as [[[]|y] e1] eqn:Hmk.
  - destruct (copy_loop_returns (Path_of folder) folder sources counters0
                                (set_env e1 w)) as [[c2 w2] ->].
    discriminate.
  - intros [= <- _].
    by eapply (proj1 (proj2 (proj2 (Hos _ _ _)))).
Qed.

Lemma timestamped_fired pid t h : timestamped h → timestamped (fired pid t h).
Proof.
  intros Hts q Hq. cbn [fired h_watch_pairs last_triggered] in *.
  destruct (decide (pid = q)) as [->|Hne].
  - rewrite lookup_insert_eq. by eexists.
  - rewrite lookup_insert_ne by done. by apply Hts.
Qed.

Lemma trigger_fails_only_by_OSError pid p fp (h : FileChangeHandler)
      (w : world E) :
  pid ∈ h_watch_pairs h →
  timestamped h →
  match trigger pid p fp (h, w) with
  | (Ok _, (h', _)) => timestamped h' ∧ h_watch_pairs h' = h_watch_pairs h
  | (Raise x, (h', _)) =>
    is_OSError x ∧ timestamped h' ∧ h_watch_pairs h' = h_watch_pairs h
  end.
Proof.
  intros Hin Hts. rewrite trigger_unfold.
  destruct (time_time (env w)) as [[t|x] e1] eqn:Htime.
  2: { exfalso. by eapply (proj2 (proj2 (proj2 (proj2 (Hos _ _ _))))). }
  destruct (Hts pid Hin) as [lt ->].
  destruct (Qltb (t - lt) 2); [done|].
  destruct (copy_files_with_replace _ _ _) as [[[]|x] w'] eqn:Hcopy.
  - split; [by apply timestamped_fired | done].
  - split; [by eapply copy_files_with_replace_raises|].
    split; [by apply timestamped_fired | done].
Qed.

Lemma scan_pairs_fails_only_by_OSError reg fp l (h : FileChangeHandler)
      (w : world E) :
  l ⊆ h_watch_pairs h →
  timestamped h →
  match scan_pairs reg fp l (h, w) with
  | (Ok _, (h', _)) => timestamped h'
  | (Raise x, (h', _)) => is_OSError x ∧ timestamped h'
  end.
Proof.
  revert h w. induction l as [|pid l IH]; intros h w Hsub Hts; [done|].
  assert (Hin : pid ∈ h_watch_pairs h) by (apply Hsub; left).
  assert (Hsub' : l ⊆ h_watch_pairs h).
  { intros q Hq. apply Hsub. by right. }
  destruct (listed reg fp pid) eqn:Hl.
  - pose proof Hl as Hl'. unfold listed in Hl'.
    destruct (lookup_pair reg pid) as [p|] eqn:Hp; [|discriminate].
    rewrite (scan_pairs_listed _ _ _ _ _ _ Hp Hl).
    pose proof (trigger_fails_only_by_OSError pid p fp h w Hin Hts) as Htr.
    destruct (trigger pid p fp (h, w)) as [[[]|x] [h1 w1]].
    + destruct Htr as [Hts1 Hw1]. apply IH; [by rewrite Hw1 | done].
    + by destruct Htr.
    + destruct Htr as (? & ? & _). done.
  - rewrite scan_pairs_unlisted by done. by apply IH.
Qed.

(** X14. In an environment whose file-system calls fail only by
    [OSError] and whose clock can be read, [on_modified] on a handler
    whose watched pairs all have a timestamp (as after [__init__])
    fails only by an [OSError] (that of creating a destination
    directory), never by the [KeyError] of a missing timestamp; the
    watched pairs keep having a timestamp, the registry and the watch
    list do not change. *)
Theorem on_modified_fails_only_by_OSError
        ev (h : FileChangeHandler) (w : world E) :
  timestamped h →
  let h' := fst (snd (on_modified ev (h, w))) in
  timestamped h'
  ∧ h_file_pairs h' = h_file_pairs h
  ∧ h_watch_pairs h' = h_watch_pairs h
  ∧ ∀ x, fst (on_modified ev (h, w)) = Raise x → is_OSError x.
Proof.
  intros Hts. cbv zeta.
  destruct (is_directory ev) eqn:Hdir.
  { unfold on_modified. rewrite Hdir. cbn. repeat split; try done. }
  rewrite on_modified_unfold by done.
  pose proof (scan_pairs_fails_only_by_OSError
                (h_file_pairs h) (Path_of (src_path ev)) (h_watch_pairs h)
                h w ltac:(done) Hts) as Hscan.
  pose proof (scan_pairs_config (h_file_pairs h) (Path_of (src_path ev))
                                (h_watch_pairs h) (h, w)) as [Hreg Hwatch].
  destruct (scan_pairs _ _ _ _) as [[f|x] [h1 w1]]; cbn [fst snd] in *.
  - repeat split; try done.
  - destruct Hscan as [Hx Hts1]. repeat split; try done.
    by intros y [= <-].
Qed.
End HandlerFailures.

(** ** Starting the monitor *)

Lemma add_dirs_spec l acc :
  NoDup acc →
  NoDup (add_dirs l acc)
  ∧ ∀ d, d ∈ add_dirs l acc ↔ d ∈ acc ∨ ∃ s, s ∈ l ∧ d = source_dir s.
Proof.
  revert acc. induction l as [|s l IH]; intros acc Hnd.
  - split; [done|]. intros d. split; [by left|].
    intros [?|(s & Hs & _)]; [done|]. by apply not_elem_of_nil in Hs.
  - cbn [add_dirs]. fold (source_dir s). case_bool_decide as Hin.
    + destruct (IH acc Hnd) as [Hnd' Hel]. split; [done|].
      intros d. rewrite Hel. split.
      * intros [?|(s' & Hs' & ->)]; [by left|]. right. exists s'.
        split; [by right | done].
      * intros [?|(s' & [->|Hs']%elem_of_cons & ->)]; [by left | by left |].
        right. by exists s'.
    + assert (Hnd1 : NoDup (acc ++ [source_dir s])).
      { apply NoDup_app. split; [done|]. split; [|apply NoDup_singleton].
        intros d Hd ->%list_elem_of_singleton. done. }
      destruct (IH _ Hnd1) as [Hnd' Hel]. split; [done|].
      intros d. rewrite Hel, elem_of_app, list_elem_of_singleton. split.
      * intros [[?| ->]|(s' & Hs' & ->)]; [by left | |].
        -- right. exists s. split; [left | done].
        -- right. exists s'. split; [by right | done].
      * intros [?|(s' & [->|Hs']%elem_of_cons & ->)];
          [by left; left | by left; right |].
        right. by exists s'.
Qed.

Lemma scheduled_dirs_spec reg watch acc :
  NoDup acc →
  NoDup (scheduled_dirs reg watch acc)
  ∧ ∀ d, d ∈ scheduled_dirs reg watch acc
         ↔ d ∈ acc
           ∨ ∃ pid p s, pid ∈ watch ∧ lookup_pair reg pid = Some p
                        ∧ s ∈ source_files p ∧ d = source_dir s.
Proof.
  revert acc. induction watch as [|pid watch IH]; intros acc Hnd.
  - split; [done|]. intros d. split; [by left|].
    intros [?|(pid & p & s & Hp & _)]; [done|]. by apply not_elem_of_nil in Hp.
  - cbn [scheduled_dirs]. destruct (lookup_pair reg pid) as [p|] eqn:Hp.
    + destruct (add_dirs_spec (source_files p) acc Hnd) as [Hnd1 Hel1].
      destruct (IH _ Hnd1) as [Hnd' Hel]. split; [done|].
      intros d. rewrite Hel, Hel1. split.
      * intros [[?|(s & Hs & ->)]|(pid' & p' & s & Hin & Hp' & Hs & ->)].
        -- by left.
        -- right. exists pid, p, s. repeat split; try done. left.
        -- right. exists pid', p', s. repeat split; try done. by right.
      * intros [?|(pid' & p' & s & [->|Hin]%elem_of_cons & Hp' & Hs & ->)].
        -- by left; left.
        -- left. right. exists s. split; [congruence | done].
        -- right. by exists pid', p', s.
    + destruct (IH _ Hnd) as [Hnd' Hel]. split; [done|].
      intros d. rewrite Hel. split.
      * intros [?|(pid' & p' & s & Hin & Hp' & Hs & ->)]; [by left|].
        right. exists pid', p', s. repeat split; try done. by right.
      * intros [?|(pid' & p' & s & [->|Hin]%elem_of_cons & Hp' & Hs & ->)];
          [by left | congruence |].
        right. by exists pid', p', s.
Qed.

Section Monitor.
Context {E : Type} `{Environment E}.

Lemma print_watched_env reg watch (w : world E) :
  env (snd (print_watched reg watch w)) = env w.
Proof.
  revert w. induction watch as [|pid watch IH]; intros w; [done|].
  cbn [print_watched]. destruct (lookup_pair reg pid) as [p|]; [|done].
  unfold print, bind, modify. rewrite IH. by rewrite !env_write.
Qed.

Lemma print_watched_registered reg watch (w : world E) :
  Forall (registered reg) watch → fst (print_watched reg watch w) = Ok tt.
Proof.
  intros Hall. revert w. induction Hall as [|pid watch Hpid _ IH]; intros w;
    [done|].
  cbn [print_watched]. unfold registered, has_key in Hpid.
  destruct (lookup_pair reg pid) as [p|]; [|discriminate].
  unfold print, bind, modify. apply IH.
Qed.

Lemma print_watched_unknown reg pre bad post (w : world E) :
  Forall (registered reg) pre →
  has_key reg bad = false →
  fst (print_watched reg (pre ++ bad :: post) w) = Raise (Exc KeyError bad).
Proof.
  intros Hall Hbad. revert w. induction Hall as [|pid pre Hpid _ IH]; intros w.
  - cbn [app print_watched]. unfold has_key in Hbad.
    by destruct (lookup_pair reg bad).
  - cbn [app print_watched]. unfold registered, has_key in Hpid.
    destruct (lookup_pair reg pid) as [p|]; [|discriminate].
    unfold print, bind, modify. apply IH.
Qed.

Lemma start_auto_monitor_unfold reg watch (w : world E) :
  start_auto_monitor reg (Some watch) w
  = match print_watched reg watch
            (write ((10 :: lit "🔄 启动自动文件监控模式...") ++ [10]
                      ++ lit "监控的文件对:" ++ [10]) w) with
    | (Raise x, w1) => (Raise x, w1)
    | (Ok _, w1) =>
      let w2 := write ((10 :: lit "按 Ctrl+C 停止监控" ++ [10]) ++ [10]) w1 in
      match observer_start (scheduled_dirs reg watch []) (env w2) with
      | (Ok _, e') =>
        (Ok (Watching (new_handler reg (Some watch))
                      (scheduled_dirs reg watch [])),
         set_env e' w2)
      | (Raise x, e') => (Raise x, set_env e' w2)
      end
    end.
Proof.
  unfold start_auto_monitor, print. unfold bind at 1 2, modify.
  rewrite write_write. rewrite <- app_assoc. unfold bind at 1.
  destruct (print_watched reg watch _) as [[[]|x] w1]; [|reflexivity].
  unfold bind, modify, in_env, ret, set_env.
  cbv zeta.
  destruct (observer_start _ _) as [[[]|x] e']; reflexivity.
Qed.

(** X15. [start_auto_monitor] handed a list with an id that is not in
    the registry fails by the [KeyError] of the first such id while it
    prints the watched pairs: no directory has been scheduled and the
    observer is not started. *)
Theorem start_auto_monitor_unknown_pair reg pre bad post (w : world E) :
  Forall (registered reg) pre →
  has_key reg bad = false →
  ∃ w',
    start_auto_monitor reg (Some (pre ++ bad :: post)) w
    = (Raise (Exc KeyError bad), w')
    ∧ env w' = env w.
Proof.
  intros Hpre Hbad. rewrite start_auto_monitor_unfold.
  match goal with
  | |- context [print_watched reg ?l ?w0] =>
    pose proof (print_watched_unknown reg pre bad post w0 Hpre Hbad) as Hr;
    pose proof (print_watched_env reg l w0) as He
  end.
  destruct (print_watched reg _ _) as [r w1]. cbn [fst snd] in *. subst r.
  exists w1. split; [done|]. by rewrite He, env_write.
Qed.

(** X16. [start_auto_monitor] handed ids of the registry schedules each
    directory that holds a source file of a watched pair, once, and
    nothing else, then starts the observer with the handler of the
    given list; nothing but the observer touches the environment. *)
Theorem start_auto_monitor_schedules reg watch (w : world E) :
  Forall (registered reg) watch →
  let dirs := scheduled_dirs reg watch [] in
  NoDup dirs
  ∧ (∀ d, d ∈ dirs
          ↔ ∃ pid p s, pid ∈ watch ∧ lookup_pair reg pid = Some p
                       ∧ s ∈ source_files p ∧ d = source_dir s)
  ∧ ∃ w1,
      env w1 = env w
      ∧ start_auto_monitor reg (Some watch) w
        = match observer_start dirs (env w) with
          | (Ok _, e') =>
            (Ok (Watching (new_handler reg (Some watch)) dirs), set_env e' w1)
          | (Raise x, e') => (Raise x, set_env e' w1)
          end.
Proof.
  intros Hall. cbv zeta.
  destruct (scheduled_dirs_spec reg watch [] (NoDup_nil_2)) as [Hnd Hel].
  split; [done|]. split.
  - intros d. rewrite Hel. split; [|by right].
    intros [Hd|?]; [|done]. by apply not_elem_of_nil in Hd.
  - rewrite start_auto_monitor_unfold.
    match goal with
    | |- context [print_watched reg ?l ?w0] =>
      pose proof (print_watched_registered reg l w0 Hall) as Hr;
      pose proof (print_watched_env reg l w0) as He
    end.
    destruct (print_watched reg _ _) as [r w1]. cbn [fst snd] in *. subst r.
    cbv zeta. rewrite env_write, He, env_write.
    eexists. split; [|reflexivity]. by rewrite env_write, He, env_write.
Qed.
End Monitor.

(** X17. Every file whose modification the handler of a watch list acts
    on lies in one of the directories scheduled for that list. *)
Theorem handled_files_are_watched reg watch fp pid :
  pid ∈ watch →
  listed reg fp pid = true →
  str_of_Path (parent fp) ∈ scheduled_dirs reg watch [].
Proof.
  intros Hin Hl. unfold listed in Hl.
  destruct (lookup_pair reg pid) as [p|] eqn:Hp; [|discriminate].
  apply existsb_exists in Hl as (s & Hs & Heq).
  unfold Path_eqb in Heq. apply bool_decide_eq_true in Heq as ->.
  apply (scheduled_dirs_spec reg watch [] NoDup_nil_2). right.
  exists pid, p, s. repeat split; try done. by apply list_elem_of_In.
Qed.

(** ** The entry point *)

Section EntryPointFurther.
Context {E : Type} `{Environment E}.

(** X18. In manual mode, when the operator chooses one pair, the id
    handed back by [select_file_pair] is always found in the registry
    (no [KeyError]), and the program is the copy of that pair after
    its heading. *)
Theorem main_copies_the_selected_pair (a : args) (w w1 w2 : world E) pair_id :
  auto a = false →
  select_copy_mode w = (Ok 1%Z, w1) →
  select_file_pair w1 = (Ok pair_id, w2) →
  ∃ p,
    lookup_pair file_pairs pair_id = Some p
    ∧ main a w
      = match copy_files_with_replace (source_files p) (target_folder p)
                                      (write (single_pair_heading p) w2) with
        | (Ok _, w3) => (Ok Completed, w3)
        | (Raise x, w3) => (Raise x, w3)
        end.
Proof.
  intros Hauto Hmode Hsel.
  assert (Hreg : registered file_pairs pair_id).
  { revert Hsel. rewrite select_file_pair_unfold.
    match goal with
    | |- context [input_loop ?p ?b ?l ?w0] =>
      pose proof (input_loop_post (registered file_pairs) p b l w0
                                  file_pair_line_post) as Hpost
    end.
    intros Hsel. rewrite Hsel in Hpost. by destruct Hpost. } unfold registered, has_key in Hreg.
  destruct (lookup_pair file_pairs pair_id) as [p|] eqn:Hp; [|discriminate].
  exists p. split; [reflexivity|].
  unfold main. rewrite Hauto. unfold bind at 1. rewrite Hmode.
  cbn [Z.eqb Pos.eqb]. unfold bind at 1. rewrite Hsel, Hp.
  unfold print, bind, modify, ret. unfold single_pair_heading.
  by destruct (copy_files_with_replace _ _ _) as [[[]|x] w3].
Qed.

Lemma filter_nil_Forall {A} (f : A → bool) (l : list A) :
  filter (fun x => f x = false) l = [] → Forall (fun x => f x = true) l.
Proof.
  induction l as [|x l IH]; [constructor|].
  rewrite filter_cons. destruct (decide (f x = false)) as [?|Hx]; [done|].
  intros Hl. constructor; [by destruct (f x) | by apply IH].
Qed.

(** X19. In watch mode the program touches neither the file system nor
    the clock before the monitor is started, and it starts the monitor
    only on a list of ids that is not empty and holds only ids of the
    registry; otherwise it has ended with exit code 1 (an unknown id in
    [--pairs]) or by the end of the input (interactive selection). *)
Theorem main_watches_registered_pairs (a : args) (w : world E) :
  auto a = true →
  (∃ w', main a w = (Raise (SystemExit 1), w') ∧ env w' = env w)
  ∨ (∃ w', main a w = (Raise end_of_input, w') ∧ env w' = env w)
  ∨ (∃ l w1,
        l ≠ [] ∧ Forall (registered file_pairs) l ∧ env w1 = env w
        ∧ main a w = start_auto_monitor file_pairs (Some l) w1).
Proof.
  intros Hauto. unfold main. rewrite Hauto.
  destruct (pairs_given a) as [s|].
  - fold (invalid_pairs s).
    destruct (invalid_pairs s) as [|x l] eqn:Hinv.
    + right. right. exists (split_on 44 s), w. unfold bind, ret.
      split; [apply split_on_not_nil|]. split; [|done].
      apply (filter_nil_Forall (has_key file_pairs)). exact Hinv.
    + left. eexists. unfold bind, print, modify, raise.
      split; [reflexivity|]. by rewrite env_write.
  - unfold bind.
    assert (Hpost : match select_watch_pairs w with
                    | (Ok l, w') =>
                      (l ≠ [] ∧ Forall (registered file_pairs) l)
                      ∧ env w' = env w
                    | (Raise e, w') => e = end_of_input ∧ env w' = env w
                    end).
    { rewrite select_watch_pairs_unfold.
      match goal with
      | |- context [input_loop ?p ?b ?inp ?w0] =>
        pose proof (input_loop_post
                      (fun sel => sel ≠ [] ∧ Forall (registered file_pairs) sel)
                      p b inp w0 watch_line_post) as Hp
      end.
      by rewrite env_write in Hp. }
    destruct (select_watch_pairs w) as [[l|x] w1].
    + destruct Hpost as [[Hne Hreg] Henv]. right. right. exists l, w1.
      split; [exact Hne|]. split; [exact Hreg|]. split; [exact Henv|].
      reflexivity.
    + destruct Hpost as [-> Henv]. right. left. exists w1.
      split; [reflexivity | exact Henv].
Qed.

(** While [sys.stdout] is redirected the routine writes nothing on the
    terminal and leaves the redirection in place. *)
Lemma copy_files_counted_captured sources folder (w : world E) :
  is_Some (capture w) →
  is_Some (capture (snd (copy_files_counted sources folder w)))
  ∧ terminal (snd (copy_files_counted sources folder w)) = terminal w.
Proof.
  intros Hcap.
  apply (copy_files_counted_invariant
           (fun w' => is_Some (capture w') ∧ terminal w' = terminal w)).
  - intros t w0 [[buf Hbuf] Ht]. unfold write. rewrite Hbuf.
    cbn [capture terminal]. split; [by eexists | done].
  - intros p w0 HJ. exact HJ.
  - intros p w0 HJ. exact HJ.
  - intros w0 HJ. exact HJ.
  - intros s w0 _ HJ. exact HJ.
  - done.
Qed.

Lemma write_terminal t (w : world E) :
  capture w = None →
  terminal (write t w) = terminal w ++ t ∧ capture (write t w) = None.
Proof. intros Hcap. unfold write. by rewrite Hcap. Qed.

Lemma copy_pair_parsed_unfold p totals (w : world E) :
  copy_pair_parsed p totals w
  = let w0 := write (pair_heading p) w in
    let w1 := mkWorld (env w0) (terminal w0) (Some []) (stdin w0) in
    match copy_files_counted (source_files p) (target_folder p) w1 with
    | (Raise x, w2) => (Raise x, w2)
    | (Ok _, w2) =>
      let w3 := mkWorld (env w2) (terminal w2) (capture w0) (stdin w2) in
      match parse_counts (captured_text w2) with
      | Raise x => (Raise x, w3)
      | Ok None => (Ok totals, w3)
      | Ok (Some (success, error)) =>
        (Ok ((fst totals + success)%Z, (snd totals + error)%Z), w3)
      end
    end.
Proof.
  unfold copy_pair_parsed, print, set_capture.
  unfold bind, get, modify, ret, raise.
  cbn [fst snd capture env terminal stdin].
  rewrite copy_files_with_replace_counted. cbv zeta.
  unfold pair_heading.
  destruct (copy_files_counted _ _ _) as [[c|x] w2]; [|reflexivity].
  cbn [fst snd capture env terminal stdin].
  destruct (parse_counts (captured_text w2)) as [[[su er]|]|x]; reflexivity.
Qed.

Lemma copy_pair_parsed_terminal p totals (w : world E) :
  capture w = None →
  terminal (snd (copy_pair_parsed p totals w)) = terminal w ++ pair_heading p
  ∧ (∀ t, fst (copy_pair_parsed p totals w) = Ok t →
          capture (snd (copy_pair_parsed p totals w)) = None).
Proof.
  intros Hcap. rewrite copy_pair_parsed_unfold. cbv zeta.
  set (w0 := write (pair_heading p) w).
  assert (Hw0 : terminal w0 = terminal w ++ pair_heading p ∧ capture w0 = None).
  { subst w0. unfold write. by rewrite Hcap. }
  destruct Hw0 as [Ht0 Hc0].
  set (w1 := mkWorld (env w0) (terminal w0) (Some []) (stdin w0)).
  destruct (copy_files_counted_captured (source_files p) (target_folder p) w1)
    as [Hc2 Ht2]; [by eexists|].
  destruct (copy_files_counted _ _ w1) as [[c|x] w2]; cbn [fst snd] in *.
  - destruct (parse_counts (captured_text w2)) as [[[su er]|]|x];
      cbn [fst snd terminal capture]; rewrite Ht2; (split; [done|]);
        by intros.
  - split; [by rewrite Ht2|]. by intros.
Qed.

Lemma copy_pairs_parsed_terminal d totals (w w' : world E) t :
  capture w = None →
  copy_pairs_parsed d totals w = (Ok t, w') →
  terminal w' = terminal w ++ concat (map (fun kp => pair_heading (snd kp)) d)
  ∧ capture w' = None.
Proof.
  revert totals w. induction d as [|[k p] d IH]; intros totals w Hcap.
  - cbn. intros [= _ <-]. by rewrite app_nil_r.
  - cbn [copy_pairs_parsed]. unfold bind.
    destruct (copy_pair_parsed_terminal p totals w Hcap) as [Ht Hc].
    destruct (copy_pair_parsed p totals w) as [[t1|x] w1]; [|discriminate].
    cbn [fst snd] in *. intros Hrest.
    destruct (IH t1 w1 (Hc t1 eq_refl) Hrest) as [Ht' Hc'].
    split; [|done]. rewrite Ht', Ht. cbn [map concat snd].
    by rewrite <- !app_assoc.
Qed.

(** X20. In the "copy all pairs" branch the report lines of the files
    and the summary of each pair are captured and never shown: when the
    branch ends, the terminal has received the heading, one line for
    each pair of the registry and the grand total, and nothing else;
    [sys.stdout] is the terminal again. *)
Theorem all_pairs_shows_only_headings d (w w' : world E) :
  capture w = None →
  copy_all_pairs d w = (Ok tt, w') →
  ∃ totals,
    terminal w'
    = terminal w ++ all_pairs_heading
        ++ concat (map (fun kp => pair_heading (snd kp)) d)
        ++ (10 :: grand_total_line totals) ++ [10]
    ∧ capture w' = None.
Proof.
  intros Hcap. unfold copy_all_pairs, print. unfold bind at 1, modify.
  set (w0 := write _ w).
  assert (Hw0 : terminal w0 = terminal w ++ all_pairs_heading ∧ capture w0 = None).
  { subst w0. unfold write. by rewrite Hcap. }
  destruct Hw0 as [Ht0 Hc0]. unfold bind.
  destruct (copy_pairs_parsed d (0%Z, 0%Z) w0) as [[totals|x] w1] eqn:Hrun;
    [|discriminate].
  destruct (copy_pairs_parsed_terminal _ _ _ _ _ Hc0 Hrun) as [Ht1 Hc1].
  intros Heq. apply (f_equal snd) in Heq. unfold snd in Heq. subst w'.
  exists totals.
  destruct (write_terminal ((10 :: grand_total_line totals) ++ [10]) w1 Hc1)
    as [-> ->].
  split; [|done]. rewrite Ht1, Ht0. by rewrite <- !app_assoc.
Qed.

(** X21. The redirection of [sys.stdout] is not undone when the copy of
    a pair raises: with file-system messages that are plain, when the
    step of a pair in the "copy all pairs" branch ends by an exception,
    [sys.stdout] is still the capture buffer and the terminal has
    received the line of that pair only. *)
Theorem stdout_stays_redirected_on_failure
        p totals (w w' : world E) x :
  plain_errors E →
  plain_pair p →
  capture w = None →
  copy_pair_parsed p totals w = (Raise x, w') →
  is_Some (capture w') ∧ terminal w' = terminal w ++ pair_heading p.
Proof.
  intros Herr [Hsrc Hdst] Hcap. rewrite copy_pair_parsed_unfold. cbv zeta.
  set (w0 := write (pair_heading p) w).
  assert (Ht0 : terminal w0 = terminal w ++ pair_heading p).
  { subst w0. unfold write. by rewrite Hcap. }
  set (w1 := mkWorld (env w0) (terminal w0) (Some []) (stdin w0)).
  destruct (copy_files_counted_captured (source_files p) (target_folder p) w1)
    as [Hc2 Ht2]; [by eexists|].
  destruct (copy_files_counted _ _ w1) as [[c|y] w2] eqn:Hrun; cbn [fst snd] in *.
  - rewrite (copy_files_counted_parsed Herr _ _ w1 c w2 Hsrc Hdst eq_refl Hrun).
    discriminate.
  - intros [= <- <-]. split; [done|]. by rewrite Ht2.
Qed.
End EntryPointFurther.

(** ** The size formatter at the top of the KB range *)

(** X22. Between 1024 and 1024*1024 bytes the figure printed before
    "KB" goes from 1.00 to 1024.00, and it is 1024.00 exactly for the
    sizes from 1048571 on: the last five sizes below one megabyte are
    printed "1024.00KB". *)
Theorem format_size_KB_figure (b : Z) :
  (1024 ≤ b < 1024 * 1024)%Z →
  ∃ h : N,
    format_size b
    = (str_of_N (h / 100) ++ [46; digit_char (h / 10 mod 10); digit_char (h mod 10)])
        ++ lit "KB"
    ∧ 100 ≤ h ≤ 102400
    ∧ (h = 102400 ↔ (1048571 ≤ b)%Z).
Proof.
  intros [Hlo Hhi]. unfold format_size.
  destruct (Z.ltb_spec b 1024); [lia|].
  destruct (Z.ltb_spec b (1024 * 1024)); [|lia].
  rewrite float_of_int_exact by (change (2 ^ 53) with 9007199254740992; lia).
  exists (div_rne (100 * Z.to_N b) 1024). split; [reflexivity|].
  pose proof (div_rne_nearest (100 * Z.to_N b) 1024 ltac:(lia)) as Hn.
  lia.
Qed.

Example format_size_below_one_megabyte :
  format_size 1048575 = lit "1024.00KB"
  ∧ format_size 1048570 = lit "1023.99KB"
  ∧ format_size 1048576 = lit "1.00MB".
Proof. repeat split; vm_compute; reflexivity. Qed.

(** ** Timestamps and invocations *)

Section Timestamps.
Context {E : Type} `{Environment E}.




End Timestamps.

Section EmptyWatchList.
Context {E : Type} `{Environment E}.

(** X24. Handed an empty watch list, [start_auto_monitor] prints no
    pair and schedules no directory, yet the handler it builds watches
    every pair of the registry ([__init__] takes the empty list for
    none given): the observer is started with nothing to observe. *)
Theorem empty_watch_list_schedules_nothing reg (w : world E) :
  ∃ w1 h,
    env w1 = env w
    ∧ h_watch_pairs h = keys reg
    ∧ start_auto_monitor reg (Some []) w
      = match observer_start [] (env w) with
        | (Ok _, e') => (Ok (Watching h []), set_env e' w1)
        | (Raise x, e') => (Raise x, set_env e' w1)
        end.
Proof.
  rewrite start_auto_monitor_unfold. cbn [print_watched scheduled_dirs].
  unfold ret. cbv zeta. rewrite !env_write.
  eexists _, (new_handler reg (Some [])).
  split; [|split; [reflexivity|reflexivity]]. by rewrite !env_write.
Qed.
End EmptyWatchList.

(** ** The totals of a run in which nothing fails *)

Lemma mem_path_exists_result p (e e' : mem_env) r :
  path_exists p e = (r, e') → e' = e.
Proof. intros Heq. apply (f_equal snd) in Heq. exact (eq_sym Heq). Qed.

Lemma mem_stat_size_result p (e e' : mem_env) sz :
  stat_size p e = (Ok sz, e') →
  e' = e
  ∧ ((∃ d, lookup_node (nodes e) p = Some (File d) ∧ sz = Z.of_nat (length d))
     ∨ (lookup_node (nodes e) p = Some Dir ∧ sz = 4096%Z)).
Proof.
  change (stat_size p e) with (mem_stat_size p e). unfold mem_stat_size.
  destruct (lookup_node (nodes e) p) as [[d|]|]; [| |discriminate].
  - intros [= <- <-]. split; [done|]. left. by exists d.
  - intros [= <- <-]. split; [done|]. by right.
Qed.

Lemma mem_copy2_result s dst (e e' : mem_env) :
  copy2 s dst e = (Ok tt, e') →
  lookup_node (nodes e) dst ≠ Some Dir →
  ∃ d,
    lookup_node (nodes e) (Path_of s) = Some (File d)
    ∧ e' = mkMem (<[dst := File d]> (nodes e)) (clock e).
Proof.
  change (copy2 s dst e) with (mem_copy2 s dst e). unfold mem_copy2.
  intros Hrun Hnd.
  destruct (lookup_node (nodes e) (Path_of s)) as [[d|]|]; [|discriminate..].
  destruct (ends_with_slash s); [discriminate|].
  assert (Ht : match lookup_node (nodes e) dst with
               | Some Dir => joinpath dst (name (Path_of s))
               | _ => dst
               end = dst).
  { destruct (lookup_node (nodes e) dst) as [[]|]; done. }
  rewrite Ht in Hrun.
  destruct (bool_decide (dst = Path_of s)); [discriminate|].
  exists d. split; [done|].
  destruct (lookup_node (nodes e) dst) as [[d'|]|]; [|done|];
    destruct (lookup_node (nodes e) (parent dst)) as [[]|];
    try discriminate; by injection Hrun as <-.
Qed.

Lemma mem_copy_one_balance dp folder s (c c' : counters) (w w' : world mem_env) :
  copy_one dp folder s (c, w) = (Ok tt, (c', w')) →
  (parts (Path_of s) ≠ [] →
   lookup_node (nodes (env w)) (destination_of dp s) ≠ Some Dir) →
  (error_count c ≤ error_count c')%Z
  ∧ (error_count c' = error_count c →
     (total_source_size c' - total_dest_size c'
      = total_source_size c - total_dest_size c)%Z).
Proof.
  intros Hone Hnd.
  pose proof (copy_one_effect dp folder s c w) as Heff. rewrite Hone in Heff.
  destruct Heff as [Hsum _].
  destruct (copy_one_cases dp folder s c w)
    as [(e1 & e2 & e3 & e4 & e5 & e6 & sz & found & orig & dsz
         & H1 & H2 & H3 & H4 & H5 & H6)|Hsame].
  2: { rewrite Hone in Hsame. cbn [fst snd] in Hsame. split; lia. }
  rewrite (copy_one_success _ folder _ c _ _ _ _ _ _ _ _ _ _ _
                            H1 H2 H3 H4 H5 H6) in Hone.
  pose proof (f_equal (fun x => fst (snd x)) Hone) as Hc. cbn [fst snd] in Hc.
  subst c'. cbn [incr_success add_dest_size add_source_size error_count
                 total_source_size total_dest_size].
  split; [lia|]. intros _.
  apply mem_path_exists_result in H1 as ->.
  apply mem_stat_size_result in H2 as [-> Hsz].
  apply mem_path_exists_result in H3 as ->.
  assert (e4 = env w) as ->.
  { destruct found; [|by destruct H4].
    by apply mem_stat_size_result in H4 as [-> _]. }
  assert (Hnd' : lookup_node (nodes (env w)) (destination_of dp s) ≠ Some Dir).
  { apply Hnd. destruct Hsz as [(d1 & Hd1 & _)|[Hdir _]].
    - by eapply lookup_node_File_parts.
    - exfalso. revert H5.
      change (copy2 s (destination_of dp s) (env w))
        with (mem_copy2 s (destination_of dp s) (env w)).
      unfold mem_copy2. by rewrite Hdir. }
  destruct (mem_copy2_result _ _ _ _ H5 Hnd') as (d & Hd & ->).
  apply mem_stat_size_result in H6 as [_ Hdsz]. cbn [nodes] in Hdsz.
  rewrite lookup_node_insert_file, decide_True in Hdsz by done.
  destruct Hsz as [(d1 & Hd1 & ->)|[Hdir _]]; [|congruence].
  destruct Hdsz as [(d2 & Hd2 & ->)|[? _]]; [|done].
  assert (d1 = d) as -> by congruence. assert (d2 = d) as -> by congruence.
  lia.
Qed.

Lemma mem_copy_loop_balance dp folder l :
  ∀ (c c' : counters) (w w' : world mem_env),
    copy_loop dp folder l (c, w) = (Ok tt, (c', w')) →
    Forall (fun s => parts (Path_of s) ≠ [] →
                     lookup_node (nodes (env w)) (destination_of dp s)
                     ≠ Some Dir) l →
    (error_count c ≤ error_count c')%Z
    ∧ (error_count c' = error_count c →
       (total_source_size c' - total_dest_size c'
        = total_source_size c - total_dest_size c)%Z).
Proof.
  induction l as [|s l IH]; intros c c' w w' Hloop Hnd.
  - cbn [copy_loop] in Hloop. unfold ret in Hloop.
    pose proof (f_equal (fun x => fst (snd x)) Hloop) as Hc.
    cbn [fst snd] in Hc. subst c'. split; [lia | done].
  - apply Forall_cons in Hnd as [Hs Hl].
    cbn [copy_loop] in Hloop. unfold bind at 1 in Hloop.
    destruct (copy_one dp folder s (c, w)) as [[[]|x] [c1 w1]] eqn:Hone;
      [|discriminate].
    destruct (mem_copy_one_balance _ _ _ _ _ _ _ Hone Hs) as [Hle1 Hbal1].
    assert (Hl1 : Forall (fun s' => parts (Path_of s') ≠ [] →
                                    lookup_node (nodes (env w1))
                                                (destination_of dp s')
                                    ≠ Some Dir) l).
    { set (J := fun w0 : world mem_env =>
                  Forall (fun s' => parts (Path_of s') ≠ [] →
                                    lookup_node (nodes (env w0))
                                                (destination_of dp s')
                                    ≠ Some Dir) l).
      assert (HJ : J (snd (snd (copy_one dp folder s (c, w))))).
      { apply (copy_one_invariant J dp).
        - intros t w0 HJ. unfold J. by rewrite env_write.
        - intros q w0 HJ. unfold J, set_env. cbn [env].
          by rewrite mem_path_exists_env.
        - intros q w0 HJ. unfold J, set_env. cbn [env].
          by rewrite mem_stat_size_env.
        - intros w0 HJ. unfold J, set_env in *. cbn [env].
          destruct (mem_copy2_effect s (destination_of dp s) (env w0))
            as [->|(d & target & _ & _ & Hnt & ->)]; [exact HJ|].
          cbn [nodes]. eapply Forall_impl; [exact HJ|].
          intros s' Hs' Hp. cbn beta in *.
          rewrite lookup_node_insert_file by done.
          destruct (decide (target = destination_of dp s')); [done|].
          by apply Hs'.
        - exact Hl. }
      rewrite Hone in HJ. exact HJ. }
    destruct (IH _ _ _ _ Hloop Hl1) as [Hle2 Hbal2].
    split; [lia|]. intros Heq.
    rewrite Hbal2 by lia. apply Hbal1. lia.
Qed.

Lemma destination_not_created dp s (e e1 : mem_env) :
  mkdir_parents dp e = (Ok tt, e1) →
  parts (Path_of s) ≠ [] →
  lookup_node (nodes e) (destination_of dp s) ≠ Some Dir →
  lookup_node (nodes e1) (destination_of dp s) ≠ Some Dir.
Proof.
  destruct e as [m clk]. intros Hmk Hparts Hnd.
  destruct (mem_mkdir_parents_spec _ _ _ _ Hmk) as (m0 & -> & _ & Hsame).
  cbn [nodes] in *.
  destruct (Hsame (destination_of dp s)) as [->|(_ & _ & Hlen)]; [done|].
  rewrite destination_of_parts in Hlen by done. cbn [parts] in Hlen.
  rewrite length_app in Hlen. cbn [length] in Hlen. lia.
Qed.

(** X25. On the in-memory file system, when the copy routine returns
    with no failure counted and no destination path was a directory
    beforehand, every source has been copied, the total size written
    equals the total size read, and the summary shows the two equal
    totals without a bracketed difference. *)
Theorem totals_balance_when_nothing_fails
        sources folder (w w' : world mem_env) c :
  copy_files_counted sources folder w = (Ok c, w') →
  error_count c = 0%Z →
  Forall (fun s => lookup_node (nodes (env w))
                               (destination_of (Path_of folder) s)
                   ≠ Some Dir) sources →
  success_count c = Z.of_nat (length sources)
  ∧ total_dest_size c = total_source_size c
  ∧ total_size_str c
    = lit "总大小: " ++ format_size (total_source_size c) ++ lit " → "
        ++ format_size (total_source_size c).
Proof.
  rewrite copy_files_counted_unfold. intros Hrun Herr Hnd.
  destruct (mkdir_parents (Path_of folder) (env w)) as [[[]|x] e1] eqn:Hmk;
    [|discriminate].
  pose proof (copy_loop_effect (Path_of folder) folder sources counters0
                               (set_env e1 w)) as Heff.
  destruct (copy_loop (Path_of folder) folder sources (counters0, set_env e1 w))
    as [[[]|x] [c2 w2]] eqn:Hloop; [|discriminate].
  pose proof (f_equal fst Hrun) as Hc. cbn [fst] in Hc. injection Hc as ->.
  destruct Heff as [Hsum _]. cbn [counters0 success_count error_count] in Hsum.
  assert (Hnd1 : Forall (fun s => parts (Path_of s) ≠ [] →
                                  lookup_node (nodes (env (set_env e1 w)))
                                              (destination_of (Path_of folder) s)
                                  ≠ Some Dir) sources).
  { eapply Forall_impl; [exact Hnd|]. intros s Hs Hp. cbn beta in *.
    unfold set_env. cbn [env]. by eapply destination_not_created. }
  destruct (mem_copy_loop_balance _ _ _ _ _ _ _ Hloop Hnd1) as [_ Hbal].
  specialize (Hbal Herr).
  cbn [counters0 total_source_size total_dest_size] in Hbal.
  assert (Heq : total_dest_size c = total_source_size c) by lia.
  split; [lia|]. split; [exact Heq|].
  unfold total_size_str. rewrite Heq, Z.sub_diag. reflexivity.
Qed.

(** ** Running the same batch again *)








(** ** The further properties on concrete runs *)

Lemma pair_eta_fst {A B} (x : A * B) (a : A) : fst x = a → x = (a, snd x).
Proof. destruct x as [a' b]. cbn. by intros ->. Qed.

Lemma copy_never_deletes_witness :
  lookup_node (nodes (env two_files_world)) (Path_of (lit "/src/a.txt"))
  = Some (File [1; 2; 3; 4; 5])
  ∧ ∃ n',
      lookup_node
        (nodes (env (snd (copy_files_counted mixed_batch (lit "/dst")
                                             two_files_world))))
        (Path_of (lit "/src/a.txt"))
      = Some n'
      ∧ (File [1; 2; 3; 4; 5] = Dir → n' = Dir).
Proof.
  assert (H1 : lookup_node (nodes (env two_files_world))
                           (Path_of (lit "/src/a.txt"))
               = Some (File [1; 2; 3; 4; 5])) by (vm_compute; reflexivity).
  split; [exact H1|].
  exact (copy_never_deletes mixed_batch (lit "/dst") two_files_world
                            (Path_of (lit "/src/a.txt")) _ H1).
Defined.

Lemma copy_stays_inside_destination_witness :
  ¬ inside (Path_of (lit "/dst")) (Path_of (lit "/src/a.txt"))
  ∧ let after :=
        lookup_node
          (nodes (env (snd (copy_files_counted mixed_batch (lit "/dst")
                                               two_files_world))))
          (Path_of (lit "/src/a.txt")) in
    after = lookup_node (nodes (env two_files_world)) (Path_of (lit "/src/a.txt"))
    ∨ (lookup_node (nodes (env two_files_world)) (Path_of (lit "/src/a.txt"))
       = None
       ∧ after = Some Dir).
Proof.
  assert (H1 : ¬ inside (Path_of (lit "/dst")) (Path_of (lit "/src/a.txt"))).
  { intros [_ [k Hk]]. vm_compute in Hk. discriminate Hk. }
  split; [exact H1|].
  exact (copy_stays_inside_destination mixed_batch (lit "/dst") two_files_world
                                       (Path_of (lit "/src/a.txt")) H1).
Defined.

Lemma destination_folder_exists_after_copy_witness :
  copy_files_counted mixed_batch (lit "/dst") two_files_world
  = (Ok (mkCounters 2 1 8 8),
     snd (copy_files_counted mixed_batch (lit "/dst") two_files_world))
  ∧ lookup_node
      (nodes (env (snd (copy_files_counted mixed_batch (lit "/dst")
                                           two_files_world))))
      (Path_of (lit "/dst"))
    = Some Dir.
Proof.
  assert (H1 : copy_files_counted mixed_batch (lit "/dst") two_files_world
               = (Ok (mkCounters 2 1 8 8),
                  snd (copy_files_counted mixed_batch (lit "/dst")
                                          two_files_world)))
    by (apply pair_eta_fst; vm_compute; reflexivity).
  split; [exact H1|].
  exact (destination_folder_exists_after_copy _ _ _ _ _ H1).
Defined.

Lemma one_report_line_per_source_witness :
  copy_files_counted mixed_batch (lit "/dst") two_files_world
  = (Ok (mkCounters 2 1 8 8),
     snd (copy_files_counted mixed_batch (lit "/dst") two_files_world))
  ∧ ∃ lines,
      Forall2 (report_of (lit "/dst")) mixed_batch lines
      ∧ output (snd (copy_files_counted mixed_batch (lit "/dst") two_files_world))
        = output two_files_world ++ concat (map (fun x => x ++ [10]) lines)
            ++ (10 :: summary_line (mkCounters 2 1 8 8)) ++ [10].
Proof.
  assert (H1 : copy_files_counted mixed_batch (lit "/dst") two_files_world
               = (Ok (mkCounters 2 1 8 8),
                  snd (copy_files_counted mixed_batch (lit "/dst")
                                          two_files_world)))
    by (apply pair_eta_fst; vm_compute; reflexivity).
  split; [exact H1|].
  exact (one_report_line_per_source _ _ _ _ _ H1).
Defined.

(** The same run, evaluated: what is printed. *)
Example mixed_batch_report :
  terminal (snd (copy_files_counted mixed_batch (lit "/dst") two_files_world))
  = lit "✅ 成功复制: a.txt (0B → 5B) -> /dst" ++ [10]
      ++ lit "❌ 源文件不存在: /src/nope" ++ [10]
      ++ lit "✅ 成功复制: b.txt (0B → 3B) -> /dst" ++ [10; 10]
      ++ lit "📊 复制完成! 成功: 2, 失败: 1 | 总大小: 8B → 8B" ++ [10].
Proof. vm_compute. reflexivity. Qed.

(** The same run, evaluated: the sources are as they were, the
    destination folder holds the two copies. *)
Example mixed_batch_run :
  let after :=
      nodes (env (snd (copy_files_counted mixed_batch (lit "/dst")
                                          two_files_world))) in
  lookup_node after (Path_of (lit "/src/a.txt")) = Some (File [1; 2; 3; 4; 5])
  ∧ lookup_node after (Path_of (lit "/src/b.txt")) = Some (File [6; 7; 8])
  ∧ lookup_node after (Path_of (lit "/src")) = Some Dir
  ∧ lookup_node after (Path_of (lit "/dst")) = Some Dir
  ∧ lookup_node after (Path_of (lit "/dst/a.txt")) = Some (File [1; 2; 3; 4; 5])
  ∧ lookup_node after (Path_of (lit "/dst/b.txt")) = Some (File [6; 7; 8])
  ∧ lookup_node after (Path_of (lit "/dst/nope")) = None.
Proof. repeat split; vm_compute; reflexivity. Qed.

Lemma select_copy_mode_first_valid_witness :
  stdin (typing [lit "3"; lit ""; lit " 2 "; lit "1"])
  = [lit "3"; lit ""] ++ lit " 2 " :: [lit "1"]
  ∧ Forall (fun l => strip l ≠ lit "1" ∧ strip l ≠ lit "2") [lit "3"; lit ""]
  ∧ ((strip (lit " 2 ") = lit "1" ∧ 2%Z = 1%Z)
     ∨ (strip (lit " 2 ") = lit "2" ∧ 2%Z = 2%Z))
  ∧ ∃ w',
      select_copy_mode (typing [lit "3"; lit ""; lit " 2 "; lit "1"])
      = (Ok 2%Z, w')
      ∧ stdin w' = [lit "1"]
      ∧ env w' = env (typing [lit "3"; lit ""; lit " 2 "; lit "1"])
      ∧ output w'
        = output (typing [lit "3"; lit ""; lit " 2 "; lit "1"])
            ++ copy_mode_menu
            ++ concat (map (fun _ => copy_mode_prompt ++ copy_mode_error)
                           [lit "3"; lit ""])
            ++ copy_mode_prompt.
Proof.
  assert (H1 : stdin (typing [lit "3"; lit ""; lit " 2 "; lit "1"])
               = [lit "3"; lit ""] ++ lit " 2 " :: [lit "1"]) by reflexivity.
  assert (H2 : Forall (fun l => strip l ≠ lit "1" ∧ strip l ≠ lit "2")
                      [lit "3"; lit ""]).
  { repeat constructor; vm_compute; discriminate. }
  assert (H3 : (strip (lit " 2 ") = lit "1" ∧ 2%Z = 1%Z)
               ∨ (strip (lit " 2 ") = lit "2" ∧ 2%Z = 2%Z)).
  { right. split; [vm_compute|]; reflexivity. }
  split; [exact H1|]. split; [exact H2|]. split; [exact H3|].
  exact (select_copy_mode_first_valid _ _ _ _ _ H1 H2 H3).
Defined.

Lemma select_file_pair_kth_witness :
  stdin (typing [lit " 4"; lit "x"]) = lit " 4" :: [lit "x"]
  ∧ strip (lit " 4") = str_of_Z 4
  ∧ (1 ≤ 4 ≤ Z.of_nat (length file_pairs))%Z
  ∧ ∃ w',
      select_file_pair (typing [lit " 4"; lit "x"]) = (Ok (pair_at 4), w')
      ∧ stdin w' = [lit "x"]
      ∧ env w' = env (typing [lit " 4"; lit "x"])
      ∧ output w'
        = output (typing [lit " 4"; lit "x"]) ++ file_pair_menu
            ++ lit "请输入要复制的文件对编号: ".
Proof.
  assert (H1 : stdin (typing [lit " 4"; lit "x"]) = lit " 4" :: [lit "x"])
    by reflexivity.
  assert (H2 : strip (lit " 4") = str_of_Z 4) by (vm_compute; reflexivity).
  assert (H3 : (1 ≤ 4 ≤ Z.of_nat (length file_pairs))%Z) by (cbn; lia).
  split; [exact H1|]. split; [exact H2|]. split; [exact H3|].
  exact (select_file_pair_kth 4 _ _ _ H1 H2 H3).
Defined.

Lemma select_watch_pairs_selection_witness :
  stdin (typing [lit "3, 1,3"]) = lit "3, 1,3" :: []
  ∧ Forall2 (fun f k => strip f = str_of_Z k)
            (split_on 44 (strip (lit "3, 1,3"))) [3; 1; 3]%Z
  ∧ Forall (fun k => in_range k = true) [3; 1; 3]%Z
  ∧ ∃ w',
      select_watch_pairs (typing [lit "3, 1,3"])
      = (Ok (map pair_at [3; 1; 3]%Z), w')
      ∧ stdin w' = []
      ∧ env w' = env (typing [lit "3, 1,3"])
      ∧ output w'
        = output (typing [lit "3, 1,3"]) ++ watch_pairs_menu
            ++ watch_pairs_prompt.
Proof.
  assert (H1 : stdin (typing [lit "3, 1,3"]) = lit "3, 1,3" :: [])
    by reflexivity.
  assert (H2 : Forall2 (fun f k => strip f = str_of_Z k)
                       (split_on 44 (strip (lit "3, 1,3"))) [3; 1; 3]%Z).
  { repeat constructor; vm_compute; reflexivity. }
  assert (H3 : Forall (fun k => in_range k = true) [3; 1; 3]%Z).
  { repeat constructor. }
  split; [exact H1|]. split; [exact H2|]. split; [exact H3|].
  exact (select_watch_pairs_selection _ _ _ _ H1 H2 H3).
Defined.

(** The same run, evaluated: the ids come in the order typed, pair3
    twice. *)
Example watch_selection_run :
  fst (select_watch_pairs (typing [lit "3, 1,3"]))
  = Ok [lit "pair3"; lit "pair1"; lit "pair3"].
Proof. vm_compute. reflexivity. Qed.

Lemma select_watch_pairs_rejects_whole_line_witness :
  stdin (typing [lit "1,9,2"; lit "2"]) = lit "1,9,2" :: lit "2" :: []
  ∧ Forall (fun f => (length f ≤ 4300)%nat) (split_on 44 (strip (lit "1,9,2")))
  ∧ Forall2 (fun f k => strip f = str_of_Z k)
            (split_on 44 (strip (lit "1,9,2"))) ([1] ++ 9 :: [2])%Z
  ∧ Forall (fun k => in_range k = true) [1%Z]
  ∧ in_range 9 = false
  ∧ Forall2 (fun f k => strip f = str_of_Z k)
            (split_on 44 (strip (lit "2"))) [2%Z]
  ∧ Forall (fun k => in_range k = true) [2%Z]
  ∧ ∃ w',
      select_watch_pairs (typing [lit "1,9,2"; lit "2"])
      = (Ok (map pair_at [2%Z]), w')
      ∧ stdin w' = []
      ∧ env w' = env (typing [lit "1,9,2"; lit "2"])
      ∧ output w'
        = output (typing [lit "1,9,2"; lit "2"]) ++ watch_pairs_menu
            ++ watch_pairs_prompt ++ out_of_range_notice 9
            ++ watch_pairs_prompt.
Proof.
  assert (H1 : stdin (typing [lit "1,9,2"; lit "2"])
               = lit "1,9,2" :: lit "2" :: []) by reflexivity.
  assert (H0 : Forall (fun f => (length f ≤ 4300)%nat)
                      (split_on 44 (strip (lit "1,9,2")))).
  { repeat constructor; cbn [length]; lia. }
  assert (H2 : Forall2 (fun f k => strip f = str_of_Z k)
                       (split_on 44 (strip (lit "1,9,2"))) ([1] ++ 9 :: [2])%Z).
  { repeat constructor; vm_compute; reflexivity. }
  assert (H3 : Forall (fun k => in_range k = true) [1%Z])
    by (repeat constructor).
  assert (H4 : in_range 9 = false) by reflexivity.
  assert (H5 : Forall2 (fun f k => strip f = str_of_Z k)
                       (split_on 44 (strip (lit "2"))) [2%Z]).
  { repeat constructor; vm_compute; reflexivity. }
  assert (H6 : Forall (fun k => in_range k = true) [2%Z])
    by (repeat constructor).
  split; [exact H1|]. split; [exact H0|]. split; [exact H2|].
  split; [exact H3|]. split; [exact H4|]. split; [exact H5|].
  split; [exact H6|].
  exact (select_watch_pairs_rejects_whole_line _ _ _ _ _ _ _ _
           H1 H0 H2 H3 H4 H5 H6).
Defined.

Lemma unlisted_events_are_ignored_witness :
  (is_directory (mkEvent false (lit "/w/other")) = true
   ∨ Forall (fun q => listed (h_file_pairs handler_A_at_10)
                             (Path_of (src_path (mkEvent false (lit "/w/other"))))
                             q = false)
            (h_watch_pairs handler_A_at_10))
  ∧ on_modified (mkEvent false (lit "/w/other"))
                (handler_A_at_10, clock_world [11%Q])
    = (Ok tt, (handler_A_at_10, clock_world [11%Q])).
Proof.
  assert (H1 : is_directory (mkEvent false (lit "/w/other")) = true
               ∨ Forall (fun q => listed (h_file_pairs handler_A_at_10)
                                         (Path_of (src_path
                                                     (mkEvent false (lit "/w/other"))))
                                         q = false)
                        (h_watch_pairs handler_A_at_10)).
  { right. repeat constructor; vm_compute; reflexivity. }
  split; [exact H1|].
  exact (unlisted_events_are_ignored _ _ _ H1).
Defined.

Lemma mem_os_errors_only : os_errors_only mem_env.
Proof.
  intros e e' x. repeat split.
  - intros p. change (path_exists p e) with (mem_exists p e).
    unfold mem_exists. discriminate.
  - intros p. change (stat_size p e) with (mem_stat_size p e).
    unfold mem_stat_size.
    destruct (lookup_node (nodes e) p) as [[d|]|]; try discriminate.
    unfold os_error. intros [= <- _]. by eexists.
  - intros p. change (mkdir_parents p e) with (mem_mkdir_parents p e).
    unfold mem_mkdir_parents.
    destruct (mkdir_walk (anchored p) [] (parts p) (nodes e)) as [r m'] eqn:Hw.
    intros [= -> _]. clear e'.
    revert Hw. generalize (@nil str) as above. generalize (nodes e) as m.
    induction (parts p) as [|c r IH]; intros m above; cbn [mkdir_walk];
      [discriminate|].
    destruct (m !! mkPath (anchored p) (above ++ [c])) as [[d|]|].
    + unfold os_error. destruct r; intros [= <- _]; by eexists.
    + apply IH.
    + apply IH.
  - intros s p. change (copy2 s p e) with (mem_copy2 s p e).
    unfold mem_copy2, os_error.
    repeat match goal with
           | |- context [match ?x with _ => _ end] => destruct x
           end;
      try discriminate; intros [= <- _]; by eexists.
  - change (time_time e) with (mem_time_time e). unfold mem_time_time.
    destruct (clock e); discriminate.
Qed.

Lemma on_modified_fails_only_by_OSError_witness :
  os_errors_only mem_env
  ∧ timestamped (new_handler registry_AB None)
  ∧ let h' := fst (snd (on_modified event_g
                                    (new_handler registry_AB None,
                                     clock_world [10%Q]))) in
    timestamped h'
    ∧ h_file_pairs h' = h_file_pairs (new_handler registry_AB None)
    ∧ h_watch_pairs h' = h_watch_pairs (new_handler registry_AB None)
    ∧ ∀ x, fst (on_modified event_g (new_handler registry_AB None,
                                     clock_world [10%Q])) = Raise x →
           is_OSError x.
Proof.
  split; [exact mem_os_errors_only|].
  split; [exact (new_handler_timestamped registry_AB None)|].
  exact (on_modified_fails_only_by_OSError
           mem_os_errors_only event_g (new_handler registry_AB None)
           (clock_world [10%Q]) (new_handler_timestamped registry_AB None)).
Defined.

Lemma start_auto_monitor_unknown_pair_witness :
  Forall (registered registry_AB) [lit "A"]
  ∧ has_key registry_AB (lit "C") = false
  ∧ ∃ w',
      start_auto_monitor registry_AB (Some ([lit "A"] ++ lit "C" :: [lit "B"]))
                         (clock_world [])
      = (Raise (Exc KeyError (lit "C")), w')
      ∧ env w' = env (clock_world []).
Proof.
  assert (H1 : Forall (registered registry_AB) [lit "A"])
    by (repeat constructor).
  assert (H2 : has_key registry_AB (lit "C") = false) by reflexivity.
  split; [exact H1|]. split; [exact H2|].
  exact (start_auto_monitor_unknown_pair registry_AB [lit "A"] (lit "C")
                                         [lit "B"] (clock_world []) H1 H2).
Defined.

Lemma start_auto_monitor_schedules_witness :
  Forall (registered registry_AB) [lit "A"; lit "B"]
  ∧ let dirs := scheduled_dirs registry_AB [lit "A"; lit "B"] [] in
    NoDup dirs
    ∧ (∀ d, d ∈ dirs
            ↔ ∃ pid p s, pid ∈ [lit "A"; lit "B"]
                         ∧ lookup_pair registry_AB pid = Some p
                         ∧ s ∈ source_files p ∧ d = source_dir s)
    ∧ ∃ w1,
        env w1 = env (clock_world [])
        ∧ start_auto_monitor registry_AB (Some [lit "A"; lit "B"])
                             (clock_world [])
          = match observer_start dirs (env (clock_world [])) with
            | (Ok _, e') =>
              (Ok (Watching (new_handler registry_AB (Some [lit "A"; lit "B"]))
                            dirs),
               set_env e' w1)
            | (Raise x, e') => (Raise x, set_env e' w1)
            end.
Proof.
  assert (H1 : Forall (registered registry_AB) [lit "A"; lit "B"])
    by (repeat constructor).
  split; [exact H1|].
  exact (start_auto_monitor_schedules registry_AB [lit "A"; lit "B"]
                                      (clock_world []) H1).
Defined.

(** The same list, evaluated: the three source files of A and B lie in
    one directory, scheduled once. *)
Example one_directory_for_A_and_B :
  scheduled_dirs registry_AB [lit "A"; lit "B"] [] = [lit "/w"].
Proof. vm_compute. reflexivity. Qed.

Lemma handled_files_are_watched_witness :
  (lit "B") ∈ [lit "A"; lit "B"]
  ∧ listed registry_AB (Path_of (lit "/w/f")) (lit "B") = true
  ∧ str_of_Path (parent (Path_of (lit "/w/f")))
    ∈ scheduled_dirs registry_AB [lit "A"; lit "B"] [].
Proof.
  assert (H1 : (lit "B") ∈ [lit "A"; lit "B"]) by (right; left).
  assert (H2 : listed registry_AB (Path_of (lit "/w/f")) (lit "B") = true)
    by (vm_compute; reflexivity).
  split; [exact H1|]. split; [exact H2|].
  exact (handled_files_are_watched registry_AB [lit "A"; lit "B"]
                                   (Path_of (lit "/w/f")) (lit "B") H1 H2).
Defined.

Lemma main_copies_the_selected_pair_witness :
  auto manual_args = false
  ∧ select_copy_mode pair1_world = (Ok 1%Z, snd (select_copy_mode pair1_world))
  ∧ select_file_pair (snd (select_copy_mode pair1_world))
    = (Ok (lit "pair1"),
       snd (select_file_pair (snd (select_copy_mode pair1_world))))
  ∧ ∃ p,
      lookup_pair file_pairs (lit "pair1") = Some p
      ∧ main manual_args pair1_world
        = match copy_files_with_replace
                  (source_files p) (target_folder p)
                  (write (single_pair_heading p)
                         (snd (select_file_pair
                                 (snd (select_copy_mode pair1_world))))) with
          | (Ok _, w3) => (Ok Completed, w3)
          | (Raise x, w3) => (Raise x, w3)
          end.
Proof.
  assert (H1 : auto manual_args = false) by reflexivity.
  assert (H2 : select_copy_mode pair1_world
               = (Ok 1%Z, snd (select_copy_mode pair1_world)))
    by (apply pair_eta_fst; vm_compute; reflexivity).
  assert (H3 : select_file_pair (snd (select_copy_mode pair1_world))
               = (Ok (lit "pair1"),
                  snd (select_file_pair (snd (select_copy_mode pair1_world)))))
    by (apply pair_eta_fst; vm_compute; reflexivity).
  split; [exact H1|]. split; [exact H2|]. split; [exact H3|].
  exact (main_copies_the_selected_pair manual_args pair1_world _ _ _ H1 H2 H3).
Defined.

Lemma main_watches_registered_pairs_witness :
  auto auto_args = true
  ∧ ((∃ w', main auto_args (typing [lit "2,1"]) = (Raise (SystemExit 1), w')
            ∧ env w' = env (typing [lit "2,1"]))
     ∨ (∃ w', main auto_args (typing [lit "2,1"]) = (Raise end_of_input, w')
              ∧ env w' = env (typing [lit "2,1"]))
     ∨ (∃ l w1,
           l ≠ [] ∧ Forall (registered file_pairs) l
           ∧ env w1 = env (typing [lit "2,1"])
           ∧ main auto_args (typing [lit "2,1"])
             = start_auto_monitor file_pairs (Some l) w1)).
Proof.
  assert (H1 : auto auto_args = true) by reflexivity.
  split; [exact H1|].
  exact (main_watches_registered_pairs auto_args (typing [lit "2,1"]) H1).
Defined.

Lemma all_pairs_shows_only_headings_witness :
  capture (typing []) = None
  ∧ copy_all_pairs file_pairs (typing [])
    = (Ok tt, snd (copy_all_pairs file_pairs (typing [])))
  ∧ ∃ totals,
      terminal (snd (copy_all_pairs file_pairs (typing [])))
      = terminal (typing []) ++ all_pairs_heading
          ++ concat (map (fun kp => pair_heading (snd kp)) file_pairs)
          ++ (10 :: grand_total_line totals) ++ [10]
      ∧ capture (snd (copy_all_pairs file_pairs (typing []))) = None.
Proof.
  assert (H1 : capture (typing []) = None) by reflexivity.
  assert (H2 : copy_all_pairs file_pairs (typing [])
               = (Ok tt, snd (copy_all_pairs file_pairs (typing []))))
    by (apply pair_eta_fst; vm_compute; reflexivity).
  split; [exact H1|]. split; [exact H2|].
  exact (all_pairs_shows_only_headings file_pairs (typing []) _ H1 H2).
Defined.

Lemma blocked_pair_plain : plain_pair blocked_pair.
Proof.
  unfold plain_pair, plain.
  refine (bool_decide_unpack _ _). vm_compute. exact I.
Qed.

Lemma stdout_stays_redirected_on_failure_witness :
  plain_errors mem_env
  ∧ plain_pair blocked_pair
  ∧ capture blocked_pair_world = None
  ∧ copy_pair_parsed blocked_pair (0%Z, 0%Z) blocked_pair_world
    = (Raise (Exc OSError (lit "[Errno 17] File exists")),
       snd (copy_pair_parsed blocked_pair (0%Z, 0%Z) blocked_pair_world))
  ∧ is_Some (capture (snd (copy_pair_parsed blocked_pair (0%Z, 0%Z)
                                            blocked_pair_world)))
  ∧ terminal (snd (copy_pair_parsed blocked_pair (0%Z, 0%Z) blocked_pair_world))
    = terminal blocked_pair_world ++ pair_heading blocked_pair.
Proof.
  assert (H1 : capture blocked_pair_world = None) by reflexivity.
  assert (H2 : copy_pair_parsed blocked_pair (0%Z, 0%Z) blocked_pair_world
               = (Raise (Exc OSError (lit "[Errno 17] File exists")),
                  snd (copy_pair_parsed blocked_pair (0%Z, 0%Z)
                                        blocked_pair_world)))
    by (apply pair_eta_fst; vm_compute; reflexivity).
  split; [exact mem_plain_errors|]. split; [exact blocked_pair_plain|].
  split; [exact H1|]. split; [exact H2|].
  exact (stdout_stays_redirected_on_failure
           blocked_pair (0%Z, 0%Z) blocked_pair_world _ _
           mem_plain_errors blocked_pair_plain H1 H2).
Defined.

Lemma format_size_KB_figure_witness :
  (1024 ≤ 1048575 < 1024 * 1024)%Z
  ∧ ∃ h : N,
      format_size 1048575
      = (str_of_N (h / 100)
           ++ [46; digit_char (h / 10 mod 10); digit_char (h mod 10)])
          ++ lit "KB"
      ∧ 100 ≤ h ≤ 102400
      ∧ (h = 102400 ↔ (1048571 ≤ 1048575)%Z).
Proof.
  assert (H1 : (1024 ≤ 1048575 < 1024 * 1024)%Z) by lia.
  split; [exact H1|].
  exact (format_size_KB_figure 1048575 H1).
Defined.

Lemma totals_balance_when_nothing_fails_witness :
  copy_files_counted clean_batch (lit "/dst") two_files_world
  = (Ok (mkCounters 2 0 8 8),
     snd (copy_files_counted clean_batch (lit "/dst") two_files_world))
  ∧ error_count (mkCounters 2 0 8 8) = 0%Z
  ∧ Forall (fun s => lookup_node (nodes (env two_files_world))
                                 (destination_of (Path_of (lit "/dst")) s)
                     ≠ Some Dir) clean_batch
  ∧ success_count (mkCounters 2 0 8 8) = Z.of_nat (length clean_batch)
  ∧ total_dest_size (mkCounters 2 0 8 8) = total_source_size (mkCounters 2 0 8 8)
  ∧ total_size_str (mkCounters 2 0 8 8)
    = lit "总大小: " ++ format_size (total_source_size (mkCounters 2 0 8 8))
        ++ lit " → " ++ format_size (total_source_size (mkCounters 2 0 8 8)).
Proof.
  assert (H1 : copy_files_counted clean_batch (lit "/dst") two_files_world
               = (Ok (mkCounters 2 0 8 8),
                  snd (copy_files_counted clean_batch (lit "/dst")
                                          two_files_world)))
    by (apply pair_eta_fst; vm_compute; reflexivity).
  assert (H2 : error_count (mkCounters 2 0 8 8) = 0%Z) by reflexivity.
  assert (H3 : Forall (fun s => lookup_node (nodes (env two_files_world))
                                            (destination_of (Path_of (lit "/dst")) s)
                                ≠ Some Dir) clean_batch).
  { repeat constructor; vm_compute; discriminate. }
  split; [exact H1|]. split; [exact H2|]. split; [exact H3|].
  exact (totals_balance_when_nothing_fails _ _ _ _ _ H1 H2 H3).
Defined.


(** The same two runs, evaluated: the second run reports the sizes the
    first one wrote, with a difference of zero. *)
Example second_run_report :
  terminal
    (snd (copy_files_counted clean_batch (lit "/dst")
            (snd (copy_files_counted clean_batch (lit "/dst")
                                     (boot (nodes (env two_files_world)) [] [])))))
  = (lit "✅ 成功复制: a.txt (0B → 5B) -> /dst" ++ [10]
       ++ lit "✅ 成功复制: b.txt (0B → 3B) -> /dst" ++ [10; 10]
       ++ lit "📊 复制完成! 成功: 2, 失败: 0 | 总大小: 8B → 8B" ++ [10])
      ++ lit "✅ 成功复制: a.txt (5B → 5B) [0B] -> /dst" ++ [10]
      ++ lit "✅ 成功复制: b.txt (3B → 3B) [0B] -> /dst" ++ [10; 10]
      ++ lit "📊 复制完成! 成功: 2, 失败: 0 | 总大小: 8B → 8B" ++ [10].
Proof. vm_compute. reflexivity. Qed.

(* ===================================================================== *)
(** * Part X. The reports as printed                                      *)
(* ===================================================================== *)

(** ** Report lines and counters on any environment *)

Section CountedReport.
Context {E : Type} `{Environment E}.






Lemma failure_report_not_copied s line :
  failure_report s line → copied_line line = false.
Proof. by intros [->|[msg ->]]. Qed.

Lemma failure_report_report folder s line :
  failure_report s line → report_of folder s line.
Proof.
  intros [->|[msg ->]]; [right; by left | right; right; by exists msg].
Qed.




Lemma copies_reported_app l1 l2 :
  copies_reported (l1 ++ l2) = (copies_reported l1 + copies_reported l2)%nat.
Proof. unfold copies_reported. by rewrite filter_app, length_app. Qed.

Lemma copies_reported_le lines : (copies_reported lines ≤ length lines)%nat.
Proof. unfold copies_reported. apply length_filter. Qed.



End CountedReport.

(** ** Batches on the in-memory file system, with their report lines *)






(** ** Two sources of one name in any batch *)


Section SameName.
Variables (dest : Path) (s1 s2 : str) (d1 d2 : list N).
Hypothesis Hname : name (Path_of s1) = name (Path_of s2).
Hypothesis Hself1 : destination_of dest s1 ≠ Path_of s1.
Hypothesis Hself2 : destination_of dest s2 ≠ Path_of s2.





End SameName.





(** The same run, evaluated: what is printed. *)
Example one_missing_source_run :
  output (snd (copy_files_with_replace
                 [lit "/src/a.txt"; lit "/src/nope"; lit "/src/b.txt"]
                 (lit "/dst") two_files_world))
  = lit "✅ 成功复制: a.txt (0B → 5B) -> /dst" ++ [10]
      ++ lit "❌ 源文件不存在: /src/nope" ++ [10]
      ++ lit "✅ 成功复制: b.txt (0B → 3B) -> /dst" ++ [10]
      ++ [10] ++ lit "📊 复制完成! 成功: 2, 失败: 1 | 总大小: 8B → 8B" ++ [10].
Proof. vm_compute. reflexivity. Qed.



(** The same run, evaluated: what is printed, and the bytes of the
    second source at the common destination. *)
Example same_name_report :
  output (snd (copy_files_with_replace
                 [lit "/one/none.js"; lit "/one/main.js"; lit "/two/main.js";
                  lit "/two/other.js"]
                 (lit "/dst") same_name_world))
  = lit "❌ 源文件不存在: /one/none.js" ++ [10]
      ++ lit "✅ 成功复制: main.js (0B → 2B) -> /dst" ++ [10]
      ++ lit "✅ 成功复制: main.js (2B → 3B) [+1B] -> /dst" ++ [10]
      ++ lit "❌ 源文件不存在: /two/other.js" ++ [10]
      ++ [10] ++ lit "📊 复制完成! 成功: 2, 失败: 2 | 总大小: 5B → 5B" ++ [10]
  ∧ file_at (snd (copy_files_with_replace
                    [lit "/one/none.js"; lit "/one/main.js"; lit "/two/main.js";
                     lit "/two/other.js"]
                    (lit "/dst") same_name_world))
            (lit "/dst/main.js")
    = Some (File [2; 2; 2]).
Proof. split; vm_compute; reflexivity. Qed.


(** ** The grand total, as printed *)

Section GrandTotalPrinted.
Context {E : Type} `{Environment E}.




End GrandTotalPrinted.


